(** * Package recipes of instrumentation-infra: LibUnwind, Gperftools, LLVM, LLVMBinDist

    A shallow embedding of [infra/packages/gperftools.py] and
    [infra/packages/llvm/__init__.py].  The recipes are imperative Python
    that changes the working directory, touches the file system, mutates the
    shared build context and calls three collaborators that live outside
    these files ([run], [download], [apply_patch]).  They are embedded as
    computations of a state-and-exception monad over an explicit [World];
    the collaborators are fields of an environment record [Env]. *)

From Stdlib Require Import ZArith Ascii String List.
From stdpp Require Import base strings list gmap pretty.

Open Scope string_scope.
Open Scope list_scope.
Open Scope Z_scope.

(** ** Python string operations used by the recipes *)

Module PyStr.

(** [c in s] for a single character [c]. *)
Fixpoint contains (c : ascii) (s : string) : bool :=
  match s with
  | EmptyString => false
  | String d s' => if Ascii.eqb c d then true else contains c s'
  end.

(** [s.split(c)]: never empty, one more field than occurrences of [c]. *)
Fixpoint split (c : ascii) (s : string) : list string :=
  match s with
  | EmptyString => [EmptyString]
  | String d s' =>
      if Ascii.eqb c d then EmptyString :: split c s'
      else match split c s' with
           | [] => [String d EmptyString]
           | x :: xs => String d x :: xs
           end
  end.

(** [sep.join(l)]. *)
Fixpoint join (sep : string) (l : list string) : string :=
  match l with
  | [] => EmptyString
  | [x] => x
  | x :: xs => x +:+ sep +:+ join sep xs
  end.

(** [str.isspace] on the ASCII range: TAB, LF, VT, FF, CR, FS, GS, RS, US
    and the space. *)
Definition isspace (c : ascii) : bool :=
  let n := nat_of_ascii c in
  ((9 <=? n)%nat && (n <=? 13)%nat) || ((28 <=? n)%nat && (n <=? 32)%nat).

Fixpoint lstrip (s : string) : string :=
  match s with
  | String c s' => if isspace c then lstrip s' else s
  | EmptyString => EmptyString
  end.

Fixpoint rstrip (s : string) : string :=
  match s with
  | EmptyString => EmptyString
  | String c s' =>
      match rstrip s' with
      | EmptyString => if isspace c then EmptyString else String c EmptyString
      | r => String c r
      end
  end.

(** [s.strip()]. *)
Definition strip (s : string) : string := rstrip (lstrip s).

Definition digit (c : ascii) : option Z :=
  let n := nat_of_ascii c in
  if ((48 <=? n)%nat && (n <=? 57)%nat)%bool then Some (Z.of_nat n - 48) else None.

(** Decimal digits, single underscores allowed between two digits. *)
Fixpoint digits (s : string) (acc : Z) (after_digit : bool) : option Z :=
  match s with
  | EmptyString => if after_digit then Some acc else None
  | String c s' =>
      if Ascii.eqb c "_" then
        if after_digit then digits s' acc false else None
      else
        match digit c with
        | Some d => digits s' (10 * acc + d) true
        | None => None
        end
  end.

(** The white space [int] skips around the number in ASCII text: TAB, LF,
    VT, FF, CR and the space; FS, GS, RS and US, which [str.strip] removes,
    make [int] raise. *)
Definition int_space (c : ascii) : bool :=
  let n := nat_of_ascii c in
  ((9 <=? n)%nat && (n <=? 13)%nat) || (n =? 32)%nat.

Fixpoint int_lstrip (s : string) : string :=
  match s with
  | String c s' => if int_space c then int_lstrip s' else s
  | EmptyString => EmptyString
  end.

Fixpoint int_rstrip (s : string) : string :=
  match s with
  | EmptyString => EmptyString
  | String c s' =>
      match int_rstrip s' with
      | EmptyString => if int_space c then EmptyString else String c EmptyString
      | r => String c r
      end
  end.

(** [int(s)] on ASCII text; [None] stands for [ValueError]. *)
Definition int (s : string) : option Z :=
  match int_rstrip (int_lstrip s) with
  | String "-" r => Z.opp <$> digits r 0 false
  | String "+" r => digits r 0 false
  | r => digits r 0 false
  end.

(** [s.split(".")[0]]. *)
Definition first_field (c : ascii) (s : string) : string :=
  match split c s with
  | x :: _ => x
  | [] => EmptyString
  end.

End PyStr.

(** ** Paths and the file system *)

(** An absolute, normalised path is the list of its components. *)
Definition path := list string.

Module Path.

Definition is_abs (s : string) : bool :=
  match s with
  | String "/" _ => true
  | _ => false
  end.

(** One component of a path string applied to a directory. *)
Definition step (acc : path) (c : string) : path :=
  if String.eqb c "" then acc
  else if String.eqb c "." then acc
  else if String.eqb c ".." then removelast acc
  else acc ++ [c].

(** The directory entry a path string names when the process is in [cwd]. *)
Definition resolve (cwd : path) (s : string) : path :=
  fold_left step (PyStr.split "/" s) (if is_abs s then [] else cwd).

(** The string of an absolute path, as [os.getcwd] returns it. *)
Definition to_string (p : path) : string :=
  match p with
  | [] => "/"
  | _ => fold_right (fun c acc => "/" +:+ c +:+ acc) "" p
  end.

(** A proper component: not empty, not a dot entry, no separator. *)
Definition component_ok (c : string) : bool :=
  negb (String.eqb c "") && negb (String.eqb c ".") && negb (String.eqb c "..")
  && negb (PyStr.contains "/" c).

Definition wf (p : path) : Prop := Forall (fun c => component_ok c = true) p.

Definition prefix_ofb (a q : path) : bool := bool_decide (a `prefix_of` q).

End Path.

Inductive node :=
  | File
  | Dir
  | Link (target : string).

(** The nesting limit of symbolic links of the kernel. *)
Definition MAXSYMLINKS : nat := 40.

Module Fs.

(** [stat]: the node a path names, links at the last component followed.
    A path is the list of its components: directories reached through a
    link are outside the model. *)
Fixpoint follow (fuel : nat) (fs : gmap path node) (p : path) : option node :=
  match fs !! p with
  | Some (Link t) =>
      match fuel with
      | O => None
      | S fuel' => follow fuel' fs (Path.resolve (removelast p) t)
      end
  | o => o
  end.

Definition stat (fs : gmap path node) (p : path) : option node :=
  follow MAXSYMLINKS fs p.

(** [os.path.exists]: false for a dangling link. *)
Definition exists_ (fs : gmap path node) (p : path) : bool :=
  match stat fs p with
  | Some _ => true
  | None => false
  end.

(** [os.path.isdir]. *)
Definition isdir (fs : gmap path node) (p : path) : bool :=
  match stat fs p with
  | Some Dir => true
  | _ => false
  end.

(** All the entries at or below [a] re-rooted at [b], the rest kept. *)
Definition rename (a b : path) (fs : gmap path node) : gmap path node :=
  map_fold
    (fun q n acc =>
       if Path.prefix_ofb a q then <[b ++ drop (length a) q := n]> acc
       else <[q := n]> acc)
    ∅ fs.

(** [os.makedirs(_, exist_ok=True)] walks down from the root and creates
    what is missing; [None] when a component exists and is not a
    directory. *)
Fixpoint mkdirs (from : path) (comps : path) (fs : gmap path node)
  : option (gmap path node) :=
  match comps with
  | [] => Some fs
  | c :: cs =>
      let p := from ++ [c] in
      match fs !! p with
      | None => mkdirs p cs (<[p := Dir]> fs)
      | Some _ => if isdir fs p then mkdirs p cs fs else None
      end
  end.

End Fs.

(** ** The world the recipes run in *)

(** A patch reference: a name or path, or a pair of the directory to apply
    it in and the name or path. *)
Inductive patch_ref :=
  | PStr (p : string)
  | PTuple (patch_dir : string) (p : string).

(** The name or path of a patch reference. *)
Definition ref_name (r : patch_ref) : string :=
  match r with
  | PStr s => s
  | PTuple _ s => s
  end.

Inductive level := Debug | Warning.

(** The fields of [Context] the recipes read or write. *)
Record Context := mkContext {
  cc : string;
  cxx : string;
  ar : string;
  nm : string;
  ranlib : string;
  cflags : list string;
  cxxflags : list string;
  ldflags : list string;
  jobs : Z;
  log : list (level * string)
}.

(** A command: a shell string or an argument list. *)
Inductive command :=
  | Shell (s : string)
  | Argv (args : list string).

Record proc := mkProc { returncode : Z; stdout : string }.

(** The calls to the collaborators, each with the directory it was made
    in. *)
Inductive event :=
  | ERun (dir : path) (cmd : command) (allow_error : bool)
  | EDownload (dir : path) (url : string)
  | EApplyPatch (dir : path) (patch : string) (strip_count : Z).

Inductive exn :=
  | OSError
  | ShutilError
  | ValueError
  | ProcessError
  | DownloadError
  | PatchError.

(** [heap] holds the Python list objects that patch lists are; an instance
    refers to its list by position. *)
Record World := mkWorld {
  heap : list (list patch_ref);
  cwd : path;
  fs : gmap path node;
  ctx : Context;
  trace : list event
}.

Definition set_cwd (d : path) (w : World) : World :=
  mkWorld (heap w) d (fs w) (ctx w) (trace w).

Definition set_fs (f : gmap path node) (w : World) : World :=
  mkWorld (heap w) (cwd w) f (ctx w) (trace w).

Definition set_ctx (c : Context) (w : World) : World :=
  mkWorld (heap w) (cwd w) (fs w) c (trace w).

Definition add_event (e : event) (w : World) : World :=
  mkWorld (heap w) (cwd w) (fs w) (ctx w) (trace w ++ [e]).

Definition add_log (l : level) (msg : string) (c : Context) : Context :=
  mkContext (cc c) (cxx c) (ar c) (nm c) (ranlib c)
            (cflags c) (cxxflags c) (ldflags c) (jobs c) (log c ++ [(l, msg)]).

(** What lies outside the two files: where packages live, where the two
    modules are installed, the identifier of [BinUtils("2.38", gold=True)],
    and the effect of the three collaborators on the file system.  A
    collaborator sees the directory it is called in and the file system; it
    cannot move the process to another directory. *)
Record Env := mkEnv {
  packages_dir : string;
  gperftools_config_root : string;
  llvm_config_path : string;
  binutils_ident : string;
  run_prim : path -> command -> gmap path node -> gmap path node * option proc;
  download_prim : path -> string -> gmap path node -> option (gmap path node);
  apply_patch_prim :
    path -> string -> Z -> gmap path node -> option (gmap path node * bool)
}.

(** ** The monad: state and exceptions *)

Inductive outcome (A : Type) :=
  | Ok (a : A) (w : World)
  | Raise (e : exn) (w : World).
Arguments Ok {A} a w.
Arguments Raise {A} e w.

Definition M (A : Type) : Type := World -> outcome A.

Definition final {A} (o : outcome A) : World :=
  match o with
  | Ok _ w => w
  | Raise _ w => w
  end.

Definition is_ok {A} (o : outcome A) : bool :=
  match o with
  | Ok _ _ => true
  | Raise _ _ => false
  end.

#[global] Instance M_ret : MRet M := fun A a w => Ok a w.

#[global] Instance M_bind : MBind M := fun A B f m w =>
  match m w with
  | Ok a w' => f a w'
  | Raise e w' => Raise e w'
  end.

Definition raise {A} (e : exn) : M A := fun w => Raise e w.

(** [for x in l: body(x)]. *)
Fixpoint for_each {A} (l : list A) (body : A -> M unit) : M unit :=
  match l with
  | [] => mret tt
  | x :: xs => body x;; for_each xs body
  end.

(** [if c: body]. *)
Definition when (c : bool) (body : M unit) : M unit :=
  if c then body else mret tt.

(** ** The [os], [os.path] and [shutil] calls of the recipes *)

Module Os.

Definition getcwd : M string := fun w => Ok (Path.to_string (cwd w)) w.

Definition path_exists (s : string) : M bool := fun w =>
  Ok (Fs.exists_ (fs w) (Path.resolve (cwd w) s)) w.

(** The working directory is kept under the name it was entered by.  When
    an entry on the way is a link to a directory that name still leads to
    the directory the process is in, but it is not the path [os.getcwd]
    gives, and [..] taken from it is the parent of the name, not of the
    directory: what is proved of a [chdir("..")] is proved for directories
    entered by their own name. *)
Definition chdir (s : string) : M unit := fun w =>
  let p := Path.resolve (cwd w) s in
  if Fs.isdir (fs w) p then Ok tt (set_cwd p w) else Raise OSError w.

(** [os.makedirs(s, exist_ok=True)]. *)
Definition makedirs (s : string) : M unit := fun w =>
  match Fs.mkdirs [] (Path.resolve (cwd w) s) (fs w) with
  | Some f => Ok tt (set_fs f w)
  | None => Raise OSError w
  end.

Definition remove (s : string) : M unit := fun w =>
  let p := Path.resolve (cwd w) s in
  match fs w !! p with
  | Some File | Some (Link _) => Ok tt (set_fs (delete p (fs w)) w)
  | _ => Raise OSError w
  end.

Definition symlink (src dst : string) : M unit := fun w =>
  let p := Path.resolve (cwd w) dst in
  match fs w !! p with
  | Some _ => Raise OSError w
  | None =>
      if Fs.isdir (fs w) (removelast p)
      then Ok tt (set_fs (<[p := Link src]> (fs w)) w)
      else Raise OSError w
  end.

(** [os.path.join] of two strings. *)
Definition join (a b : string) : string :=
  if Path.is_abs b then b
  else if String.eqb a "" then b
  else if Path.is_abs (String.rev a) then a +:+ b
  else a +:+ "/" +:+ b.

Definition all_slashes (s : string) : bool :=
  forallb (fun c => Ascii.eqb c "/") (list_ascii_of_string s).

Fixpoint rstrip_slashes (s : string) : string :=
  match s with
  | EmptyString => EmptyString
  | String c s' =>
      match rstrip_slashes s' with
      | EmptyString => if Ascii.eqb c "/" then EmptyString else String c EmptyString
      | r => String c r
      end
  end.

(** [os.path.dirname]. *)
Definition dirname (p : string) : string :=
  match removelast (PyStr.split "/" p) with
  | [] => EmptyString
  | l =>
      let head := PyStr.join "/" l +:+ "/" in
      if all_slashes head then head else rstrip_slashes head
  end.

End Os.

Module Shutil.

(** [shutil.move(src, dst)] within one file system: into [dst] when it is a
    directory, onto [dst] otherwise. *)
Definition move (src dst : string) : M unit := fun w =>
  let s := Path.resolve (cwd w) src in
  let d := Path.resolve (cwd w) dst in
  match fs w !! s with
  | None => Raise OSError w
  | Some n =>
      let into := Fs.isdir (fs w) d in
      let real_dst := if into then d ++ [List.last s EmptyString] else d in
      if bool_decide (s = d) then Ok tt w
      else if into && Fs.exists_ (fs w) real_dst then Raise ShutilError w
      else if negb (Fs.isdir (fs w) (removelast real_dst)) then Raise OSError w
      else if Path.prefix_ofb s real_dst then Raise ShutilError w
      else
        match fs w !! real_dst, n with
        | Some _, Dir => Raise OSError w
        | _, _ =>
            Ok tt (set_fs (Fs.rename s real_dst (delete real_dst (fs w))) w)
        end
  end.

End Shutil.

(** ** The collaborators and the base class *)

Definition log_warning (msg : string) : M unit := fun w =>
  Ok tt (set_ctx (add_log Warning msg (ctx w)) w).

Definition log_debug (msg : string) : M unit := fun w =>
  Ok tt (set_ctx (add_log Debug msg (ctx w)) w).

Definition get_jobs : M Z := fun w => Ok (jobs (ctx w)) w.

Definition modify_ctx (f : Context -> Context) : M unit := fun w =>
  Ok tt (set_ctx (f (ctx w)) w).

(** Assignments to the fields of [ctx]. *)
Definition set_programs (cc' cxx' ar' nm' ranlib' : string) : M unit :=
  modify_ctx (fun c =>
    mkContext cc' cxx' ar' nm' ranlib'
              (cflags c) (cxxflags c) (ldflags c) (jobs c) (log c)).

Definition set_cflags (l : list string) : M unit :=
  modify_ctx (fun c =>
    mkContext (cc c) (cxx c) (ar c) (nm c) (ranlib c)
              l (cxxflags c) (ldflags c) (jobs c) (log c)).

Definition set_cxxflags (l : list string) : M unit :=
  modify_ctx (fun c =>
    mkContext (cc c) (cxx c) (ar c) (nm c) (ranlib c)
              (cflags c) l (ldflags c) (jobs c) (log c)).

Definition set_ldflags (l : list string) : M unit :=
  modify_ctx (fun c =>
    mkContext (cc c) (cxx c) (ar c) (nm c) (ranlib c)
              (cflags c) (cxxflags c) l (jobs c) (log c)).

(** [ctx.cflags += l] and the like: the list is extended in place. *)
Definition extend_cflags (l : list string) : M unit :=
  modify_ctx (fun c =>
    mkContext (cc c) (cxx c) (ar c) (nm c) (ranlib c)
              (cflags c ++ l) (cxxflags c) (ldflags c) (jobs c) (log c)).

Definition extend_cxxflags (l : list string) : M unit :=
  modify_ctx (fun c =>
    mkContext (cc c) (cxx c) (ar c) (nm c) (ranlib c)
              (cflags c) (cxxflags c ++ l) (ldflags c) (jobs c) (log c)).

Definition extend_ldflags (l : list string) : M unit :=
  modify_ctx (fun c =>
    mkContext (cc c) (cxx c) (ar c) (nm c) (ranlib c)
              (cflags c) (cxxflags c) (ldflags c ++ l) (jobs c) (log c)).

(** Truth value of an [Optional[str]]. *)
Definition truthy (o : option string) : bool :=
  match o with
  | Some s => negb (String.eqb s "")
  | None => false
  end.

Section Collaborators.

Context (E : Env).

(** Modelled from the spec: [util.run], the process invocation of section 6:
    it executes the command in the current directory and returns the exit
    status and the captured output; a non-zero status (or a program that
    cannot be started, answered with [None]) is fatal unless non-zero exit
    is allowed. *)
Definition run (cmd : command) (allow_error : bool) : M (option proc) :=
  fun w =>
    let '(f, r) := run_prim E (cwd w) cmd (fs w) in
    let w' := add_event (ERun (cwd w) cmd allow_error) (set_fs f w) in
    match r with
    | Some p =>
        if (returncode p =? 0) || allow_error then Ok (Some p) w'
        else Raise ProcessError w'
    | None => if allow_error then Ok None w' else Raise ProcessError w'
    end.

(** Modelled from the spec: [util.download], the download of section 6:
    retrieves the resource into the current directory; failure is fatal. *)
Definition download (url : string) : M unit := fun w =>
  let w' := add_event (EDownload (cwd w) url) w in
  match download_prim E (cwd w) url (fs w) with
  | Some f => Ok tt (set_fs f w')
  | None => Raise DownloadError w'
  end.

(** Modelled from the spec: [util.apply_patch], the patch application of
    section 4.4: applies the patch at the strip level in the current
    directory unless it is already applied, and returns whether it modified
    anything. *)
Definition apply_patch (patch : string) (strip_count : Z) : M bool := fun w =>
  let w' := add_event (EApplyPatch (cwd w) patch strip_count) w in
  match apply_patch_prim E (cwd w) patch strip_count (fs w) with
  | Some (f, modified) => Ok modified (set_fs f w')
  | None => Raise PatchError w'
  end.

(** Modelled from the spec: [Package.path], the PathResolver of section 2:
    the package's directory is named by its identifier, the arguments are
    joined below it. *)
Definition pkg_path (ident : string) (args : list string) : string :=
  fold_left Os.join (ident :: args) (packages_dir E).

(** Modelled from the spec: [Package.goto_rootdir], step 1 of section 4.3:
    position the working directory for this package (create if absent). *)
Definition goto_rootdir (ident : string) : M unit :=
  Os.makedirs (pkg_path ident []);;
  Os.chdir (pkg_path ident []).

End Collaborators.

(** ** gperftools.py *)

Module LibUnwind.

Record t := mk { version : string; patches : list string }.

(** [LibUnwind(version)]: the default patch list is never written to. *)
Definition __init__ (version : string) (patches : option (list string)) : t :=
  mk version (default [] patches).

Definition ident (self : t) : string := "libunwind-" +:+ version self.

Section Methods.

Context (E : Env).

Definition path (self : t) (args : list string) : string :=
  pkg_path E (ident self) args.

Definition is_fetched (self : t) : M bool := Os.path_exists "src".

Definition fetch (self : t) : M unit :=
  let urlbase := "http://download.savannah.gnu.org/releases/libunwind/" in
  let dirname := ident self in
  let tarname := dirname +:+ ".tar.gz" in
  download E (urlbase +:+ tarname);;
  run E (Argv ["tar"; "-xf"; tarname]) false;;
  Shutil.move dirname "src";;
  Os.remove tarname.

Definition is_built (self : t) : M bool :=
  Os.path_exists "obj/src/.libs/libunwind.so".

Definition resolve_patch (p : string) : string :=
  if negb (PyStr.contains "/" p)
  then gperftools_config_root E +:+ "/" +:+ p +:+ ".patch"
  else p.

Definition _apply_patches (self : t) : M unit :=
  Os.chdir (path self ["src"]);;
  for_each (patches self) (fun p =>
    let p := resolve_patch p in
    modified ← apply_patch E p 1;
    when modified
      (log_warning ("applied patch " +:+ p +:+ " to libunwind directory")));;
  Os.chdir (path self []).

Definition compile (self : t) : M unit :=
  Os.makedirs "obj";;
  Os.chdir "obj";;
  have_makefile ← Os.path_exists "Makefile";
  when (negb have_makefile)
    (run E (Argv ["../src/configure"; "--prefix=" +:+ path self ["install"]])
         false;; mret tt);;
  jobs ← get_jobs;
  run E (Shell ("make -j" +:+ pretty jobs)) false;;
  mret tt.

Definition build (self : t) : M unit :=
  _apply_patches self;;
  compile self.

Definition is_installed (self : t) : M bool :=
  Os.path_exists "install/lib/libunwind.so".

Definition install (self : t) : M unit :=
  Os.chdir "obj";;
  run E (Shell "make install") false;;
  mret tt.

Definition configure (self : t) : M unit :=
  extend_ldflags ["-L" +:+ path self ["install/lib"]; "-lunwind"].

End Methods.

End LibUnwind.

Module Gperftools.

Record t := mk {
  commit : string;
  libunwind : LibUnwind.t;
  patches : list string
}.

(** [Gperftools(commit, libunwind_version="1.4-rc1", patches=[])]. *)
Definition __init__ (commit : string) (libunwind_version : option string)
    (patches : option (list string)) : t :=
  mk commit
     (LibUnwind.__init__ (default "1.4-rc1" libunwind_version) None)
     (default [] patches).

Definition ident (self : t) : string := "gperftools-" +:+ commit self.

Section Methods.

Context (E : Env).

Definition path (self : t) (args : list string) : string :=
  pkg_path E (ident self) args.

Definition is_fetched (self : t) : M bool := Os.path_exists "src".

Definition fetch (self : t) : M unit :=
  run E (Shell "git clone https://github.com/gperftools/gperftools.git src")
      false;;
  Os.chdir "src";;
  run E (Argv ["git"; "checkout"; commit self]) false;;
  mret tt.

Definition is_built (self : t) : M bool :=
  Os.path_exists "obj/.libs/libtcmalloc.so".

Definition resolve_patch (p : string) : string :=
  if negb (PyStr.contains "/" p)
  then gperftools_config_root E +:+ "/" +:+ p +:+ ".patch"
  else p.

Definition _apply_patches (self : t) : M unit :=
  Os.chdir (path self ["src"]);;
  for_each (patches self) (fun p =>
    let p := resolve_patch p in
    modified ← apply_patch E p 1;
    when modified
      (log_warning ("applied patch " +:+ p +:+ " to gperftools directory")));;
  Os.chdir (path self []).

(** The statements of [build] after [self._apply_patches(ctx)]. *)
Definition compile (self : t) : M unit :=
  have_configure ← Os.path_exists "src/configure";
  have_install ← Os.path_exists "src/INSTALL";
  when (negb have_configure || negb have_install)
    (Os.chdir "src";;
     run E (Shell "autoreconf -vfi") false;;
     goto_rootdir E (ident self));;
  Os.makedirs "obj";;
  Os.chdir "obj";;
  have_makefile ← Os.path_exists "Makefile";
  when (negb have_makefile)
    (let prefix := path self ["install"] in
     run E (Argv ["../src/configure";
                  "CPPFLAGS=-I" +:+
                    LibUnwind.path E (libunwind self) ["install/include"];
                  "LDFLAGS=-L" +:+
                    LibUnwind.path E (libunwind self) ["install/lib"];
                  "--prefix=" +:+ prefix]) false;;
     mret tt);;
  jobs ← get_jobs;
  run E (Shell ("make -j" +:+ pretty jobs)) false;;
  mret tt.

Definition build (self : t) : M unit :=
  _apply_patches self;;
  compile self.

Definition is_installed (self : t) : M bool :=
  Os.path_exists "install/lib/libtcmalloc.so".

Definition install (self : t) : M unit :=
  Os.chdir "obj";;
  run E (Shell "make install") false;;
  mret tt.

Definition configure (self : t) : M unit :=
  LibUnwind.configure E (libunwind self);;
  let flags :=
    map (fun fn => "-fno-builtin-" +:+ fn)
        ["malloc"; "calloc"; "realloc"; "free"]
    ++ ["-I"; path self ["install/include/gperftools"]] in
  extend_cflags flags;;
  extend_cxxflags flags;;
  extend_ldflags
    ["-L" +:+ path self ["install/lib"]; "-ltcmalloc"; "-lpthread"].

End Methods.

End Gperftools.

(** ** llvm/__init__.py *)

Module LLVM.

(** [patches] is the position in the heap of the list object the instance
    refers to. *)
Record t := mk {
  version : string;
  compiler_rt : bool;
  lld : bool;
  patches : nat;
  build_flags : list string;
  commit : option string
}.

(** The list object that the default value [[]] of the parameter [patches]
    denotes: it is made once, when the [def] statement runs. *)
Definition default_patches : nat := 0%nat.

(** The heap once the module is loaded. *)
Definition initial_heap : list (list patch_ref) := [[]].

(** A caller's [l = [...]]. *)
Definition new_list (l : list patch_ref) : M nat := fun w =>
  Ok (length (heap w))
     (mkWorld (heap w ++ [l]) (cwd w) (fs w) (ctx w) (trace w)).

(** The value of a list object. *)
Definition read_list (r : nat) : M (list patch_ref) := fun w =>
  Ok (default [] (heap w !! r)) w.

(** [r.append(x)]: the object is changed in place. *)
Definition list_append (r : nat) (x : patch_ref) : M unit := fun w =>
  Ok tt (mkWorld (alter (fun l => l ++ [x]) r (heap w))
                 (cwd w) (fs w) (ctx w) (trace w)).

(** [LLVM(version, compiler_rt, commit=None, lld=False, patches=[],
    build_flags=[])]; [None] for [patches] is the argument left out. *)
Definition __init__ (version : string) (compiler_rt : bool)
    (commit : option string) (lld : bool) (patches : option nat)
    (build_flags : list string) : M t :=
  let patches := default default_patches patches in
  let self := mk version compiler_rt lld patches build_flags commit in
  when (compiler_rt && String.eqb version "4.0.0")
    (list_append patches (PStr "compiler-rt-typefix"));;
  mret self.

Definition ident (self : t) : string :=
  let suffix := if lld self then "-lld" else "" in
  "llvm-" +:+ version self +:+ suffix.

Section Methods.

Context (E : Env).

Definition path (self : t) (args : list string) : string :=
  pkg_path E (ident self) args.

(** [int(self.version.split(".")[0])]. *)
Definition major_version (self : t) : M Z :=
  match PyStr.int (PyStr.first_field "." (version self)) with
  | Some n => mret n
  | None => raise ValueError
  end.

(** The inner function [get] of [fetch]. *)
Definition get (self : t) (repo clonedir : string) : M unit :=
  let basedir := Os.dirname clonedir in
  when (negb (String.eqb basedir "")) (Os.makedirs basedir);;
  let dirname := repo +:+ "-" +:+ version self +:+ ".src" in
  let tarname := dirname +:+ ".tar.xz" in
  major ← major_version self;
  (if 8 <=? major then
     let url_prefix :=
       "https://github.com/llvm/llvm-project/releases/download" in
     download E (url_prefix +:+ "/llvmorg-" +:+ version self +:+ "/" +:+ tarname)
   else
     download E ("https://releases.llvm.org/" +:+ version self +:+ "/" +:+ tarname));;
  run E (Argv ["tar"; "-xf"; tarname]) false;;
  Shutil.move dirname clonedir;;
  Os.remove tarname.

Definition fetch (self : t) : M unit :=
  match commit self with
  | Some c =>
      run E (Argv ["git"; "clone";
                   "https://github.com/llvm/llvm-project.git"; "src"]) false;;
      Os.chdir "src";;
      run E (Argv ["git"; "checkout"; c]) false;;
      mret tt
  | None =>
      major ← major_version self;
      if 9 <=? major then get self "llvm-project" "src"
      else
        get self "llvm" "src";;
        (if 8 <=? major then get self "clang" "src/tools/clang"
         else get self "cfe" "src/tools/clang");;
        when (compiler_rt self) (get self "compiler-rt" "src/projects/compiler-rt");;
        when (lld self) (get self "lld" "src/projects/lld")
  end.

Definition resolve_patch (self : t) (p : string) : string :=
  if negb (PyStr.contains "/" p)
  then llvm_config_path E +:+ "/" +:+ p +:+ "-" +:+ version self +:+ ".patch"
  else p.

(** The body of the loop over [self.patches] in [build]. *)
Definition apply_one (self : t) (p : patch_ref) : M unit :=
  original_dir ←
    match p with
    | PTuple patch_dir _ =>
        d ← Os.getcwd;
        Os.chdir patch_dir;;
        mret (Some d)
    | PStr _ => mret None
    end;
  let p := match p with PTuple _ p => p | PStr p => p end in
  apply_patch E (resolve_patch self p) 1;;
  match original_dir with
  | Some d => when (truthy original_dir) (Os.chdir d)
  | None => mret tt
  end.

(** [build] from [os.chdir("src")] to [os.chdir("..")]. *)
Definition apply_patches (self : t) : M unit :=
  Os.chdir "src";;
  ps ← read_list (patches self);
  for_each ps (apply_one self);;
  Os.chdir "..".

(** [build] from [os.makedirs("obj", exist_ok=True)] on. *)
Definition compile (self : t) (major : Z) : M unit :=
  Os.makedirs "obj";;
  Os.chdir "obj";;
  (if truthy (commit self) || (9 <=? major) then
     let projects := ["clang"] ++ (if lld self then ["lld"] else []) in
     let runtimes := if compiler_rt self then ["compiler-rt"] else [] in
     run E (Argv (["cmake"; "-G"; "Ninja";
                   "-DCMAKE_INSTALL_PREFIX=" +:+ path self ["install"];
                   "-DLLVM_BINUTILS_INCDIR=" +:+
                     pkg_path E (binutils_ident E) ["install/include"];
                   "-DLLVM_ENABLE_PROJECTS=" +:+ PyStr.join "," projects;
                   "-DLLVM_ENABLE_RUNTIMES=" +:+ PyStr.join "," runtimes;
                   "-DCMAKE_BUILD_TYPE=Release";
                   "-DLLVM_ENABLE_ASSERTIONS=On";
                   "-DLLVM_OPTIMIZED_TABLEGEN=On";
                   "-DCMAKE_C_COMPILER=gcc";
                   "-DCMAKE_CXX_COMPILER=g++"]
                  ++ build_flags self ++ ["../src/llvm"])) false
   else
     run E (Argv (["cmake"; "-G"; "Ninja";
                   "-DCMAKE_INSTALL_PREFIX=" +:+ path self ["install"];
                   "-DLLVM_BINUTILS_INCDIR=" +:+
                     pkg_path E (binutils_ident E) ["install/include"];
                   "-DCMAKE_BUILD_TYPE=Release";
                   "-DLLVM_ENABLE_ASSERTIONS=On";
                   "-DLLVM_OPTIMIZED_TABLEGEN=On";
                   "-DCMAKE_C_COMPILER=gcc";
                   "-DCMAKE_CXX_COMPILER=g++"]
                  ++ build_flags self ++ ["../src"])) false);;
  jobs ← get_jobs;
  run E (Shell ("cmake --build . -- -j " +:+ pretty jobs)) false;;
  mret tt.

Definition build (self : t) : M unit :=
  major ← major_version self;
  apply_patches self;;
  compile self major.

Definition install (self : t) : M unit :=
  Os.chdir "obj";;
  run E (Shell "cmake --build . --target install") false;;
  mret tt.

Definition is_fetched (self : t) : M bool := Os.path_exists "src".

Definition is_built (self : t) : M bool := Os.path_exists "obj/bin/llvm-config".

(** The answer of the probe for a preinstalled LLVM, [None] when the
    function goes on to its last statement. *)
Definition preinstalled (self : t) : M (option bool) :=
  proc ← run E (Shell "llvm-config --version") true;
  match proc with
  | Some p =>
      if returncode p =? 0 then
        let installed_version := PyStr.strip (stdout p) in
        if String.eqb installed_version (version self) then mret (Some true)
        else
          log_debug ("installed llvm-config version " +:+ installed_version
                     +:+ " is different from required " +:+ version self);;
          mret None
      else mret None
  | None => mret None
  end.

Definition is_installed (self : t) : M bool :=
  ps ← read_list (patches self);
  early ← (if bool_decide (ps = []) then preinstalled self else mret None);
  match early with
  | Some b => mret b
  | None => Os.path_exists "install/bin/llvm-config"
  end.

Definition configure (self : t) : M unit :=
  set_programs "clang" "clang++" "llvm-ar" "llvm-nm" "llvm-ranlib";;
  set_cflags [];;
  set_cxxflags [];;
  set_ldflags [].

(** [add_plugin_flags(ctx, *flags, gold_passes=True)], the flags given as
    strings. *)
Definition add_plugin_flags (flags : list string) (gold_passes : bool)
  : M unit :=
  for_each flags (fun flag =>
    if gold_passes then extend_ldflags ["-Wl,-plugin-opt=" +:+ flag]
    else extend_ldflags ["-Wl,-mllvm=" +:+ flag]).

End Methods.

End LLVM.

Module LLVMBinDist.

Record t := mk { version : string; target : string; bin_suffix : string }.

Definition ident (self : t) : string := "llvmbin-" +:+ version self.

Section Methods.

Context (E : Env).

Definition is_fetched (self : t) : M bool := Os.path_exists "src".

Definition fetch (self : t) : M unit :=
  let ident := "clang+llvm-" +:+ version self +:+ "-" +:+ target self in
  let tarname := ident +:+ ".tar.xz" in
  download E ("http://releases.llvm.org/" +:+ version self +:+ "/" +:+ tarname);;
  run E (Argv ["tar"; "-xf"; tarname]) false;;
  Shutil.move ident "src";;
  Os.remove tarname.

Definition is_built (self : t) : M bool := mret true.

Definition build (self : t) : M unit := mret tt.

Definition is_installed (self : t) : M bool := Os.path_exists "install".

Definition install (self : t) : M unit :=
  Shutil.move "src" "install";;
  Os.chdir "install/bin";;
  when (negb (String.eqb (bin_suffix self) ""))
    (for_each ["clang"; "clang++"; "opt"; "llvm-config"] (fun src =>
       let tgt := src +:+ bin_suffix self in
       have_src ← Os.path_exists src;
       have_tgt ← Os.path_exists tgt;
       when (have_src && negb have_tgt)
         (log_debug ("creating symlink " +:+ tgt +:+ " -> " +:+ src);;
          Os.symlink src tgt))).

End Methods.

End LLVMBinDist.

(** ** The packages of the two files behind one interface *)

Inductive Package :=
  | PLibUnwind (p : LibUnwind.t)
  | PGperftools (p : Gperftools.t)
  | PLLVM (p : LLVM.t)
  | PLLVMBinDist (p : LLVMBinDist.t).

Module Pkg.

Definition ident (pkg : Package) : string :=
  match pkg with
  | PLibUnwind p => LibUnwind.ident p
  | PGperftools p => Gperftools.ident p
  | PLLVM p => LLVM.ident p
  | PLLVMBinDist p => LLVMBinDist.ident p
  end.

Section Methods.

Context (E : Env).

Definition is_fetched (pkg : Package) : M bool :=
  match pkg with
  | PLibUnwind p => LibUnwind.is_fetched p
  | PGperftools p => Gperftools.is_fetched p
  | PLLVM p => LLVM.is_fetched p
  | PLLVMBinDist p => LLVMBinDist.is_fetched p
  end.

Definition fetch (pkg : Package) : M unit :=
  match pkg with
  | PLibUnwind p => LibUnwind.fetch E p
  | PGperftools p => Gperftools.fetch E p
  | PLLVM p => LLVM.fetch E p
  | PLLVMBinDist p => LLVMBinDist.fetch E p
  end.

Definition is_built (pkg : Package) : M bool :=
  match pkg with
  | PLibUnwind p => LibUnwind.is_built p
  | PGperftools p => Gperftools.is_built p
  | PLLVM p => LLVM.is_built p
  | PLLVMBinDist p => LLVMBinDist.is_built p
  end.

Definition build (pkg : Package) : M unit :=
  match pkg with
  | PLibUnwind p => LibUnwind.build E p
  | PGperftools p => Gperftools.build E p
  | PLLVM p => LLVM.build E p
  | PLLVMBinDist p => LLVMBinDist.build p
  end.

Definition is_installed (pkg : Package) : M bool :=
  match pkg with
  | PLibUnwind p => LibUnwind.is_installed p
  | PGperftools p => Gperftools.is_installed p
  | PLLVM p => LLVM.is_installed E p
  | PLLVMBinDist p => LLVMBinDist.is_installed p
  end.

Definition install (pkg : Package) : M unit :=
  match pkg with
  | PLibUnwind p => LibUnwind.install E p
  | PGperftools p => Gperftools.install E p
  | PLLVM p => LLVM.install E p
  | PLLVMBinDist p => LLVMBinDist.install p
  end.

(** The patch files the package declares, as [build] hands them to
    [apply_patch]; [LLVMBinDist] has no patch list. *)
Definition declared_patches (pkg : Package) (w : World) : list string :=
  match pkg with
  | PLibUnwind p => map (LibUnwind.resolve_patch E) (LibUnwind.patches p)
  | PGperftools p => map (Gperftools.resolve_patch E) (Gperftools.patches p)
  | PLLVM p =>
      map (fun r => LLVM.resolve_patch E p (ref_name r))
          (default [] (heap w !! LLVM.patches p))
  | PLLVMBinDist _ => []
  end.

End Methods.

End Pkg.

(** ** A run of the stages of one package *)

Inductive stage := Fetch | Build | Install.

Module Executor.

Section Run.

Context (E : Env).

(** Modelled from the spec: one of the steps 2 to 4 of the LifecycleExecutor
    (section 4.3), which is not in the two files: position the working
    directory, invoke the stage if its probe is false or the force flag is
    set (the probe is skipped then), re-check the probe and treat a false
    result as fatal.  The result is the list of the stages invoked. *)
Definition run_stage (pkg : Package) (s : stage) (force : bool)
    (probe : M bool) (action : M unit) : M (list stage) :=
  goto_rootdir E (Pkg.ident pkg);;
  satisfied ← (if force then mret false else probe);
  if satisfied : bool then mret []
  else
    action;;
    goto_rootdir E (Pkg.ident pkg);;
    ok ← probe;
    if ok : bool then mret [s] else raise OSError.

(** Modelled from the spec: the steps 1 to 4 of section 4.3 for one
    package. *)
Definition pipeline (pkg : Package) (force_fetch force_build force_install : bool)
  : M (list stage) :=
  f ← run_stage pkg Fetch force_fetch (Pkg.is_fetched pkg) (Pkg.fetch E pkg);
  b ← run_stage pkg Build force_build (Pkg.is_built pkg) (Pkg.build E pkg);
  i ← run_stage pkg Install force_install
        (Pkg.is_installed E pkg) (Pkg.install E pkg);
  mret (f ++ b ++ i).

End Run.

End Executor.

(** ** A small environment to run the recipes in *)

Module Example.

Definition basename (s : string) : string :=
  List.last (PyStr.split "/" s) EmptyString.

(** The name of an archive without its [.tar.gz] or [.tar.xz]. *)
Definition unpacked (tarname : string) : string :=
  substring 0 (String.length tarname - 7) tarname.

(** What a shell command leaves behind: [make install] and the two
    [cmake --build] commands leave the files the probes look for, [git
    clone] the source directory. *)
Definition shell_effect (d : path) (s : string) (f : gmap path node)
  : gmap path node :=
  if String.eqb s "make install" then
    <[removelast d ++ ["install"; "lib"; "libunwind.so"] := File]>
      (<[removelast d ++ ["install"; "lib"; "libtcmalloc.so"] := File]> f)
  else if String.eqb s "cmake --build . --target install" then
    <[removelast d ++ ["install"; "bin"; "llvm-config"] := File]> f
  else if String.eqb s "cmake --build . -- -j 8" then
    <[d ++ ["bin"; "llvm-config"] := File]> f
  else if String.eqb s "make -j8" then
    <[d ++ ["src"; ".libs"; "libunwind.so"] := File]>
      (<[d ++ [".libs"; "libtcmalloc.so"] := File]> f)
  else if String.eqb s "git clone https://github.com/gperftools/gperftools.git src"
  then <[d ++ ["src"] := Dir]> f
  else f.

(** [tar -xf] unpacks a tree with [bin/clang] in it. *)
Definition argv_effect (d : path) (args : list string) (f : gmap path node)
  : gmap path node :=
  match args with
  | [a; b; tarname] =>
      if String.eqb a "tar" && String.eqb b "-xf" then
        let dir := d ++ [unpacked tarname] in
        <[dir ++ ["bin"; "clang"] := File]>
          (<[dir ++ ["bin"] := Dir]> (<[dir := Dir]> f))
      else f
  | _ => f
  end.

(** Every command succeeds; [llvm-config] reports version 4.0.0. *)
Definition run_prim (d : path) (cmd : command) (f : gmap path node)
  : gmap path node * option proc :=
  match cmd with
  | Shell s =>
      (shell_effect d s f,
       Some (mkProc 0 (if String.eqb s "llvm-config --version"
                       then "4.0.0" +:+ String "010" EmptyString
                       else EmptyString)))
  | Argv args => (argv_effect d args f, Some (mkProc 0 EmptyString))
  end.

Definition download_prim (d : path) (url : string) (f : gmap path node)
  : option (gmap path node) :=
  Some (<[d ++ [basename url] := File]> f).

(** A patch leaves a stamp file behind; it changes nothing when the stamp
    is there. *)
Definition apply_patch_prim (d : path) (p : string) (n : Z)
    (f : gmap path node) : option (gmap path node * bool) :=
  let stamp := d ++ [".patched-" +:+ basename p] in
  match f !! stamp with
  | Some _ => Some (f, false)
  | None => Some (<[stamp := File]> f, true)
  end.

(** The same patch program, except that it always answers that it changed
    something. *)
Definition eager_patch_prim (d : path) (p : string) (n : Z)
    (f : gmap path node) : option (gmap path node * bool) :=
  match apply_patch_prim d p n f with
  | Some (f', _) => Some (f', true)
  | None => None
  end.

Definition env : Env :=
  mkEnv "/build/packages" "/infra/packages" "/infra/packages/llvm"
        "binutils-2.38-gold" run_prim download_prim apply_patch_prim.

Definition eager_env : Env :=
  mkEnv "/build/packages" "/infra/packages" "/infra/packages/llvm"
        "binutils-2.38-gold" run_prim download_prim eager_patch_prim.

Definition ctx0 : Context :=
  mkContext "cc" "c++" "ar" "nm" "ranlib" ["-O2"] ["-O2"] ["-lm"] 8 [].

Definition fs0 : gmap path node := {[ [] := Dir; ["build"] := Dir ]}.

(** The world after the modules are loaded. *)
Definition w0 : World := mkWorld LLVM.initial_heap [] fs0 ctx0 [].

Definition libunwind : LibUnwind.t := LibUnwind.__init__ "1.4-rc1" (Some ["fix-a"; "/tmp/b.patch"]).

Definition gperftools : Gperftools.t :=
  Gperftools.__init__ "gperftools-2.7" None (Some ["aligned-new"]).

Definition llvm_bin : LLVMBinDist.t :=
  LLVMBinDist.mk "4.0.0" "x86_64-linux-gnu-ubuntu-16.10" "-4.0".

(** The world when [pkg] has been fetched and the process is in the
    directory of the package. *)
Definition fetched (pkg : Package) (w : World) : World :=
  final ((goto_rootdir env (Pkg.ident pkg);;
          Pkg.fetch env pkg;;
          goto_rootdir env (Pkg.ident pkg)) w).

(** The world when [pkg] has been built, the process back in the directory
    of the package. *)
Definition built (pkg : Package) (w : World) : World :=
  final ((Pkg.build env pkg;; goto_rootdir env (Pkg.ident pkg)) w).

(** An [LLVM] with a patch for a subdirectory and a built-in patch, and the
    world once it is constructed. *)
Definition llvm_patches : list patch_ref :=
  [PTuple "tools/clang" "patches/uniqueptr-fix.patch"; PStr "gold-plugins"].

Definition llvm_made : outcome LLVM.t :=
  (r ← LLVM.new_list llvm_patches;
   LLVM.__init__ "4.0.0" false None false (Some r) []) w0.

Definition llvm : LLVM.t := LLVM.mk "4.0.0" false false 1%nat [] None.

Definition w1 : World := final llvm_made.

(** That [LLVM] fetched, and then built. *)
Definition llvm_fetched : World := fetched (PLLVM llvm) w1.

Definition llvm_built : World := final (LLVM.build env llvm llvm_fetched).

(** A first run of the stages of [libunwind], with no force flag. *)
Definition libunwind_run : outcome (list stage) :=
  Executor.pipeline env (PLibUnwind libunwind) false false false w0.

End Example.

(** * Properties *)

(** ** The monad *)

Lemma bind_eq {A B} (m : M A) (f : A -> M B) (w : World) :
  (m ≫= f) w =
  match m w with
  | Ok a w' => f a w'
  | Raise e w' => Raise e w'
  end.
Proof. reflexivity. Qed.

Lemma bind_ok_inv {A B} (m : M A) (f : A -> M B) w b w' :
  (m ≫= f) w = Ok b w' ->
  exists a w1, m w = Ok a w1 /\ f a w1 = Ok b w'.
Proof.
  rewrite bind_eq. destruct (m w) as [a w1|e w1]; [|discriminate].
  intros H. exists a, w1. split; [reflexivity|exact H].
Qed.

(** The result of a computation that returned. *)
Definition returned {A} (o : outcome A) : option A :=
  match o with
  | Ok a _ => Some a
  | Raise _ _ => None
  end.

Lemma returned_ok {A} (o : outcome A) (a : A) :
  returned o = Some a -> o = Ok a (final o).
Proof. destruct o; cbn; congruence. Qed.

(** Settles [o = Ok a (final o)] by running [o]. *)
Ltac by_result :=
  lazymatch goal with
  | |- ?o = Ok ?a (final ?o) =>
      apply (returned_ok o a); vm_compute; reflexivity
  end.

(** ** Configure steps and the flag lists (claim C1) *)

(** A computation that only appends to the three flag lists. *)
Definition appends_only (m : M unit) : Prop :=
  forall w, exists w' a b c,
    m w = Ok tt w' /\
    cflags (ctx w') = cflags (ctx w) ++ a /\
    cxxflags (ctx w') = cxxflags (ctx w) ++ b /\
    ldflags (ctx w') = ldflags (ctx w) ++ c.

Lemma appends_only_bind (m1 m2 : M unit) :
  appends_only m1 -> appends_only m2 -> appends_only (m1;; m2).
Proof.
  intros H1 H2 w.
  destruct (H1 w) as (w1 & a1 & b1 & c1 & E1 & Ha1 & Hb1 & Hc1).
  destruct (H2 w1) as (w2 & a2 & b2 & c2 & E2 & Ha2 & Hb2 & Hc2).
  exists w2, (a1 ++ a2), (b1 ++ b2), (c1 ++ c2).
  rewrite bind_eq, E1, E2, Ha2, Hb2, Hc2, Ha1, Hb1, Hc1, !app_assoc.
  auto.
Qed.

Lemma appends_only_ret : appends_only (mret tt).
Proof.
  intros w. exists w, [], [], []. rewrite !app_nil_r. auto.
Qed.

Lemma appends_only_cflags l : appends_only (extend_cflags l).
Proof.
  intros w. eexists _, l, [], []. cbn. rewrite !app_nil_r. auto.
Qed.

Lemma appends_only_cxxflags l : appends_only (extend_cxxflags l).
Proof.
  intros w. eexists _, [], l, []. cbn. rewrite !app_nil_r. auto.
Qed.

Lemma appends_only_ldflags l : appends_only (extend_ldflags l).
Proof.
  intros w. eexists _, [], [], l. cbn. rewrite !app_nil_r. auto.
Qed.

Lemma appends_only_for_each {A} (l : list A) (body : A -> M unit) :
  (forall x, appends_only (body x)) -> appends_only (for_each l body).
Proof.
  intros Hb. induction l as [|x xs IH]; cbn [for_each].
  - apply appends_only_ret.
  - apply appends_only_bind; auto.
Qed.

(** C1, as the spec states it, fails: [LLVM.configure] empties the three
    flag lists, so a flag that was there is gone after the call. *)
Lemma LLVM_configure_drops_flags :
  ~ appends_only (LLVM.configure (LLVM.mk "4.0.0" true false 0%nat [] None)).
Proof.
  intros H. destruct (H Example.w0) as (w' & a & b & c & E & Ha & _).
  change (LLVM.configure _ Example.w0)
    with (Ok tt (set_ctx
                   (mkContext "clang" "clang++" "llvm-ar" "llvm-nm"
                              "llvm-ranlib" [] [] [] 8 []) Example.w0)) in E.
  injection E as <-.
  change ([] = ["-O2"] ++ a) in Ha. discriminate Ha.
Qed.

(** C1, amended: the configure steps of [LibUnwind] and [Gperftools] and the
    helper [LLVM.add_plugin_flags] only append to the flag lists, every flag
    stays, in its place; [LLVM.configure] sets the five program names and
    assigns the empty list to [cflags], [cxxflags] and [ldflags]. *)
Theorem configure_flags (E : Env) :
  (forall self, appends_only (LibUnwind.configure E self)) /\
  (forall self, appends_only (Gperftools.configure E self)) /\
  (forall flags gold, appends_only (LLVM.add_plugin_flags flags gold)) /\
  (forall self w, exists w',
      LLVM.configure self w = Ok tt w' /\
      cc (ctx w') = "clang" /\ cxx (ctx w') = "clang++" /\
      ar (ctx w') = "llvm-ar" /\ nm (ctx w') = "llvm-nm" /\
      ranlib (ctx w') = "llvm-ranlib" /\
      cflags (ctx w') = [] /\ cxxflags (ctx w') = [] /\
      ldflags (ctx w') = []).
Proof.
  repeat split.
  - intros self. apply appends_only_ldflags.
  - intros self. unfold Gperftools.configure.
    repeat apply appends_only_bind;
      auto using appends_only_ldflags, appends_only_cflags,
                 appends_only_cxxflags.
    apply appends_only_ldflags.
  - intros flags gold. apply appends_only_for_each.
    intros x. destruct gold; apply appends_only_ldflags.
  - intros self w. eexists. split; [reflexivity|]. cbn. repeat split.
Qed.

(** ** Identifiers (claim C3) *)

Lemma list_ascii_of_string_app (a b : string) :
  list_ascii_of_string (a +:+ b)
  = list_ascii_of_string a ++ list_ascii_of_string b.
Proof. induction a as [|c a IH]; simpl; [reflexivity|now f_equal]. Qed.

Lemma append_inv_tail (a b s : string) : a +:+ s = b +:+ s -> a = b.
Proof.
  intros H. apply (f_equal list_ascii_of_string) in H.
  rewrite !list_ascii_of_string_app in H. apply app_inv_tail in H.
  rewrite <- (string_of_list_ascii_of_string a),
          <- (string_of_list_ascii_of_string b).
  now rewrite H.
Qed.

Lemma append_inv_head (s a b : string) : s +:+ a = s +:+ b -> a = b.
Proof. induction s as [|c s IH]; cbn; [auto|]. intros [= H]. auto. Qed.

(** What the identifier of a package is made of: the prefix of its class,
    and the version (the commit for [Gperftools]) with, for [LLVM], the
    suffix of the [lld] flag. *)
Definition ident_key (pkg : Package) : string * string :=
  match pkg with
  | PLibUnwind p => ("libunwind-", LibUnwind.version p)
  | PGperftools p => ("gperftools-", Gperftools.commit p)
  | PLLVM p =>
      ("llvm-", LLVM.version p +:+ (if LLVM.lld p then "-lld" else ""))
  | PLLVMBinDist p => ("llvmbin-", LLVMBinDist.version p)
  end.

(** C3, as the spec states it, fails: two [LLVM] instances that differ in
    [compiler_rt], [commit], [patches] and [build_flags], and two
    [Gperftools] instances that differ in the version of libunwind, have
    the same identifier. *)
Lemma ident_collision :
  let a := LLVM.mk "4.0.0" true false 0%nat [] None in
  let b := LLVM.mk "4.0.0" false false 1%nat ["-DLLVM_ENABLE_RTTI=On"]
                   (Some "release_40") in
  let c := Gperftools.__init__ "gperftools-2.7" (Some "1.2") None in
  let d := Gperftools.__init__ "gperftools-2.7" (Some "1.4-rc1") None in
  (LLVM.compiler_rt a <> LLVM.compiler_rt b /\
   LLVM.commit a <> LLVM.commit b /\
   LLVM.patches a <> LLVM.patches b /\
   LLVM.build_flags a <> LLVM.build_flags b /\
   Pkg.ident (PLLVM a) = Pkg.ident (PLLVM b)) /\
  (Gperftools.libunwind c <> Gperftools.libunwind d /\
   Pkg.ident (PGperftools c) = Pkg.ident (PGperftools d)).
Proof. cbn. repeat split; discriminate. Qed.

(** C3, amended: the identifier is made of the class prefix and of the
    version (the commit for [Gperftools]; for [LLVM] the version followed by
    [-lld] when [lld] is set) and of nothing else: two packages of the two
    files have the same identifier exactly when they agree on these.  So
    packages of different classes never collide, and within a class the
    identifier tells versions (commits) apart but not [compiler_rt],
    [commit], [patches], [build_flags], the libunwind version, [target] or
    [bin_suffix]. *)
Theorem ident_determined (a b : Package) :
  Pkg.ident a = Pkg.ident b <-> ident_key a = ident_key b.
Proof.
  split.
  - destruct a as [a|a|a|a], b as [b|b|b|b]; cbn;
      unfold LibUnwind.ident, Gperftools.ident, LLVM.ident, LLVMBinDist.ident;
      cbn; intros H; try discriminate H;
      injection H as H; try discriminate H;
      repeat (injection H as H; try discriminate H);
      apply (append_inv_head "") in H; now rewrite H.
  - destruct a as [a|a|a|a], b as [b|b|b|b]; cbn;
      unfold LibUnwind.ident, Gperftools.ident, LLVM.ident, LLVMBinDist.ident;
      intros [= H]; now rewrite ?H.
Qed.

(** Within [LLVM], with the same [lld] flag, the identifier tells exactly
    the versions apart. *)
Lemma LLVM_ident_version (a b : LLVM.t) :
  LLVM.lld a = LLVM.lld b ->
  (LLVM.ident a = LLVM.ident b <-> LLVM.version a = LLVM.version b).
Proof.
  intros Hl. unfold LLVM.ident. rewrite Hl. split.
  - intros H. apply append_inv_head in H. now apply append_inv_tail in H.
  - now intros ->.
Qed.

(** ** The default patch list of [LLVM] (claim C10) *)

Lemma lookup_alter_same {A} (f : A -> A) (r : nat) (h : list A) :
  alter f r h !! r = f <$> h !! r.
Proof. rewrite list_lookup_alter. now rewrite decide_True. Qed.

Lemma init_typefix (commit : option string) (lld : bool) (r : option nat)
    (build_flags : list string) (w : World) :
  LLVM.__init__ "4.0.0" true commit lld r build_flags w
  = Ok (LLVM.mk "4.0.0" true lld (default LLVM.default_patches r)
                build_flags commit)
       (mkWorld (alter (fun l => l ++ [PStr "compiler-rt-typefix"])
                       (default LLVM.default_patches r) (heap w))
                (cwd w) (fs w) (ctx w) (trace w)).
Proof. reflexivity. Qed.

(** C10: [LLVM("4.0.0", True)] appends to the list object that is the
    default of [patches].  Two such constructions give two instances that
    refer to that one object, which then holds the patch name twice; and a
    list the caller passes is the object that is appended to, so the caller
    sees the new element in its own list. *)
Theorem default_patches_shared (w : World) :
  heap w !! LLVM.default_patches = Some [] ->
  (exists a b w2,
      (a ← LLVM.__init__ "4.0.0" true None false None [];
       b ← LLVM.__init__ "4.0.0" true None false None [];
       mret (a, b)) w = Ok (a, b) w2 /\
      LLVM.patches a = LLVM.default_patches /\
      LLVM.patches b = LLVM.default_patches /\
      LLVM.read_list (LLVM.patches a) w2
      = Ok [PStr "compiler-rt-typefix"; PStr "compiler-rt-typefix"] w2 /\
      LLVM.read_list (LLVM.patches b) w2
      = Ok [PStr "compiler-rt-typefix"; PStr "compiler-rt-typefix"] w2) /\
  (forall (r : nat) (l : list patch_ref) commit lld build_flags,
      heap w !! r = Some l ->
      exists self w1,
        LLVM.__init__ "4.0.0" true commit lld (Some r) build_flags w
        = Ok self w1 /\
        LLVM.patches self = r /\
        heap w1 !! r = Some (l ++ [PStr "compiler-rt-typefix"])).
Proof.
  intros H0. split.
  - do 3 eexists. rewrite bind_eq, init_typefix, bind_eq, init_typefix.
    cbn [default heap]. split; [reflexivity|].
    cbn [LLVM.patches]. repeat split.
    all: unfold LLVM.read_list; cbn [heap]; f_equal.
    all: rewrite !lookup_alter_same, H0; reflexivity.
  - intros r l commit lld build_flags Hr. do 2 eexists.
    rewrite init_typefix. split; [reflexivity|]. cbn.
    split; [reflexivity|]. now rewrite lookup_alter_same, Hr.
Qed.

Lemma default_patches_shared_witness :
  exists a b w2,
    (a ← LLVM.__init__ "4.0.0" true None false None [];
     b ← LLVM.__init__ "4.0.0" true None false None [];
     mret (a, b)) Example.w0 = Ok (a, b) w2 /\
    heap w2 = [[PStr "compiler-rt-typefix"; PStr "compiler-rt-typefix"]].
Proof.
  destruct (default_patches_shared Example.w0 eq_refl)
    as [(a & b & w2 & Hrun & _) _].
  exists a, b, w2. split; [exact Hrun|].
  rewrite bind_eq, init_typefix, bind_eq, init_typefix in Hrun.
  injection Hrun as _ _ <-. reflexivity.
Defined.

(** ** The probe for a preinstalled LLVM (claim C8) *)

Definition version_query : command := Shell "llvm-config --version".

(** The local install artifact of [LLVM]. *)
Definition install_artifact (w : World) : bool :=
  Fs.exists_ (fs w) (Path.resolve (cwd w) "install/bin/llvm-config").

(** [llvm-config] could be started, exited with status zero and printed the
    required version (surrounded by white space at most). *)
Definition reports (r : option proc) (v : string) : bool :=
  match r with
  | Some p => (returncode p =? 0) && String.eqb (PyStr.strip (stdout p)) v
  | None => false
  end.

Lemma run_allow_error (E : Env) (cmd : command) (w : World) :
  run E cmd true w
  = Ok (run_prim E (cwd w) cmd (fs w)).2
       (add_event (ERun (cwd w) cmd true)
                  (set_fs (run_prim E (cwd w) cmd (fs w)).1 w)).
Proof.
  unfold run. destruct (run_prim E (cwd w) cmd (fs w)) as [f [p|]];
    rewrite ?orb_true_r; reflexivity.
Qed.

(** C8: with no patch declared, [is_installed] asks [llvm-config] for its
    version, allowing a non-zero exit; if the answer is the required version
    the result is true, whether the local artifact exists or not; if not, or
    if a patch is declared (then nothing is asked), the result is the
    existence of [install/bin/llvm-config]. *)
Theorem is_installed_preinstalled (E : Env) (self : LLVM.t) (w : World) :
  let ps := default [] (heap w !! LLVM.patches self) in
  let answer := run_prim E (cwd w) version_query (fs w) in
  let asked :=
    add_event (ERun (cwd w) version_query true) (set_fs answer.1 w) in
  (ps = [] -> reports answer.2 (LLVM.version self) = true ->
   LLVM.is_installed E self w = Ok true asked) /\
  (ps = [] -> reports answer.2 (LLVM.version self) = false ->
   exists w', LLVM.is_installed E self w = Ok (install_artifact asked) w' /\
              fs w' = fs asked /\ cwd w' = cwd asked /\
              trace w' = trace asked) /\
  (ps <> [] -> LLVM.is_installed E self w = Ok (install_artifact w) w).
Proof.
  cbv zeta.
  unfold LLVM.is_installed, LLVM.read_list, LLVM.preinstalled.
  fold version_query. rewrite bind_eq.
  repeat split.
  - intros Hps Hr. rewrite Hps.
    rewrite bool_decide_eq_true_2 by reflexivity.
    rewrite !bind_eq, run_allow_error.
    destruct (run_prim E (cwd w) version_query (fs w)) as [f [p|]];
      cbn in Hr; [|discriminate].
    apply andb_prop in Hr as [Hc Hv]. cbn [fst snd]. rewrite Hc, Hv.
    reflexivity.
  - intros Hps Hr. rewrite Hps.
    rewrite bool_decide_eq_true_2 by reflexivity.
    rewrite !bind_eq, run_allow_error.
    destruct (run_prim E (cwd w) version_query (fs w)) as [f [p|]];
      cbn in Hr; cbn [fst snd].
    + destruct (returncode p =? 0) eqn:Hc; cbn [andb] in Hr.
      * rewrite Hr. eexists. split; [reflexivity|]. cbn. auto.
      * eexists. split; [reflexivity|]. cbn. auto.
    + eexists. split; [reflexivity|]. cbn. auto.
  - intros Hps.
    rewrite bool_decide_eq_false_2 by exact Hps. reflexivity.
Qed.

Lemma is_installed_preinstalled_witness :
  let self := LLVM.mk "4.0.0" false false 0%nat [] None in
  install_artifact Example.w0 = false /\
  LLVM.is_installed Example.env self Example.w0
  = Ok true (add_event (ERun [] version_query true) Example.w0).
Proof.
  split; [reflexivity|].
  exact (proj1 (is_installed_preinstalled Example.env
                  (LLVM.mk "4.0.0" false false 0%nat [] None) Example.w0)
               eq_refl eq_refl).
Defined.

(** ** What a computation may do to the world *)

Definition is_patch (e : event) : bool :=
  match e with
  | EApplyPatch _ _ _ => true
  | _ => false
  end.

Definition is_run (e : event) : bool :=
  match e with
  | ERun _ _ _ => true
  | _ => false
  end.

(** The patch file of a call to [apply_patch]. *)
Definition patch_file (e : event) : string :=
  match e with
  | EApplyPatch _ p _ => p
  | _ => EmptyString
  end.


Section Respects.

(** [fs_ok] bounds the change of the file system, [ev_ok] the calls to the
    collaborators. *)
Context (fs_ok : relation (gmap path node)) (ev_ok : event -> Prop).
Context `{!PreOrder fs_ok}.

Definition allowed (w w' : World) : Prop :=
  heap w' = heap w /\
  fs_ok (fs w) (fs w') /\
  exists evs, trace w' = trace w ++ evs /\ Forall ev_ok evs.

Lemma allowed_refl w : allowed w w.
Proof.
  repeat split; [reflexivity|]. exists []. now rewrite app_nil_r.
Qed.

Lemma allowed_trans w1 w2 w3 : allowed w1 w2 -> allowed w2 w3 -> allowed w1 w3.
Proof.
  intros (Hh1 & Hf1 & e1 & Ht1 & He1) (Hh2 & Hf2 & e2 & Ht2 & He2).
  repeat split; [congruence|etransitivity; eassumption|].
  exists (e1 ++ e2). rewrite Ht2, Ht1, app_assoc. split; [reflexivity|].
  now apply Forall_app.
Qed.

(** Changes that are allowed whatever the bounds are. *)
Lemma allowed_same_fs w w' :
  heap w' = heap w -> fs w' = fs w -> trace w' = trace w -> allowed w w'.
Proof.
  intros Hh Hf Ht. repeat split; [exact Hh|now rewrite Hf|].
  exists []. now rewrite app_nil_r.
Qed.

Definition respects {A} (m : M A) : Prop := forall w, allowed w (final (m w)).

Lemma respects_ret {A} (a : A) : respects (mret a).
Proof. intros w. apply allowed_refl. Qed.

Lemma respects_raise {A} (e : exn) : respects (@raise A e).
Proof. intros w. apply allowed_refl. Qed.

Lemma respects_bind {A B} (m : M A) (f : A -> M B) :
  respects m -> (forall a, respects (f a)) -> respects (m ≫= f).
Proof.
  intros Hm Hf w. rewrite bind_eq. specialize (Hm w).
  destruct (m w) as [a w1|e w1]; cbn in *; [|exact Hm].
  eapply allowed_trans; [exact Hm|apply Hf].
Qed.

Lemma respects_when (c : bool) (m : M unit) :
  respects m -> respects (when c m).
Proof. destruct c; cbn; auto using respects_ret. Qed.

Lemma respects_for_each {A} (l : list A) (body : A -> M unit) :
  (forall x, respects (body x)) -> respects (for_each l body).
Proof.
  intros Hb. induction l as [|x xs IH]; cbn [for_each].
  - apply respects_ret.
  - apply respects_bind; auto.
Qed.

Lemma respects_getcwd : respects Os.getcwd.
Proof. intros w. apply allowed_refl. Qed.

Lemma respects_path_exists s : respects (Os.path_exists s).
Proof. intros w. apply allowed_refl. Qed.

Lemma respects_chdir s : respects (Os.chdir s).
Proof.
  intros w. unfold Os.chdir. destruct (Fs.isdir _ _); cbn;
    [now apply allowed_same_fs|apply allowed_refl].
Qed.

Lemma respects_modify_ctx f : respects (modify_ctx f).
Proof. intros w. now apply allowed_same_fs. Qed.

Lemma respects_log_warning s : respects (log_warning s).
Proof. intros w. now apply allowed_same_fs. Qed.

Lemma respects_log_debug s : respects (log_debug s).
Proof. intros w. now apply allowed_same_fs. Qed.

Lemma respects_get_jobs : respects get_jobs.
Proof. intros w. apply allowed_refl. Qed.

Lemma respects_read_list r : respects (LLVM.read_list r).
Proof. intros w. apply allowed_refl. Qed.

(** A change of the file system alone. *)
Lemma allowed_set_fs w f : fs_ok (fs w) f -> allowed w (set_fs f w).
Proof.
  intros Hf. repeat split; [exact Hf|]. exists []. cbn. now rewrite app_nil_r.
Qed.

(** A call to a collaborator. *)
Lemma allowed_call w f e :
  fs_ok (fs w) f -> ev_ok e -> allowed w (add_event e (set_fs f w)).
Proof.
  intros Hf He. repeat split; [exact Hf|]. exists [e]. cbn. auto.
Qed.

Lemma respects_makedirs s :
  (forall p f f', Fs.mkdirs [] p f = Some f' -> fs_ok f f') ->
  respects (Os.makedirs s).
Proof.
  intros H w. unfold Os.makedirs.
  destruct (Fs.mkdirs _ _ _) eqn:Hm; cbn; [|apply allowed_refl].
  apply allowed_set_fs. eapply H, Hm.
Qed.

Lemma respects_remove s :
  (forall p f, fs_ok f (delete p f)) -> respects (Os.remove s).
Proof.
  intros H w. unfold Os.remove.
  destruct (fs w !! _) as [[| |t]|]; cbn;
    try apply allowed_refl; apply allowed_set_fs, H.
Qed.

Lemma respects_symlink a b :
  (forall p t f, fs_ok f (<[p := Link t]> f)) -> respects (Os.symlink a b).
Proof.
  intros H w. unfold Os.symlink.
  destruct (fs w !! _); [apply allowed_refl|].
  destruct (Fs.isdir _ _); cbn; [apply allowed_set_fs, H|apply allowed_refl].
Qed.

Lemma respects_move a b :
  (forall p q f, fs_ok f (Fs.rename p q (delete q f))) ->
  respects (Shutil.move a b).
Proof.
  intros H w. unfold Shutil.move.
  repeat match goal with
         | |- allowed _ (final (match ?x with _ => _ end)) => destruct x
         | |- allowed _ (final (if ?x then _ else _)) => destruct x
         end; cbn; try apply allowed_refl; apply allowed_set_fs, H.
Qed.

Section Calls.

Context (E : Env).

Lemma respects_run cmd allow_error :
  (forall d f, fs_ok f (run_prim E d cmd f).1) ->
  (forall d, ev_ok (ERun d cmd allow_error)) ->
  respects (run E cmd allow_error).
Proof.
  intros Hf He w. unfold run. specialize (Hf (cwd w) (fs w)).
  destruct (run_prim E (cwd w) cmd (fs w)) as [f [p|]]; cbn in Hf.
  - destruct (_ || _); cbn; now apply allowed_call.
  - destruct allow_error; cbn; now apply allowed_call.
Qed.

Lemma respects_download url :
  (forall d f f', download_prim E d url f = Some f' -> fs_ok f f') ->
  (forall d, ev_ok (EDownload d url)) ->
  respects (download E url).
Proof.
  intros Hf He w. unfold download.
  destruct (download_prim E (cwd w) url (fs w)) as [f|] eqn:Hd; cbn.
  - apply (allowed_call w f); eauto.
  - apply (allowed_call w (fs w)); [reflexivity|auto].
Qed.

Lemma respects_apply_patch p n :
  (forall d f f' b, apply_patch_prim E d p n f = Some (f', b) -> fs_ok f f') ->
  (forall d, ev_ok (EApplyPatch d p n)) ->
  respects (apply_patch E p n).
Proof.
  intros Hf He w. unfold apply_patch.
  destruct (apply_patch_prim E (cwd w) p n (fs w)) as [[f b]|] eqn:Hd; cbn.
  - apply (allowed_call w f); eauto.
  - apply (allowed_call w (fs w)); [reflexivity|auto].
Qed.

Lemma respects_goto_rootdir ident :
  (forall p f f', Fs.mkdirs [] p f = Some f' -> fs_ok f f') ->
  respects (goto_rootdir E ident).
Proof.
  intros H. apply respects_bind; [now apply respects_makedirs|].
  intros _. apply respects_chdir.
Qed.

End Calls.

End Respects.

(** Takes a computation apart down to the calls of [os], of the
    collaborators and of the context. *)
Ltac respects_step :=
  lazymatch goal with
  | |- PreOrder _ => typeclasses eauto
  | |- forall _, _ => intros ?
  | |- respects _ _ (if ?b then _ else _) => destruct b
  | |- respects _ _ (match ?x with _ => _ end) => destruct x
  | |- respects _ _ _ =>
      first
        [ apply respects_ret | apply respects_raise
        | apply respects_getcwd | apply respects_path_exists
        | apply respects_chdir | apply respects_modify_ctx
        | apply respects_log_warning | apply respects_log_debug
        | apply respects_get_jobs | apply respects_read_list
        | apply respects_bind
        | apply respects_when
        | apply respects_for_each
        | apply respects_makedirs | apply respects_remove
        | apply respects_symlink | apply respects_move
        | apply respects_run | apply respects_download
        | apply respects_apply_patch | apply respects_goto_rootdir ]
  end.

(** No bound on the change of the file system. *)
Definition any_fs : relation (gmap path node) := fun _ _ => True.

#[global] Instance any_fs_preorder : PreOrder any_fs.
Proof. split; now intros. Qed.

Ltac respects_tac :=
  repeat respects_step;
  try (intros; first [exact I | reflexivity | eassumption]).

(** ** Patches are applied by [build], before it compiles (claim C4) *)

Lemma fetch_respects (E : Env) (pkg : Package) :
  respects any_fs (fun e => is_patch e = false) (Pkg.fetch E pkg).
Proof.
  destruct pkg as [p|p|p|p]; cbn [Pkg.fetch].
  - unfold LibUnwind.fetch. respects_tac.
  - unfold Gperftools.fetch. respects_tac.
  - unfold LLVM.fetch, LLVM.get, LLVM.major_version. respects_tac.
  - unfold LLVMBinDist.fetch. respects_tac.
Qed.

Lemma compile_respects (E : Env) :
  (forall self, respects any_fs (fun e => is_run e = true)
                  (LibUnwind.compile E self)) /\
  (forall self, respects any_fs (fun e => is_run e = true)
                  (Gperftools.compile E self)) /\
  (forall self major, respects any_fs (fun e => is_run e = true)
                        (LLVM.compile E self major)).
Proof.
  split; [|split]; intros.
  - unfold LibUnwind.compile. respects_tac.
  - unfold Gperftools.compile. respects_tac.
  - unfold LLVM.compile. respects_tac.
Qed.

(** No call to a collaborator at all. *)
Definition silent {A} (m : M A) : Prop := respects any_fs (fun _ => False) m.

Lemma silent_trace {A} (m : M A) w :
  silent m -> trace (final (m w)) = trace w /\ heap (final (m w)) = heap w.
Proof.
  intros H. destruct (H w) as (Hh & _ & evs & Ht & Hev).
  destruct evs as [|e evs]; [|now inversion Hev].
  now rewrite app_nil_r in Ht.
Qed.

(** [m] calls [apply_patch] on the files [files], in this order, and calls
    no other collaborator; it stops at the first call that fails. *)
Definition applies_at {A} (files : list string) (m : M A) (w : World) : Prop :=
  exists pe,
    trace (final (m w)) = trace w ++ pe /\
    Forall (fun e => is_patch e = true) pe /\
    map patch_file pe `prefix_of` files /\
    (is_ok (m w) = true -> map patch_file pe = files) /\
    heap (final (m w)) = heap w.

Definition applies {A} (files : list string) (m : M A) : Prop :=
  forall w, applies_at files m w.

Lemma applies_silent {A} (m : M A) : silent m -> applies [] m.
Proof.
  intros H w. destruct (silent_trace m w H) as [Ht Hh].
  exists []. rewrite app_nil_r. repeat split; auto.
Qed.

Lemma applies_bind {A B} l1 l2 (m : M A) (f : A -> M B) :
  applies l1 m -> (forall a, applies l2 (f a)) -> applies (l1 ++ l2) (m ≫= f).
Proof.
  intros H1 H2 w. destruct (H1 w) as (pe1 & Ht1 & Hp1 & Hpre1 & Hok1 & Hh1).
  unfold applies_at. rewrite bind_eq. destruct (m w) as [a w1|e w1]; cbn in *.
  - destruct (H2 a w1) as (pe2 & Ht2 & Hp2 & Hpre2 & Hok2 & Hh2).
    exists (pe1 ++ pe2). rewrite Ht2, Ht1, app_assoc, map_app, Hok1 by reflexivity.
    repeat split.
    + now apply Forall_app.
    + now apply prefix_app.
    + intros Hok. now rewrite Hok2.
    + congruence.
  - exists pe1. repeat split; auto.
    + now apply prefix_app_r.
    + discriminate.
Qed.

Lemma applies_silent_l {A B} l (m : M A) (f : A -> M B) :
  silent m -> (forall a, applies l (f a)) -> applies l (m ≫= f).
Proof.
  intros H1 H2. change l with ([] ++ l).
  apply applies_bind; [now apply applies_silent|exact H2].
Qed.

Lemma applies_silent_r {A B} l (m : M A) (f : A -> M B) :
  applies l m -> (forall a, silent (f a)) -> applies l (m ≫= f).
Proof.
  intros H1 H2. rewrite <- (app_nil_r l).
  apply applies_bind; [exact H1|]. intros a. now apply applies_silent.
Qed.

Lemma applies_apply_patch (E : Env) (p : string) (n : Z) :
  applies [p] (apply_patch E p n).
Proof.
  intros w. exists [EApplyPatch (cwd w) p n]. unfold apply_patch.
  destruct (apply_patch_prim E (cwd w) p n (fs w)) as [[f b]|]; cbn;
    repeat split; auto.
Qed.

Lemma applies_for_each {A} (g : A -> string) (l : list A) (body : A -> M unit) :
  (forall x, applies [g x] (body x)) -> applies (map g l) (for_each l body).
Proof.
  intros Hb. induction l as [|x xs IH]; cbn [for_each map].
  - apply applies_silent. unfold silent. respects_tac.
  - change (g x :: map g xs) with ([g x] ++ map g xs).
    apply applies_bind; auto.
Qed.

Ltac silent_tac := unfold silent; respects_tac.

Lemma LibUnwind_apply_patches (E : Env) (self : LibUnwind.t) :
  applies (map (LibUnwind.resolve_patch E) (LibUnwind.patches self))
          (LibUnwind._apply_patches E self).
Proof.
  unfold LibUnwind._apply_patches.
  apply applies_silent_l; [silent_tac|intros _].
  apply applies_silent_r; [|intros _; silent_tac].
  apply applies_for_each. intros p.
  apply applies_silent_r; [apply applies_apply_patch|intros b; silent_tac].
Qed.

Lemma Gperftools_apply_patches (E : Env) (self : Gperftools.t) :
  applies (map (Gperftools.resolve_patch E) (Gperftools.patches self))
          (Gperftools._apply_patches E self).
Proof.
  unfold Gperftools._apply_patches.
  apply applies_silent_l; [silent_tac|intros _].
  apply applies_silent_r; [|intros _; silent_tac].
  apply applies_for_each. intros p.
  apply applies_silent_r; [apply applies_apply_patch|intros b; silent_tac].
Qed.

Lemma LLVM_apply_one (E : Env) (self : LLVM.t) (r : patch_ref) :
  applies [LLVM.resolve_patch E self (ref_name r)] (LLVM.apply_one E self r).
Proof.
  unfold LLVM.apply_one.
  apply applies_silent_l; [destruct r; silent_tac|intros o].
  apply applies_silent_r; [destruct r; apply applies_apply_patch|].
  intros b. destruct o; silent_tac.
Qed.

Lemma chdir_cases (s : string) (w : World) :
  Os.chdir s w = Ok tt (set_cwd (Path.resolve (cwd w) s) w) \/
  Os.chdir s w = Raise OSError w.
Proof. unfold Os.chdir. destruct (Fs.isdir _ _); auto. Qed.

Lemma read_list_bind {B} (r : nat) (f : list patch_ref -> M B) (w : World) :
  (LLVM.read_list r ≫= f) w = f (default [] (heap w !! r)) w.
Proof. reflexivity. Qed.

Lemma LLVM_apply_patches (E : Env) (self : LLVM.t) (w : World) :
  applies_at (Pkg.declared_patches E (PLLVM self) w)
             (LLVM.apply_patches E self) w.
Proof.
  unfold applies_at, LLVM.apply_patches. rewrite bind_eq.
  destruct (chdir_cases "src" w) as [H|H]; rewrite H.
  - rewrite read_list_bind. cbn [heap set_cwd Pkg.declared_patches].
    set (ps := default [] (heap w !! LLVM.patches self)).
    assert (Ha : applies (map (fun r => LLVM.resolve_patch E self (ref_name r)) ps)
                   (for_each ps (LLVM.apply_one E self);; Os.chdir "..")).
    { apply applies_silent_r; [|intros _; silent_tac].
      apply applies_for_each. intros r. apply LLVM_apply_one. }
    exact (Ha (set_cwd (Path.resolve (cwd w) "src") w)).
  - exists []. rewrite app_nil_r. cbn. repeat split; auto.
    + apply prefix_nil.
    + discriminate.
Qed.

(** The calls of [m]: first the patches [files], then commands; a command
    is run only after every patch is applied. *)
Definition patches_first {A} (files : list string) (m : M A) (w : World)
  : Prop :=
  exists pe ce,
    trace (final (m w)) = trace w ++ pe ++ ce /\
    Forall (fun e => is_patch e = true) pe /\
    Forall (fun e => is_run e = true) ce /\
    map patch_file pe `prefix_of` files /\
    (ce <> [] \/ is_ok (m w) = true -> map patch_file pe = files).

Lemma patches_then_commands files (m1 m2 : M unit) (w : World) :
  applies_at files m1 w ->
  respects any_fs (fun e => is_run e = true) m2 ->
  patches_first files (m1;; m2) w.
Proof.
  intros (pe & Ht & Hp & Hpre & Hok & _) H2. unfold patches_first.
  rewrite bind_eq. destruct (m1 w) as [[] w1|e w1]; cbn in *.
  - destruct (H2 w1) as (_ & _ & ce & Htc & Hc).
    exists pe, ce. rewrite Htc, Ht, app_assoc. repeat split; auto.
  - exists pe, []. rewrite app_nil_r. repeat split; auto.
    intros [Hne|Hne]; [now destruct Hne|discriminate].
Qed.

Lemma build_patches_first (E : Env) (pkg : Package) (w : World) :
  patches_first (Pkg.declared_patches E pkg w) (Pkg.build E pkg) w.
Proof.
  destruct (compile_respects E) as (Hlu & Hgp & Hllvm).
  destruct pkg as [p|p|p|p]; cbn [Pkg.build Pkg.declared_patches].
  - apply patches_then_commands; [apply LibUnwind_apply_patches|apply Hlu].
  - apply patches_then_commands; [apply Gperftools_apply_patches|apply Hgp].
  - unfold LLVM.build, LLVM.major_version.
    destruct (PyStr.int _) as [major|].
    + apply (patches_then_commands _ (LLVM.apply_patches E p)
               (LLVM.compile E p major));
        [apply LLVM_apply_patches|apply Hllvm].
    + exists [], []. cbn. rewrite app_nil_r. repeat split; auto.
      * apply prefix_nil.
      * intros [H|H]; [now destruct H|discriminate].
  - exists [], []. cbn. rewrite app_nil_r. repeat split; auto.
Qed.

(** C4: [fetch] never calls [apply_patch]; the calls of [build] are calls of
    [apply_patch] on the declared patches, in their order, followed by
    commands, and when a command is run (or [build] returns) every declared
    patch has been applied before. *)
Theorem patches_applied_by_build (E : Env) (pkg : Package) (w : World) :
  (exists evs,
      trace (final (Pkg.fetch E pkg w)) = trace w ++ evs /\
      Forall (fun e => is_patch e = false) evs) /\
  patches_first (Pkg.declared_patches E pkg w) (Pkg.build E pkg) w.
Proof.
  split.
  - destruct (fetch_respects E pkg w) as (_ & _ & H). exact H.
  - apply build_patches_first.
Qed.

Lemma patches_applied_by_build_witness :
  let pkg := PLibUnwind Example.libunwind in
  let w := Example.fetched pkg Example.w0 in
  exists pe ce,
    trace (final (Pkg.build Example.env pkg w)) = trace w ++ pe ++ ce /\
    Forall (fun e => is_run e = true) ce /\
    map patch_file pe = ["/infra/packages/fix-a.patch"; "/tmp/b.patch"].
Proof.
  intros pkg w.
  destruct (patches_applied_by_build Example.env pkg w)
    as [_ (pe & ce & Ht & _ & Hc & _ & Hall)].
  exists pe, ce. split; [exact Ht|]. split; [exact Hc|].
  rewrite Hall; [reflexivity|]. right. vm_compute. reflexivity.
Defined.

(** ** Patch references (claim C6) *)

(** The names or paths in the patch list of a package. *)
Definition patch_refs (pkg : Package) (w : World) : list string :=
  match pkg with
  | PLibUnwind p => LibUnwind.patches p
  | PGperftools p => Gperftools.patches p
  | PLLVM p => map ref_name (default [] (heap w !! LLVM.patches p))
  | PLLVMBinDist _ => []
  end.

(** The directory of the module of the package. *)
Definition builtin_patch_dir (E : Env) (pkg : Package) : string :=
  match pkg with
  | PLibUnwind _ | PGperftools _ => gperftools_config_root E
  | PLLVM _ => llvm_config_path E
  | PLLVMBinDist _ => EmptyString
  end.

(** The file a patch reference stands for, in the words of the spec: a
    reference with a separator as it is, a bare name as a file of the
    built-in directory (for [LLVM] with the version after the name). *)
Definition expected_patch_file (E : Env) (pkg : Package) (ref : string)
  : string :=
  if PyStr.contains "/" ref then ref
  else
    builtin_patch_dir E pkg +:+ "/" +:+ ref +:+
    match pkg with
    | PLLVM p => "-" +:+ LLVM.version p +:+ ".patch"
    | _ => ".patch"
    end.

(** The files of the calls to [apply_patch] among the calls made from [w]
    to [w']. *)
Definition patch_calls (w w' : World) : list string :=
  map patch_file (List.filter is_patch (drop (length (trace w)) (trace w'))).

Lemma declared_expected (E : Env) (pkg : Package) (w : World) :
  Pkg.declared_patches E pkg w
  = map (expected_patch_file E pkg) (patch_refs pkg w).
Proof.
  destruct pkg as [p|p|p|p]; cbn [Pkg.declared_patches patch_refs];
    rewrite ?map_map; try reflexivity; apply map_ext; intros r;
    unfold LibUnwind.resolve_patch, Gperftools.resolve_patch,
           LLVM.resolve_patch, expected_patch_file;
    destruct (PyStr.contains "/" _); reflexivity.
Qed.

Lemma filter_all (P : event -> bool) (l : list event) :
  Forall (fun e => P e = true) l -> List.filter P l = l.
Proof.
  induction 1 as [|e l He _ IH]; cbn; [reflexivity|]. now rewrite He, IH.
Qed.

Lemma filter_none (P : event -> bool) (l : list event) :
  Forall (fun e => P e = false) l -> List.filter P l = [].
Proof.
  induction 1 as [|e l He _ IH]; cbn; [reflexivity|]. now rewrite He.
Qed.

Lemma run_not_patch (l : list event) :
  Forall (fun e => is_run e = true) l -> Forall (fun e => is_patch e = false) l.
Proof.
  intros H. eapply Forall_impl; [exact H|].
  intros [] He; (reflexivity || discriminate He).
Qed.

(** C6: the files [build] hands to [apply_patch] are, in order, the files
    the patch references of the package stand for: the reference itself if
    it contains [/], otherwise [<name>.patch] (for [LLVM]
    [<name>-<version>.patch]) in the directory of the module of the
    package.  All of them when [build] returns, the first of them when it
    fails on the way. *)
Theorem patch_files_resolved (E : Env) (pkg : Package) (w : World) :
  let files := patch_calls w (final (Pkg.build E pkg w)) in
  let expected := map (expected_patch_file E pkg) (patch_refs pkg w) in
  files `prefix_of` expected /\
  (is_ok (Pkg.build E pkg w) = true -> files = expected).
Proof.
  cbv zeta. unfold patch_calls.
  destruct (build_patches_first E pkg w) as (pe & ce & Ht & Hp & Hc & Hpre & Hall).
  rewrite Ht, drop_app_length, List.filter_app, (filter_all _ pe Hp),
    (filter_none _ ce (run_not_patch ce Hc)), app_nil_r, <- declared_expected.
  split; [exact Hpre|]. intros Hok. apply Hall. now right.
Qed.

Lemma patch_files_resolved_witness :
  let pkg := PLibUnwind Example.libunwind in
  let w := Example.fetched pkg Example.w0 in
  patch_calls w (final (Pkg.build Example.env pkg w))
  = ["/infra/packages/fix-a.patch"; "/tmp/b.patch"].
Proof.
  intros pkg w.
  exact (proj2 (patch_files_resolved Example.env pkg w) eq_refl).
Defined.

(** ** Paths: the string of a directory leads back to it *)

Lemma append_empty_r (s : string) : s +:+ "" = s.
Proof.
  induction s as [|c s IH]; [reflexivity|].
  change (String c s +:+ "") with (String c (s +:+ "")). now f_equal.
Qed.

Lemma split_cons (c : ascii) (s : string) :
  PyStr.split c s = hd "" (PyStr.split c s) :: tl (PyStr.split c s).
Proof.
  destruct s as [|d s]; [reflexivity|]. simpl.
  destruct (Ascii.eqb c d); [reflexivity|].
  now destruct (PyStr.split c s).
Qed.

Lemma split_no_sep (c : string) (s : string) :
  PyStr.contains "/" c = false ->
  PyStr.split "/" (c +:+ s)
  = (c +:+ hd "" (PyStr.split "/" s)) :: tl (PyStr.split "/" s).
Proof.
  induction c as [|a c IH].
  - intros _. change ("" +:+ s) with s. apply split_cons.
  - change (String a c +:+ s) with (String a (c +:+ s)).
    intros H. cbn [PyStr.contains] in H. cbn [PyStr.split].
    destruct (Ascii.eqb "/" a); [discriminate H|].
    now rewrite (IH H).
Qed.

Lemma split_to_string (p : path) :
  Path.wf p ->
  PyStr.split "/" (fold_right (fun c acc => "/" +:+ c +:+ acc) "" p)
  = "" :: p.
Proof.
  induction 1 as [|c p Hc _ IH]; [reflexivity|].
  cbn [fold_right]. unfold Path.component_ok in Hc.
  apply andb_prop in Hc as [_ Hc]. apply negb_true_iff in Hc.
  change (PyStr.split "/" ("/" +:+ ?s)) with ("" :: PyStr.split "/" s).
  now rewrite (split_no_sep c _ Hc), IH, append_empty_r.
Qed.

Lemma fold_step_wf (p acc : path) :
  Path.wf p -> fold_left Path.step p acc = acc ++ p.
Proof.
  intros H. revert acc. induction H as [|c p Hc _ IH]; intros acc; cbn.
  - now rewrite app_nil_r.
  - unfold Path.component_ok in Hc.
    apply andb_prop in Hc as [Hc _]. apply andb_prop in Hc as [Hc H3].
    apply andb_prop in Hc as [H1 H2].
    apply negb_true_iff in H1, H2, H3.
    unfold Path.step at 2. rewrite H1, H2, H3, IH, <- app_assoc. reflexivity.
Qed.

Lemma resolve_to_string (d p : path) :
  Path.wf p -> Path.resolve d (Path.to_string p) = p.
Proof.
  intros H. destruct p as [|c p]; [reflexivity|].
  unfold Path.resolve, Path.to_string. rewrite (split_to_string _ H).
  cbn [fold_right]. change (Path.is_abs ("/" +:+ ?s)) with true.
  cbn [fold_left]. change (Path.step [] "") with (@nil string).
  change (fold_left Path.step p (Path.step [] c))
    with (fold_left Path.step (c :: p) []).
  now rewrite (fold_step_wf _ [] H).
Qed.

Lemma to_string_truthy (p : path) : truthy (Some (Path.to_string p)) = true.
Proof. now destruct p. Qed.

Lemma resolve_dotdot (d : path) (c : string) :
  Path.resolve (d ++ [c]) ".." = d.
Proof. cbn. apply removelast_last. Qed.

Lemma wf_app (d : path) (c : string) :
  Path.wf d -> Path.component_ok c = true -> Path.wf (d ++ [c]).
Proof. intros Hd Hc. apply Forall_app. split; [exact Hd|]. now constructor. Qed.

(** ** What the calls do when they return *)

Lemma chdir_ok_inv s w w' :
  Os.chdir s w = Ok tt w' -> w' = set_cwd (Path.resolve (cwd w) s) w.
Proof. unfold Os.chdir. destruct (Fs.isdir _ _); congruence. Qed.

Lemma makedirs_ok_inv s w w' :
  Os.makedirs s w = Ok tt w' ->
  exists f, Fs.mkdirs [] (Path.resolve (cwd w) s) (fs w) = Some f /\
            w' = set_fs f w.
Proof.
  unfold Os.makedirs. destruct (Fs.mkdirs _ _ _) as [f|]; [|discriminate].
  intros [= <-]. eauto.
Qed.

Lemma run_ok_inv E cmd a w r w' :
  run E cmd a w = Ok r w' ->
  r = (run_prim E (cwd w) cmd (fs w)).2 /\
  w' = add_event (ERun (cwd w) cmd a)
                 (set_fs (run_prim E (cwd w) cmd (fs w)).1 w).
Proof.
  unfold run. destruct (run_prim E (cwd w) cmd (fs w)) as [f [p|]]; cbn.
  - destruct (_ || _); [|discriminate]. intros [= <- <-]. auto.
  - destruct a; [|discriminate]. intros [= <- <-]. auto.
Qed.

Lemma apply_patch_ok_inv E p n w b w' :
  apply_patch E p n w = Ok b w' ->
  exists f, apply_patch_prim E (cwd w) p n (fs w) = Some (f, b) /\
            w' = set_fs f (add_event (EApplyPatch (cwd w) p n) w).
Proof.
  unfold apply_patch.
  destruct (apply_patch_prim E (cwd w) p n (fs w)) as [[f b']|]; [|discriminate].
  intros [= <- <-]. eauto.
Qed.

(** ** Target directories of patches (claim C7) *)

(** The call a patch reference leads to when the loop of [LLVM.build] runs
    in [base]: a pair is applied in its directory, taken from [base]. *)
Definition patch_call (E : Env) (self : LLVM.t) (base : path) (r : patch_ref)
  : event :=
  EApplyPatch
    match r with
    | PTuple patch_dir _ => Path.resolve base patch_dir
    | PStr _ => base
    end
    (LLVM.resolve_patch E self (ref_name r)) 1.

Lemma apply_one_ok (E : Env) (self : LLVM.t) (r : patch_ref) (w w' : World) :
  Path.wf (cwd w) ->
  LLVM.apply_one E self r w = Ok tt w' ->
  cwd w' = cwd w /\ heap w' = heap w /\
  trace w' = trace w ++ [patch_call E self (cwd w) r].
Proof.
  intros Hwf. unfold LLVM.apply_one, patch_call. destruct r as [p|d p].
  - rewrite bind_eq. cbn [mret M_ret]. intros H.
    apply bind_ok_inv in H as (b & w1 & H1 & H2).
    apply apply_patch_ok_inv in H1 as (f & _ & ->).
    injection H2 as <-. cbn. auto.
  - intros H. apply bind_ok_inv in H as (o & w1 & H1 & H2).
    apply bind_ok_inv in H1 as (s & w2 & Hg & H1).
    injection Hg as <- <-.
    apply bind_ok_inv in H1 as ([] & w3 & Hc & H1).
    apply chdir_ok_inv in Hc as ->. injection H1 as <- <-.
    apply bind_ok_inv in H2 as (b & w4 & Ha & H2).
    apply apply_patch_ok_inv in Ha as (f & _ & ->).
    rewrite to_string_truthy in H2. cbn [when] in H2.
    apply chdir_ok_inv in H2 as ->. cbn.
    rewrite (resolve_to_string _ _ Hwf). auto.
Qed.

Lemma apply_loop_ok (E : Env) (self : LLVM.t) (ps : list patch_ref) :
  forall w w',
    Path.wf (cwd w) ->
    for_each ps (LLVM.apply_one E self) w = Ok tt w' ->
    cwd w' = cwd w /\ heap w' = heap w /\
    trace w' = trace w ++ map (patch_call E self (cwd w)) ps.
Proof.
  induction ps as [|r ps IH]; intros w w' Hwf; cbn [for_each map].
  - intros [= <-]. now rewrite app_nil_r.
  - intros H. apply bind_ok_inv in H as ([] & w1 & H1 & H2).
    apply (apply_one_ok _ _ _ _ _ Hwf) in H1 as (Hc1 & Hh1 & Ht1).
    rewrite <- Hc1 in Hwf. apply (IH _ _ Hwf) in H2 as (Hc2 & Hh2 & Ht2).
    rewrite Hc2, Hh2, Ht2, Ht1, Hc1, Hh1, <- app_assoc. auto.
Qed.

Lemma apply_patches_ok (E : Env) (self : LLVM.t) (w w' : World) :
  Path.wf (cwd w) ->
  LLVM.apply_patches E self w = Ok tt w' ->
  cwd w' = cwd w /\ heap w' = heap w /\
  trace w' = trace w ++ map (patch_call E self (cwd w ++ ["src"]))
                            (default [] (heap w !! LLVM.patches self)).
Proof.
  intros Hwf H. unfold LLVM.apply_patches in H.
  apply bind_ok_inv in H as ([] & w1 & Hc & H).
  apply chdir_ok_inv in Hc as ->. rewrite read_list_bind in H.
  apply bind_ok_inv in H as ([] & w2 & Hl & H).
  apply apply_loop_ok in Hl as (Hc2 & Hh2 & Ht2);
    [|now apply wf_app].
  apply chdir_ok_inv in H as ->. cbn in *.
  rewrite Hc2, Ht2, Hh2. rewrite removelast_last. auto.
Qed.




Lemma wf_forallb (p : path) : forallb Path.component_ok p = true -> Path.wf p.
Proof.
  unfold Path.wf. induction p as [|c p IH]; cbn [forallb]; [constructor|].
  intros H. apply andb_prop in H as [Hc Hp].
  constructor; [exact Hc|exact (IH Hp)].
Qed.


(** ** The answer of [apply_patch] only reaches the log (claim C5) *)

Definition erase_log (w : World) : World :=
  let c := ctx w in
  set_ctx (mkContext (cc c) (cxx c) (ar c) (nm c) (ranlib c)
                     (cflags c) (cxxflags c) (ldflags c) (jobs c) []) w.

(** Two worlds that differ in the log at most. *)
Definition same_but_log (w1 w2 : World) : Prop := erase_log w1 = erase_log w2.

(** Two outcomes of the same kind, with related results (the same
    exception), in worlds that differ in the log at most. *)
Definition outcome_rel {A B} (R : A -> B -> Prop)
    (o1 : outcome A) (o2 : outcome B) : Prop :=
  match o1, o2 with
  | Ok a w1, Ok b w2 => R a b /\ same_but_log w1 w2
  | Raise e1 w1, Raise e2 w2 => e1 = e2 /\ same_but_log w1 w2
  | _, _ => False
  end.

Definition sim {A B} (R : A -> B -> Prop) (m1 : M A) (m2 : M B) : Prop :=
  forall w1 w2, same_but_log w1 w2 -> outcome_rel R (m1 w1) (m2 w2).

Lemma same_but_log_inv w1 w2 :
  same_but_log w1 w2 ->
  heap w1 = heap w2 /\ cwd w1 = cwd w2 /\ fs w1 = fs w2 /\
  trace w1 = trace w2 /\ jobs (ctx w1) = jobs (ctx w2).
Proof.
  destruct w1 as [h1 d1 f1 c1 t1], w2 as [h2 d2 f2 c2 t2].
  unfold same_but_log, erase_log. cbn. intros [= -> -> -> _ _ _ _ _ _ _ _ -> ->].
  auto.
Qed.

Lemma sim_ret {A} (a : A) : sim eq (mret a) (mret a).
Proof. intros w1 w2 H. cbn. auto. Qed.

Lemma sim_raise {A} (e : exn) : sim eq (@raise A e) (@raise A e).
Proof. intros w1 w2 H. cbn. auto. Qed.

Lemma sim_bind {A1 A2 B1 B2} (R : A1 -> A2 -> Prop) (S : B1 -> B2 -> Prop)
    (m1 : M A1) (m2 : M A2) (f1 : A1 -> M B1) (f2 : A2 -> M B2) :
  sim R m1 m2 -> (forall a b, R a b -> sim S (f1 a) (f2 b)) ->
  sim S (m1 ≫= f1) (m2 ≫= f2).
Proof.
  intros Hm Hf w1 w2 H. rewrite !bind_eq. specialize (Hm w1 w2 H).
  destruct (m1 w1) as [a u1|e1 u1], (m2 w2) as [b u2|e2 u2]; cbn in Hm;
    try contradiction.
  - destruct Hm as [Hab Hu]. now apply Hf.
  - exact Hm.
Qed.

Lemma sim_bind_eq {A B} (m1 m2 : M A) (f1 f2 : A -> M B) :
  sim eq m1 m2 -> (forall a, sim eq (f1 a) (f2 a)) ->
  sim eq (m1 ≫= f1) (m2 ≫= f2).
Proof.
  intros Hm Hf. apply (sim_bind eq); [exact Hm|]. intros a b <-. apply Hf.
Qed.

Lemma sim_when (c : bool) (m1 m2 : M unit) :
  sim eq m1 m2 -> sim eq (when c m1) (when c m2).
Proof. destruct c; cbn; auto using sim_ret. Qed.

Lemma sim_for_each {A} (l : list A) (b1 b2 : A -> M unit) :
  (forall x, sim eq (b1 x) (b2 x)) -> sim eq (for_each l b1) (for_each l b2).
Proof.
  intros Hb. induction l as [|x xs IH]; cbn [for_each].
  - apply sim_ret.
  - apply sim_bind_eq; auto.
Qed.

(** A computation that neither reads nor writes the log. *)
Ltac sim_prim :=
  let w1 := fresh "w" in
  let w2 := fresh "w" in
  let H := fresh "H" in
  intros w1 w2 H; pose proof H as H';
  apply same_but_log_inv in H' as (Hh & Hd & Hf & Ht & Hj);
  unfold same_but_log, erase_log in H.

Lemma sim_getcwd : sim eq Os.getcwd Os.getcwd.
Proof. sim_prim. cbn. rewrite Hd. auto. Qed.

Lemma sim_get_jobs : sim eq get_jobs get_jobs.
Proof. sim_prim. cbn. rewrite Hj. auto. Qed.

Lemma sim_read_list r : sim eq (LLVM.read_list r) (LLVM.read_list r).
Proof. sim_prim. cbn. rewrite Hh. auto. Qed.

Lemma sim_path_exists s : sim eq (Os.path_exists s) (Os.path_exists s).
Proof. sim_prim. cbn. rewrite Hd, Hf. auto. Qed.

Lemma same_but_log_set_fs w1 w2 f :
  same_but_log w1 w2 -> same_but_log (set_fs f w1) (set_fs f w2).
Proof.
  destruct w1 as [h1 d1 f1 c1 t1], w2 as [h2 d2 f2 c2 t2].
  unfold same_but_log, erase_log, set_ctx, set_fs, set_cwd, add_event, add_log.
  cbn. congruence.
Qed.

Lemma same_but_log_set_cwd w1 w2 d :
  same_but_log w1 w2 -> same_but_log (set_cwd d w1) (set_cwd d w2).
Proof.
  destruct w1 as [h1 d1 f1 c1 t1], w2 as [h2 d2 f2 c2 t2].
  unfold same_but_log, erase_log, set_ctx, set_fs, set_cwd, add_event, add_log.
  cbn. congruence.
Qed.

Lemma same_but_log_add_event w1 w2 e :
  same_but_log w1 w2 -> same_but_log (add_event e w1) (add_event e w2).
Proof.
  destruct w1 as [h1 d1 f1 c1 t1], w2 as [h2 d2 f2 c2 t2].
  unfold same_but_log, erase_log, set_ctx, set_fs, set_cwd, add_event, add_log.
  cbn. congruence.
Qed.

Lemma same_but_log_add_log_l w1 w2 l s :
  same_but_log w1 w2 -> same_but_log (set_ctx (add_log l s (ctx w1)) w1) w2.
Proof.
  destruct w1 as [h1 d1 f1 c1 t1], w2 as [h2 d2 f2 c2 t2].
  unfold same_but_log, erase_log, set_ctx, set_fs, set_cwd, add_event, add_log.
  cbn. congruence.
Qed.

Lemma same_but_log_sym w1 w2 : same_but_log w1 w2 -> same_but_log w2 w1.
Proof. unfold same_but_log. congruence. Qed.

Lemma sim_chdir s : sim eq (Os.chdir s) (Os.chdir s).
Proof.
  sim_prim. unfold Os.chdir. rewrite Hd, Hf.
  destruct (Fs.isdir _ _); cbn; split; auto.
  now apply same_but_log_set_cwd.
Qed.

Lemma sim_makedirs s : sim eq (Os.makedirs s) (Os.makedirs s).
Proof.
  sim_prim. unfold Os.makedirs. rewrite Hd, Hf.
  destruct (Fs.mkdirs _ _ _); cbn; split; auto.
  now apply same_but_log_set_fs.
Qed.

Lemma sim_log_warning s1 s2 : sim eq (log_warning s1) (log_warning s2).
Proof.
  intros w1 w2 H. cbn. split; [reflexivity|].
  apply same_but_log_add_log_l, same_but_log_sym.
  now apply same_but_log_add_log_l, same_but_log_sym.
Qed.

(** The log may be written on one side and not on the other. *)
Lemma sim_when_log (c1 c2 : bool) s :
  sim eq (when c1 (log_warning s)) (when c2 (log_warning s)).
Proof.
  destruct c1, c2; cbn [when].
  - apply sim_log_warning.
  - intros w1 w2 H. cbn. split; [reflexivity|].
    now apply same_but_log_add_log_l.
  - intros w1 w2 H. cbn. split; [reflexivity|].
    now apply same_but_log_sym, same_but_log_add_log_l, same_but_log_sym.
  - apply sim_ret.
Qed.

(** Two environments that differ at most in what [apply_patch] answers:
    the patch program does the same to the tree and fails on the same
    inputs. *)
Definition patch_answer_only (E1 E2 : Env) : Prop :=
  packages_dir E1 = packages_dir E2 /\
  gperftools_config_root E1 = gperftools_config_root E2 /\
  llvm_config_path E1 = llvm_config_path E2 /\
  binutils_ident E1 = binutils_ident E2 /\
  run_prim E1 = run_prim E2 /\
  download_prim E1 = download_prim E2 /\
  forall d p n f,
    fst <$> apply_patch_prim E1 d p n f = fst <$> apply_patch_prim E2 d p n f.

Section TwoEnvs.

Context (E1 E2 : Env) (HE : patch_answer_only E1 E2).

Lemma pkg_path_eq ident args : pkg_path E1 ident args = pkg_path E2 ident args.
Proof. unfold pkg_path. now rewrite (proj1 HE). Qed.

Lemma sim_run cmd a : sim eq (run E1 cmd a) (run E2 cmd a).
Proof.
  sim_prim. unfold run. destruct HE as (_ & _ & _ & _ & <- & _).
  rewrite Hd, Hf. destruct (run_prim E1 (cwd w0) cmd (fs w0)) as [f [p|]].
  - destruct (_ || _); cbn; (split; [reflexivity|]);
      now apply same_but_log_add_event, same_but_log_set_fs.
  - destruct a; cbn; (split; [reflexivity|]);
      now apply same_but_log_add_event, same_but_log_set_fs.
Qed.

Lemma sim_apply_patch p n :
  sim (fun _ _ => True) (apply_patch E1 p n) (apply_patch E2 p n).
Proof.
  sim_prim. unfold apply_patch.
  destruct HE as (_ & _ & _ & _ & _ & _ & Hp).
  specialize (Hp (cwd w0) p n (fs w0)). rewrite Hd, Hf.
  destruct (apply_patch_prim E1 (cwd w0) p n (fs w0)) as [[f1 b1]|],
           (apply_patch_prim E2 (cwd w0) p n (fs w0)) as [[f2 b2]|];
    cbn in Hp; try discriminate Hp.
  - injection Hp as ->. cbn. split; [exact I|].
    now apply same_but_log_set_fs, same_but_log_add_event.
  - cbn. split; [reflexivity|]. now apply same_but_log_add_event.
Qed.

Lemma sim_goto_rootdir ident :
  sim eq (goto_rootdir E1 ident) (goto_rootdir E2 ident).
Proof.
  unfold goto_rootdir. rewrite pkg_path_eq.
  apply sim_bind_eq; [apply sim_makedirs|]. intros _. apply sim_chdir.
Qed.

End TwoEnvs.

Ltac sim_step E1 E2 HE :=
  lazymatch goal with
  | |- forall _, _ => intros ?
  | |- sim eq (apply_patch _ _ _ ≫= _) (apply_patch _ _ _ ≫= _) =>
      apply (sim_bind (fun _ _ => True));
      [apply (sim_apply_patch E1 E2 HE)|intros ? ? _]
  | |- sim eq (_ ≫= _) (_ ≫= _) => apply sim_bind_eq
  | |- sim eq (when _ (log_warning _)) (when _ (log_warning _)) =>
      apply sim_when_log
  | |- sim eq (when _ _) (when _ _) => apply sim_when
  | |- sim eq (for_each _ _) (for_each _ _) => apply sim_for_each
  | |- sim eq (if ?b then _ else _) (if ?b then _ else _) => destruct b
  | |- sim eq (match ?x with _ => _ end) (match ?x with _ => _ end) =>
      destruct x
  | |- sim eq _ _ =>
      first
        [ apply sim_ret | apply sim_raise | apply sim_getcwd
        | apply sim_get_jobs | apply sim_read_list | apply sim_path_exists
        | apply sim_chdir | apply sim_makedirs
        | apply (sim_run E1 E2 HE) | apply (sim_goto_rootdir E1 E2 HE) ]
  end.

Lemma build_sim (E1 E2 : Env) (pkg : Package) :
  patch_answer_only E1 E2 -> sim eq (Pkg.build E1 pkg) (Pkg.build E2 pkg).
Proof.
  intros HE. pose proof (pkg_path_eq E1 E2 HE) as Hpath.
  pose proof HE as (Hpd & Hgr & Hlc & Hbi & Hrest).
  destruct pkg as [p|p|p|p]; cbn [Pkg.build].
  - unfold LibUnwind.build, LibUnwind._apply_patches, LibUnwind.compile,
      LibUnwind.resolve_patch, LibUnwind.path.
    rewrite !Hpath, Hgr. repeat sim_step E1 E2 HE.
  - unfold Gperftools.build, Gperftools._apply_patches, Gperftools.compile,
      Gperftools.resolve_patch, Gperftools.path, LibUnwind.path.
    rewrite !Hpath, Hgr. repeat sim_step E1 E2 HE.
  - unfold LLVM.build, LLVM.major_version, LLVM.apply_patches, LLVM.compile,
      LLVM.apply_one, LLVM.resolve_patch, LLVM.path.
    rewrite !Hpath, Hlc, Hbi. repeat sim_step E1 E2 HE.
  - apply sim_ret.
Qed.

Lemma same_but_log_refl w : same_but_log w w.
Proof. reflexivity. Qed.

(** C5: let two patch programs do the same to the tree and differ only in
    the answer "modified or not".  Then [build] ends the same way under
    both: it returns under both or raises the same exception under both,
    after the same calls to the collaborators (the compile commands among
    them) in the same directories, with the same file system, working
    directory and context; only the log may differ. *)
Theorem patch_answer_only_logged (E1 E2 : Env) (pkg : Package) (w : World) :
  patch_answer_only E1 E2 ->
  outcome_rel eq (Pkg.build E1 pkg w) (Pkg.build E2 pkg w).
Proof.
  intros HE. apply (build_sim E1 E2 pkg HE). apply same_but_log_refl.
Qed.

Lemma example_envs_patch_answer_only :
  patch_answer_only Example.env Example.eager_env.
Proof.
  repeat split. intros d p n f. cbn.
  unfold Example.eager_patch_prim.
  now destruct (Example.apply_patch_prim d p n f) as [[f' b]|].
Qed.

Lemma patch_answer_only_logged_witness :
  let pkg := PLibUnwind Example.libunwind in
  let w := Example.built pkg (Example.fetched pkg Example.w0) in
  outcome_rel eq (Pkg.build Example.env pkg w)
                 (Pkg.build Example.eager_env pkg w) /\
  is_ok (Pkg.build Example.env pkg w) = true /\
  log (ctx (final (Pkg.build Example.env pkg w))) = log (ctx w) /\
  log (ctx (final (Pkg.build Example.eager_env pkg w)))
  = log (ctx w)
    ++ [(Warning, "applied patch /infra/packages/fix-a.patch to libunwind directory");
        (Warning, "applied patch /tmp/b.patch to libunwind directory")].
Proof.
  intros pkg w. split.
  - apply (patch_answer_only_logged Example.env Example.eager_env pkg w).
    exact example_envs_patch_answer_only.
  - vm_compute. repeat split.
Defined.

(** ** Probes only read (claim C9) *)

(** The program names and the flag lists of two contexts are the same. *)
Definition same_programs_and_flags (c c' : Context) : Prop :=
  cc c' = cc c /\ cxx c' = cxx c /\ ar c' = ar c /\ nm c' = nm c /\
  ranlib c' = ranlib c /\
  cflags c' = cflags c /\ cxxflags c' = cxxflags c /\ ldflags c' = ldflags c.

(** Asking [llvm-config] for its version changes no file. *)
Definition version_query_readonly (E : Env) : Prop :=
  forall d f, (run_prim E d version_query f).1 = f.

(** The probe asks [llvm-config]: an [LLVM] with no patch declared. *)
Definition asks_llvm_config (pkg : Package) (w : World) : bool :=
  match pkg with
  | PLLVM p => bool_decide (default [] (heap w !! LLVM.patches p) = [])
  | _ => false
  end.

(** A probe returns, and leaves the heap, the working directory, the
    program names and the flag lists as they are. *)
Definition probe_frame (probe : M bool) (w : World) : Prop :=
  is_ok (probe w) = true /\
  heap (final (probe w)) = heap w /\
  cwd (final (probe w)) = cwd w /\
  same_programs_and_flags (ctx w) (ctx (final (probe w))).

Lemma path_exists_frame (s : string) (w : World) :
  probe_frame (Os.path_exists s) w /\ final (Os.path_exists s w) = w.
Proof. repeat split. Qed.

Lemma LLVM_is_installed_frame (E : Env) (self : LLVM.t) (w : World) :
  probe_frame (LLVM.is_installed E self) w /\
  (fs (final (LLVM.is_installed E self w)) = fs w \/
   default [] (heap w !! LLVM.patches self) = [] /\
   fs (final (LLVM.is_installed E self w))
   = (run_prim E (cwd w) version_query (fs w)).1).
Proof.
  unfold probe_frame, LLVM.is_installed. rewrite read_list_bind.
  destruct (bool_decide_reflect (default [] (heap w !! LLVM.patches self) = []))
    as [Hps|Hps].
  - rewrite bind_eq. unfold LLVM.preinstalled. fold version_query.
    rewrite bind_eq, run_allow_error.
    destruct (run_prim E (cwd w) version_query (fs w)) as [f [p|]];
      cbn [fst snd].
    + destruct (returncode p =? 0);
        [destruct (String.eqb _ _)|]; cbn; repeat split; auto.
    + cbn. repeat split; auto.
  - cbn. repeat split; auto.
Qed.

Lemma is_installed_frame (E : Env) (pkg : Package) (w : World) :
  probe_frame (Pkg.is_installed E pkg) w /\
  (version_query_readonly E ->
   fs (final (Pkg.is_installed E pkg w)) = fs w).
Proof.
  destruct pkg as [p|p|p|p]; cbn [Pkg.is_installed];
    try (repeat split; fail).
  pose proof (LLVM_is_installed_frame E p w) as [Hf Hfs].
  split; [exact Hf|]. intros Hro.
  destruct Hfs as [Hfs|[_ Hfs]]; [exact Hfs|]. rewrite Hfs. apply Hro.
Qed.

(** What the probe of an [LLVM] with no patch declared does to the world:
    one query, allowed to fail; the tree is the one the query leaves; the
    log may have grown. *)
Lemma LLVM_is_installed_query (E : Env) (self : LLVM.t) (w : World) :
  default [] (heap w !! LLVM.patches self) = [] ->
  let w' := final (LLVM.is_installed E self w) in
  fs w' = (run_prim E (cwd w) version_query (fs w)).1 /\
  trace w' = trace w ++ [ERun (cwd w) version_query true] /\
  log (ctx w) `prefix_of` log (ctx w').
Proof.
  intros Hps. cbv zeta. unfold LLVM.is_installed. rewrite read_list_bind, Hps.
  rewrite bool_decide_eq_true_2 by reflexivity.
  rewrite bind_eq. unfold LLVM.preinstalled. fold version_query.
  rewrite bind_eq, run_allow_error.
  destruct (run_prim E (cwd w) version_query (fs w)) as [f [p|]];
    cbn [fst snd].
  - destruct (returncode p =? 0); [destruct (String.eqb _ _)|]; cbn;
      repeat split; try reflexivity. now apply prefix_app_r.
  - cbn. repeat split; reflexivity.
Qed.

(** The claim as the spec has it: a probe is a read of state, it returns
    and leaves everything as it was. *)
Definition reads_only (probe : M bool) (w : World) : Prop :=
  is_ok (probe w) = true /\ final (probe w) = w.

(** The tools of the example, with a [llvm-config] that leaves a file behind
    in the directory it is asked in. *)
Definition stamping_run_prim (d : path) (cmd : command) (f : gmap path node)
  : gmap path node * option proc :=
  match cmd with
  | Shell s =>
      if String.eqb s "llvm-config --version"
      then (<[d ++ [".llvm-config"] := File]> f,
            (Example.run_prim d cmd f).2)
      else Example.run_prim d cmd f
  | _ => Example.run_prim d cmd f
  end.

Definition stamping_env : Env :=
  mkEnv "/build/packages" "/infra/packages" "/infra/packages/llvm"
        "binutils-2.38-gold" stamping_run_prim Example.download_prim
        Example.apply_patch_prim.

(** C9, as the spec states it, fails: [is_installed] of an [LLVM] with no
    patch declared is not a read of state.  It runs [llvm-config], and when
    the version found is not the required one it writes to the log; and the
    tree is left as that program leaves it, which is not for [is_installed]
    to decide. *)
Lemma LLVM_is_installed_has_effects :
  let pkg := PLLVM (LLVM.mk "5.0.0" false false 0%nat [] None) in
  let w' := final (Pkg.is_installed Example.env pkg Example.w0) in
  ~ reads_only (Pkg.is_installed Example.env pkg) Example.w0 /\
  trace w' = [ERun [] version_query true] /\
  In (Debug,
      "installed llvm-config version 4.0.0 is different from required 5.0.0")
     (log (ctx w')) /\
  fs (final (Pkg.is_installed stamping_env pkg Example.w0)) <> fs Example.w0.
Proof.
  intros pkg w'.
  assert (Ht : trace w' = [ERun [] version_query true]) by reflexivity.
  split; [|split; [exact Ht|split]].
  - intros [_ H]. fold w' in H. rewrite H in Ht. discriminate Ht.
  - left. reflexivity.
  - intros H.
    assert (Hl : fs (final (Pkg.is_installed stamping_env pkg Example.w0))
                 !! [".llvm-config"] = Some File) by reflexivity.
    rewrite H in Hl. discriminate Hl.
Qed.

(** C9, amended: the three probes return and leave the program names, the
    flag lists, the working directory and the patch lists as they are.
    [is_fetched] and [is_built] leave the world as it is, and so does
    [is_installed] except for an [LLVM] with no patch declared: that one
    runs [llvm-config --version] once, allowing it to fail, may add to the
    log, and leaves the tree as that command leaves it. *)
Theorem probes_read_only (E : Env) (pkg : Package) (w : World) :
  (probe_frame (Pkg.is_fetched pkg) w /\
   probe_frame (Pkg.is_built pkg) w /\
   probe_frame (Pkg.is_installed E pkg) w) /\
  final (Pkg.is_fetched pkg w) = w /\
  final (Pkg.is_built pkg w) = w /\
  (asks_llvm_config pkg w = false -> final (Pkg.is_installed E pkg w) = w) /\
  (asks_llvm_config pkg w = true ->
   let w' := final (Pkg.is_installed E pkg w) in
   fs w' = (run_prim E (cwd w) version_query (fs w)).1 /\
   trace w' = trace w ++ [ERun (cwd w) version_query true] /\
   log (ctx w) `prefix_of` log (ctx w')).
Proof.
  destruct pkg as [p|p|p|p]; cbn [Pkg.is_fetched Pkg.is_built Pkg.is_installed];
    try (repeat split; discriminate).
  pose proof (LLVM_is_installed_frame E p w) as [Hf _].
  split; [|split; [|split; [|split]]].
  - repeat split; apply Hf.
  - reflexivity.
  - reflexivity.
  - cbn [asks_llvm_config]. intros Hq. apply bool_decide_eq_false in Hq.
    unfold LLVM.is_installed. rewrite read_list_bind.
    now rewrite bool_decide_eq_false_2.
  - cbn [asks_llvm_config]. intros Hq. apply bool_decide_eq_true in Hq.
    now apply LLVM_is_installed_query.
Qed.

Lemma probes_read_only_witness :
  let pkg := PLLVM (LLVM.mk "4.0.0" false false 0%nat [] None) in
  asks_llvm_config pkg Example.w0 = true /\
  asks_llvm_config (PLLVM Example.llvm) Example.llvm_fetched = false /\
  trace (final (Pkg.is_installed Example.env pkg Example.w0))
  = trace Example.w0 ++ [ERun (cwd Example.w0) version_query true] /\
  final (Pkg.is_installed Example.env (PLLVM Example.llvm)
                          Example.llvm_fetched)
  = Example.llvm_fetched.
Proof.
  intros pkg.
  assert (H1 : asks_llvm_config pkg Example.w0 = true) by reflexivity.
  assert (H2 : asks_llvm_config (PLLVM Example.llvm) Example.llvm_fetched
               = false) by (vm_compute; reflexivity).
  split; [exact H1|]. split; [exact H2|]. split.
  - destruct (probes_read_only Example.env pkg Example.w0)
      as (_ & _ & _ & _ & H). exact (proj1 (proj2 (H H1))).
  - destruct (probes_read_only Example.env (PLLVM Example.llvm)
                               Example.llvm_fetched)
      as (_ & _ & _ & H & _). exact (H H2).
Defined.

(** ** Running the stages twice (claim C2) *)

(** Whatever exists in [f] exists in [f']. *)
Definition keeps (f f' : gmap path node) : Prop :=
  forall p, Fs.exists_ f p = true -> Fs.exists_ f' p = true.

#[global] Instance keeps_preorder : PreOrder keeps.
Proof.
  split.
  - intros f p H. exact H.
  - intros f1 f2 f3 H1 H2 p H. apply H2, H1, H.
Qed.

Lemma follow_weaken (f f' : gmap path node) (n : nat) :
  f ⊆ f' -> forall p x, Fs.follow n f p = Some x -> Fs.follow n f' p = Some x.
Proof.
  intros Hsub. induction n as [|n IH]; intros p x; cbn [Fs.follow].
  - destruct (f !! p) as [[| |t]|] eqn:Hp; try discriminate;
      intros H; rewrite (lookup_weaken _ _ _ _ Hp Hsub); exact H.
  - destruct (f !! p) as [[| |t]|] eqn:Hp; try discriminate;
      intros H; rewrite (lookup_weaken _ _ _ _ Hp Hsub); auto.
Qed.

Lemma isdir_weaken (f f' : gmap path node) (p : path) :
  f ⊆ f' -> Fs.isdir f p = true -> Fs.isdir f' p = true.
Proof.
  intros Hsub. unfold Fs.isdir, Fs.stat.
  destruct (Fs.follow MAXSYMLINKS f p) as [[| |t]|] eqn:H; try discriminate.
  now rewrite (follow_weaken _ _ _ Hsub _ _ H).
Qed.

Lemma subseteq_keeps (f f' : gmap path node) : f ⊆ f' -> keeps f f'.
Proof.
  intros Hsub p. unfold Fs.exists_, Fs.stat.
  destruct (Fs.follow MAXSYMLINKS f p) as [x|] eqn:H; [|discriminate].
  now rewrite (follow_weaken _ _ _ Hsub _ _ H).
Qed.

(** Writing a file or a directory makes nothing disappear. *)
Lemma follow_insert_plain (f : gmap path node) (k : path) (v : node) (n : nat) :
  (forall t, v <> Link t) ->
  forall p x, Fs.follow n f p = Some x ->
              exists y, Fs.follow n (<[k := v]> f) p = Some y.
Proof.
  intros Hv. induction n as [|n IH]; intros p x; cbn [Fs.follow];
    destruct (decide (k = p)) as [->|Hne].
  - rewrite lookup_insert_eq. intros _. destruct v; eauto. now destruct (Hv target).
  - rewrite lookup_insert_ne by exact Hne.
    destruct (f !! p) as [[| |t]|]; try discriminate; eauto.
  - rewrite lookup_insert_eq. intros _. destruct v; eauto. now destruct (Hv target).
  - rewrite lookup_insert_ne by exact Hne.
    destruct (f !! p) as [[| |t]|]; try discriminate; eauto.
Qed.

Lemma keeps_insert_file (f : gmap path node) (k : path) :
  keeps f (<[k := File]> f).
Proof.
  intros p. unfold Fs.exists_, Fs.stat.
  destruct (Fs.follow MAXSYMLINKS f p) as [x|] eqn:H; [|discriminate].
  destruct (follow_insert_plain f k File MAXSYMLINKS ltac:(discriminate) _ _ H)
    as [y ->]. reflexivity.
Qed.

Lemma keeps_insert_dir (f : gmap path node) (k : path) :
  keeps f (<[k := Dir]> f).
Proof.
  intros p. unfold Fs.exists_, Fs.stat.
  destruct (Fs.follow MAXSYMLINKS f p) as [x|] eqn:H; [|discriminate].
  destruct (follow_insert_plain f k Dir MAXSYMLINKS ltac:(discriminate) _ _ H)
    as [y ->]. reflexivity.
Qed.

Lemma mkdirs_subseteq (comps from : path) (f f' : gmap path node) :
  Fs.mkdirs from comps f = Some f' -> f ⊆ f'.
Proof.
  revert from f. induction comps as [|c cs IH]; intros from f; cbn [Fs.mkdirs].
  - now intros [= ->].
  - destruct (f !! (from ++ [c])) eqn:Hp.
    + destruct (Fs.isdir f (from ++ [c])); [apply IH|discriminate].
    + intros H. apply IH in H. etransitivity; [|exact H].
      now apply insert_subseteq.
Qed.

Lemma mkdirs_keeps (p : path) (f f' : gmap path node) :
  Fs.mkdirs [] p f = Some f' -> keeps f f'.
Proof. intros H. eapply subseteq_keeps, mkdirs_subseteq, H. Qed.

Lemma isdir_lookup_dir (f : gmap path node) (p : path) :
  f !! p = Some Dir -> Fs.isdir f p = true.
Proof.
  intros H. unfold Fs.isdir, Fs.stat.
  destruct MAXSYMLINKS; cbn [Fs.follow]; now rewrite H.
Qed.

(** Once the directories are made, making them again changes nothing. *)
Lemma mkdirs_idem (comps from : path) (f f' : gmap path node) :
  Fs.mkdirs from comps f = Some f' -> Fs.mkdirs from comps f' = Some f'.
Proof.
  revert from f. induction comps as [|c cs IH]; intros from f; cbn [Fs.mkdirs].
  - reflexivity.
  - destruct (f !! (from ++ [c])) as [n|] eqn:Hp.
    + destruct (Fs.isdir f (from ++ [c])) eqn:Hd; [|discriminate].
      intros H. pose proof (mkdirs_subseteq _ _ _ _ H) as Hsub.
      rewrite (lookup_weaken _ _ _ _ Hp Hsub), (isdir_weaken _ _ _ Hsub Hd).
      eapply IH, H.
    + intros H. pose proof (mkdirs_subseteq _ _ _ _ H) as Hsub.
      assert (Hd : f' !! (from ++ [c]) = Some Dir).
      { eapply lookup_weaken; [|exact Hsub]. apply lookup_insert_eq. }
      rewrite Hd.
      rewrite (isdir_lookup_dir _ _ Hd). eapply IH, H.
Qed.

(** The external tools make nothing disappear. *)
Definition tools_keep (E : Env) : Prop :=
  (forall d cmd f, keeps f (run_prim E d cmd f).1) /\
  (forall d p n f f' b, apply_patch_prim E d p n f = Some (f', b) -> keeps f f').

Lemma is_abs_head (c : ascii) (a b : string) :
  Path.is_abs (String c a) = Path.is_abs (String c b).
Proof. destruct c as [[] [] [] [] [] [] [] []]; reflexivity. Qed.

Lemma join_abs (a b : string) :
  Path.is_abs a = true -> Path.is_abs (Os.join a b) = true.
Proof.
  intros Ha. unfold Os.join. destruct (Path.is_abs b) eqn:Hb; [exact Hb|].
  destruct a as [|c a]; [discriminate Ha|]. cbn [String.eqb].
  destruct (Path.is_abs (String.rev (String c a)));
    [change (String c a +:+ b) with (String c (a +:+ b))
    |change (String c a +:+ "/" +:+ b) with (String c (a +:+ "/" +:+ b))];
    now rewrite (is_abs_head c _ a).
Qed.

Lemma resolve_abs (d : path) (s : string) :
  Path.is_abs s = true -> Path.resolve d s = Path.resolve [] s.
Proof. intros H. unfold Path.resolve. now rewrite H. Qed.

(** The directory of a package. *)
Definition root_dir (E : Env) (pkg : Package) : path :=
  Path.resolve [] (pkg_path E (Pkg.ident pkg) []).

(** The process is in the directory of the package, which exists. *)
Definition positioned (E : Env) (pkg : Package) (w : World) : Prop :=
  cwd w = root_dir E pkg /\
  Fs.mkdirs [] (root_dir E pkg) (fs w) = Some (fs w) /\
  Fs.isdir (fs w) (root_dir E pkg) = true.

Lemma chdir_ok_isdir s w w' :
  Os.chdir s w = Ok tt w' -> Fs.isdir (fs w) (Path.resolve (cwd w) s) = true.
Proof. unfold Os.chdir. destruct (Fs.isdir _ _); [reflexivity|discriminate]. Qed.

Lemma goto_rootdir_positions (E : Env) (pkg : Package) (w w' : World) :
  Path.is_abs (packages_dir E) = true ->
  goto_rootdir E (Pkg.ident pkg) w = Ok tt w' -> positioned E pkg w'.
Proof.
  intros Habs H. unfold goto_rootdir in H.
  apply bind_ok_inv in H as ([] & w1 & Hm & Hc).
  apply makedirs_ok_inv in Hm as (f & Hm & ->).
  pose proof (chdir_ok_isdir _ _ _ Hc) as Hd. apply chdir_ok_inv in Hc as ->.
  assert (Ha : Path.is_abs (pkg_path E (Pkg.ident pkg) []) = true)
    by (apply join_abs, Habs).
  unfold positioned. cbn [cwd fs set_fs set_cwd] in Hd |- *.
  rewrite (resolve_abs _ _ Ha) in Hm, Hd. rewrite (resolve_abs _ _ Ha).
  fold (root_dir E pkg) in Hm, Hd |- *.
  repeat split; [|exact Hd]. eapply mkdirs_idem, Hm.
Qed.

Lemma world_eta (w : World) : set_cwd (cwd w) (set_fs (fs w) w) = w.
Proof. now destruct w. Qed.

Lemma goto_rootdir_positioned (E : Env) (pkg : Package) (w : World) :
  Path.is_abs (packages_dir E) = true ->
  positioned E pkg w -> goto_rootdir E (Pkg.ident pkg) w = Ok tt w.
Proof.
  intros Habs (Hc & Hm & Hd).
  assert (Ha : Path.is_abs (pkg_path E (Pkg.ident pkg) []) = true)
    by (apply join_abs, Habs).
  unfold goto_rootdir. rewrite bind_eq. unfold Os.makedirs, Os.chdir.
  rewrite (resolve_abs _ _ Ha). fold (root_dir E pkg). rewrite Hm.
  cbn [set_fs cwd fs]. rewrite (resolve_abs _ _ Ha). fold (root_dir E pkg).
  rewrite Hd, <- Hc. now rewrite world_eta.
Qed.

Lemma positioned_same (E : Env) (pkg : Package) (w w' : World) :
  cwd w' = cwd w -> fs w' = fs w -> positioned E pkg w -> positioned E pkg w'.
Proof. unfold positioned. intros -> ->. auto. Qed.

(** A stage that returns ends with the probe answering true where the
    package is. *)
Lemma run_stage_ok_inv (E : Env) (pkg : Package) (s : stage) (force : bool)
    (probe : M bool) (action : M unit) (w w' : World) (l : list stage) :
  Path.is_abs (packages_dir E) = true ->
  Executor.run_stage E pkg s force probe action w = Ok l w' ->
  exists wp, positioned E pkg wp /\ probe wp = Ok true w'.
Proof.
  intros Habs H. unfold Executor.run_stage in H.
  apply bind_ok_inv in H as ([] & w0 & Hg & H).
  apply goto_rootdir_positions in Hg; [|exact Habs].
  apply bind_ok_inv in H as (sat & w1 & Hs & H).
  assert (Hperf :
    (action ≫= λ _, goto_rootdir E (Pkg.ident pkg) ≫= λ _,
       probe ≫= λ ok : bool, if ok then mret [s] else raise OSError) w1
    = Ok l w' -> exists wp, positioned E pkg wp /\ probe wp = Ok true w').
  { intros Hp. apply bind_ok_inv in Hp as ([] & w2 & _ & Hp).
    apply bind_ok_inv in Hp as ([] & w3 & Hg3 & Hp).
    apply goto_rootdir_positions in Hg3; [|exact Habs].
    apply bind_ok_inv in Hp as (ok & w4 & Hpr & Hp).
    destruct ok; [|discriminate Hp]. injection Hp as _ <-. eauto. }
  destruct force.
  - injection Hs as <- <-. auto.
  - destruct sat; [|auto]. injection H as _ <-. eauto.
Qed.

Definition is_bindist (pkg : Package) : bool :=
  match pkg with
  | PLLVMBinDist _ => true
  | _ => false
  end.

Section Keeps.

Context (E : Env) (Htools : tools_keep E).

Let keep_run : forall cmd d f, keeps f (run_prim E d cmd f).1.
Proof. intros cmd d f. apply (proj1 Htools). Qed.

Let keep_patch : forall p n d f f' b,
    apply_patch_prim E d p n f = Some (f', b) -> keeps f f'.
Proof. intros p n d f f' b. apply (proj2 Htools). Qed.

Ltac keeps_tac :=
  repeat respects_step;
  try (intros; first [exact I | eapply mkdirs_keeps; eassumption
                     | apply keep_run | eapply keep_patch; eassumption]).

Lemma build_keeps (pkg : Package) :
  respects keeps (fun _ => True) (Pkg.build E pkg).
Proof.
  destruct pkg as [p|p|p|p]; cbn [Pkg.build].
  - unfold LibUnwind.build, LibUnwind._apply_patches, LibUnwind.compile.
    keeps_tac.
  - unfold Gperftools.build, Gperftools._apply_patches, Gperftools.compile.
    keeps_tac.
  - unfold LLVM.build, LLVM.major_version, LLVM.apply_patches, LLVM.apply_one,
      LLVM.compile.
    keeps_tac.
  - unfold LLVMBinDist.build. keeps_tac.
Qed.

Lemma install_keeps (pkg : Package) :
  is_bindist pkg = false -> respects keeps (fun _ => True) (Pkg.install E pkg).
Proof.
  destruct pkg as [p|p|p|p]; cbn [Pkg.install is_bindist]; intros Hb;
    try discriminate Hb.
  - unfold LibUnwind.install. keeps_tac.
  - unfold Gperftools.install. keeps_tac.
  - unfold LLVM.install. keeps_tac.
Qed.

Lemma probes_keep (pkg : Package) :
  respects keeps (fun _ => True) (Pkg.is_built pkg) /\
  respects keeps (fun _ => True) (Pkg.is_installed E pkg).
Proof.
  split; destruct pkg as [p|p|p|p]; cbn [Pkg.is_built Pkg.is_installed];
    unfold LibUnwind.is_built, Gperftools.is_built, LLVM.is_built,
      LLVMBinDist.is_built, LibUnwind.is_installed, Gperftools.is_installed,
      LLVM.is_installed, LLVMBinDist.is_installed, LLVM.preinstalled;
    keeps_tac.
Qed.

Lemma run_stage_keeps (pkg : Package) (s : stage) (force : bool)
    (probe : M bool) (action : M unit) :
  respects keeps (fun _ => True) probe ->
  respects keeps (fun _ => True) action ->
  respects keeps (fun _ => True) (Executor.run_stage E pkg s force probe action).
Proof.
  intros Hp Ha. unfold Executor.run_stage.
  repeat first [exact Hp | exact Ha | respects_step];
    intros; eapply mkdirs_keeps; eassumption.
Qed.

End Keeps.

(** What a probe that looks for a path answers. *)
Lemma path_exists_eq (s : string) (w : World) :
  Os.path_exists s w = Ok (Fs.exists_ (fs w) (Path.resolve (cwd w) s)) w.
Proof. reflexivity. Qed.

Lemma path_exists_kept (s : string) (w w2 wa : World) :
  Os.path_exists s w = Ok true wa ->
  cwd w2 = cwd w -> keeps (fs w) (fs w2) ->
  Os.path_exists s w2 = Ok true w2.
Proof.
  rewrite !path_exists_eq. intros [= H _] Hc Hk. rewrite Hc.
  now rewrite (Hk _ H).
Qed.

Lemma is_fetched_eq (pkg : Package) : Pkg.is_fetched pkg = Os.path_exists "src".
Proof. now destruct pkg. Qed.

(** The file [is_built] looks for. *)
Definition built_path (pkg : Package) : string :=
  match pkg with
  | PLibUnwind _ => "obj/src/.libs/libunwind.so"
  | PGperftools _ => "obj/.libs/libtcmalloc.so"
  | PLLVM _ => "obj/bin/llvm-config"
  | PLLVMBinDist _ => EmptyString
  end.

Lemma is_built_eq (pkg : Package) :
  is_bindist pkg = false -> Pkg.is_built pkg = Os.path_exists (built_path pkg).
Proof. destruct pkg; intros H; (discriminate H || reflexivity). Qed.

(** The answer of [LLVM.is_installed], from the heap, the working directory
    and the file system. *)
Definition installed_value (E : Env) (p : LLVM.t)
    (h : list (list patch_ref)) (d : path) (f : gmap path node) : bool :=
  if bool_decide (default [] (h !! LLVM.patches p) = []) then
    if reports (run_prim E d version_query f).2 (LLVM.version p) then true
    else Fs.exists_ (run_prim E d version_query f).1
                    (Path.resolve d "install/bin/llvm-config")
  else Fs.exists_ f (Path.resolve d "install/bin/llvm-config").

Lemma LLVM_is_installed_value (E : Env) (p : LLVM.t) (w : World) :
  exists w',
    LLVM.is_installed E p w
    = Ok (installed_value E p (heap w) (cwd w) (fs w)) w'.
Proof.
  unfold LLVM.is_installed, installed_value. rewrite read_list_bind.
  destruct (bool_decide _).
  - rewrite bind_eq. unfold LLVM.preinstalled. fold version_query.
    rewrite bind_eq, run_allow_error.
    destruct (run_prim E (cwd w) version_query (fs w)) as [f [pr|]];
      cbn [fst snd reports]; cbv beta iota.
    + destruct (returncode pr =? 0); cbn [andb]; cbv beta iota.
      * destruct (String.eqb _ _); eexists; reflexivity.
      * eexists; reflexivity.
    + eexists; reflexivity.
  - eexists; reflexivity.
Qed.

(** The same for the probes of every package, given that the query for the
    version of [llvm-config] changes no file. *)
Lemma is_installed_again (E : Env) (pkg : Package) (wp w' : World) :
  version_query_readonly E ->
  Pkg.is_installed E pkg wp = Ok true w' ->
  cwd w' = cwd wp /\ fs w' = fs wp /\
  exists w'', Pkg.is_installed E pkg w' = Ok true w''.
Proof.
  intros Hro H.
  destruct (is_installed_frame E pkg wp) as (Hfr & Hfs).
  unfold probe_frame in Hfr. rewrite H in Hfr, Hfs. cbn [final] in Hfr, Hfs.
  destruct Hfr as (_ & Hh & Hc & _). specialize (Hfs Hro).
  repeat split; [exact Hc|exact Hfs|].
  destruct pkg as [p|p|p|p]; cbn [Pkg.is_installed] in *;
    unfold LibUnwind.is_installed, Gperftools.is_installed,
      LLVMBinDist.is_installed in *.
  - rewrite path_exists_eq in H. injection H as H <-.
    rewrite path_exists_eq, H. eauto.
  - rewrite path_exists_eq in H. injection H as H <-.
    rewrite path_exists_eq, H. eauto.
  - destruct (LLVM_is_installed_value E p wp) as [u Hu].
    destruct (LLVM_is_installed_value E p w') as [u' Hu'].
    rewrite H in Hu. injection Hu as Hu _.
    rewrite Hh, Hc, Hfs, <- Hu in Hu'. eauto.
  - rewrite path_exists_eq in H. injection H as H <-.
    rewrite path_exists_eq, H. eauto.
Qed.

Lemma is_fetched_pure (pkg : Package) (w w' : World) (b : bool) :
  Pkg.is_fetched pkg w = Ok b w' -> w' = w.
Proof. rewrite is_fetched_eq, path_exists_eq. now intros [= _ <-]. Qed.

Lemma is_built_pure (pkg : Package) (w w' : World) (b : bool) :
  Pkg.is_built pkg w = Ok b w' -> w' = w.
Proof.
  destruct pkg as [p|p|p|p]; cbn [Pkg.is_built];
    unfold LibUnwind.is_built, Gperftools.is_built, LLVM.is_built,
      LLVMBinDist.is_built;
    rewrite ?path_exists_eq; now intros [= _ <-].
Qed.

(** With no force flag, a stage whose probe answers true is not invoked. *)
Lemma run_stage_skip (E : Env) (pkg : Package) (s : stage)
    (probe : M bool) (action : M unit) (w w' : World) :
  Path.is_abs (packages_dir E) = true ->
  positioned E pkg w -> probe w = Ok true w' ->
  Executor.run_stage E pkg s false probe action w = Ok [] w'.
Proof.
  intros Habs Hp Hpr. unfold Executor.run_stage.
  rewrite bind_eq, (goto_rootdir_positioned E pkg w Habs Hp).
  rewrite bind_eq, Hpr. reflexivity.
Qed.

Lemma positioned_probe (E : Env) (pkg : Package) (probe : M bool) (w w' : World) :
  Path.is_abs (packages_dir E) = true ->
  positioned E pkg w -> probe w = Ok true w' ->
  (goto_rootdir E (Pkg.ident pkg);; probe) w = Ok true w'.
Proof.
  intros Habs Hp Hpr.
  now rewrite bind_eq, (goto_rootdir_positioned E pkg w Habs Hp).
Qed.

(** C2, as the spec states it, fails for [LLVMBinDist]: its [install] moves
    [src] to [install], so after a run in which fetch, build and install
    were all invoked and their probes were true, [is_fetched] is false and
    the next run, with no force flag, fetches again. *)
Lemma rerun_fetches_bindist :
  let pkg := PLLVMBinDist Example.llvm_bin in
  let first := Executor.pipeline Example.env pkg true true true Example.w0 in
  let second := Executor.pipeline Example.env pkg false false false (final first) in
  first = Ok [Fetch; Build; Install] (final first) /\
  (goto_rootdir Example.env (Pkg.ident pkg);; Pkg.is_fetched pkg) (final first)
  = Ok false (final first) /\
  second = Ok [Fetch] (final second).
Proof.
  intros pkg first second. split; [|split].
  - by_result.
  - rewrite bind_eq.
    assert (Hp : goto_rootdir Example.env (Pkg.ident pkg) (final first)
                 = Ok tt (final first)).
    { apply goto_rootdir_positioned; [reflexivity|].
      repeat split; vm_compute; reflexivity. }
    rewrite Hp, is_fetched_eq, path_exists_eq.
    replace (Fs.exists_ _ _) with false by (vm_compute; reflexivity).
    reflexivity.
  - by_result.
Qed.

(** C2, amended: take a run of the stages of a package that returns, with
    any force flags, where packages live under an absolute path, the tools
    that [build] and [install] run make nothing disappear and the query for
    the version of [llvm-config] changes no file.  For [LibUnwind],
    [Gperftools] and [LLVM] the next run with no force flag invokes no
    stage: the three probes answer true.  For every package, [LLVMBinDist]
    too, [is_built] and [is_installed] answer true after the run. *)
Theorem rerun_invokes_nothing (E : Env) (pkg : Package)
    (force_fetch force_build force_install : bool)
    (w w' : World) (l : list stage) :
  Path.is_abs (packages_dir E) = true ->
  tools_keep E ->
  version_query_readonly E ->
  Executor.pipeline E pkg force_fetch force_build force_install w = Ok l w' ->
  (is_bindist pkg = false ->
   exists w'', Executor.pipeline E pkg false false false w' = Ok [] w'') /\
  (exists w1, (goto_rootdir E (Pkg.ident pkg);; Pkg.is_built pkg) w'
              = Ok true w1) /\
  (exists w2, (goto_rootdir E (Pkg.ident pkg);; Pkg.is_installed E pkg) w'
              = Ok true w2).
Proof.
  intros Habs Ht Hro H. unfold Executor.pipeline in H.
  apply bind_ok_inv in H as (lf & w1 & H1 & H).
  apply bind_ok_inv in H as (lb & w2 & H2 & H).
  apply bind_ok_inv in H as (li & w3 & H3 & H). injection H as _ <-.
  pose proof (run_stage_keeps E pkg Build force_build _ _
                (proj1 (probes_keep E Ht pkg)) (build_keeps E Ht pkg) w1) as K2.
  rewrite H2 in K2. destruct K2 as (_ & K2 & _). cbn [final] in K2.
  apply run_stage_ok_inv in H1 as (wp1 & P1 & F1); [|exact Habs].
  apply run_stage_ok_inv in H2 as (wp2 & P2 & F2); [|exact Habs].
  pose proof (is_fetched_pure _ _ _ _ F1) as <-.
  pose proof (is_built_pure _ _ _ _ F2) as <-.
  assert (K3 : is_bindist pkg = false -> keeps (fs w2) (fs w3)).
  { intros Hb.
    pose proof (run_stage_keeps E pkg Install force_install _ _
                  (proj2 (probes_keep E Ht pkg)) (install_keeps E Ht pkg Hb) w2)
      as K3.
    rewrite H3 in K3. now destruct K3 as (_ & K3 & _). }
  apply run_stage_ok_inv in H3 as (wp3 & P3 & F3); [|exact Habs].
  apply (is_installed_again E pkg wp3 w3 Hro) in F3 as (Hc3 & Hf3 & w4 & F3).
  apply (positioned_same E pkg wp3 w3 Hc3 Hf3) in P3.
  assert (Hb3 : Pkg.is_built pkg w3 = Ok true w3).
  { destruct (is_bindist pkg) eqn:Hb.
    - destruct pkg as [p|p|p|p]; try discriminate Hb. reflexivity.
    - rewrite (is_built_eq pkg Hb) in F2 |- *.
      eapply path_exists_kept; [exact F2| |exact (K3 eq_refl)].
      destruct P2 as (-> & _). now destruct P3 as (-> & _). }
  split; [|split].
  - intros Hb.
    assert (Hf : Pkg.is_fetched pkg w3 = Ok true w3).
    { rewrite is_fetched_eq in F1 |- *.
      eapply path_exists_kept; [exact F1| |].
      - destruct P1 as (-> & _). now destruct P3 as (-> & _).
      - etransitivity; [exact K2|exact (K3 Hb)]. }
    exists w4. unfold Executor.pipeline.
    rewrite bind_eq, (run_stage_skip E pkg Fetch _ _ w3 w3 Habs P3 Hf).
    rewrite bind_eq, (run_stage_skip E pkg Build _ _ w3 w3 Habs P3 Hb3).
    rewrite bind_eq, (run_stage_skip E pkg Install _ _ w3 w4 Habs P3 F3).
    reflexivity.
  - exists w3. now apply positioned_probe.
  - exists w4. now apply positioned_probe.
Qed.

Lemma example_tools_keep : tools_keep Example.env.
Proof.
  split.
  - intros d cmd f. destruct cmd as [s|args]; cbn [run_prim Example.env Example.run_prim fst].
    + unfold Example.shell_effect.
      repeat match goal with
             | |- keeps _ (if ?b then _ else _) => destruct b
             end;
        repeat first [reflexivity
                     | etransitivity; [|apply keeps_insert_file]
                     | etransitivity; [|apply keeps_insert_dir]].
    + unfold Example.argv_effect.
      destruct args as [|a [|b [|c [|x xs]]]]; try reflexivity.
      destruct (_ && _); [|reflexivity].
      etransitivity; [|apply keeps_insert_file].
      etransitivity; [|apply keeps_insert_dir].
      apply keeps_insert_dir.
  - intros d p n f f' b. cbn [apply_patch_prim Example.env].
    unfold Example.apply_patch_prim. destruct (f !! _).
    + now intros [= <- _].
    + intros [= <- _]. apply keeps_insert_file.
Qed.

Lemma rerun_invokes_nothing_witness :
  Example.libunwind_run
  = Ok [Fetch; Build; Install] (final Example.libunwind_run) /\
  exists w'',
    Executor.pipeline Example.env (PLibUnwind Example.libunwind)
                      false false false (final Example.libunwind_run)
    = Ok [] w''.
Proof.
  assert (H1 : Example.libunwind_run
               = Ok [Fetch; Build; Install] (final Example.libunwind_run))
    by by_result.
  split; [exact H1|].
  apply (rerun_invokes_nothing Example.env (PLibUnwind Example.libunwind)
           false false false
           Example.w0 (final Example.libunwind_run) [Fetch; Build; Install]
           eq_refl example_tools_keep (fun d f => eq_refl) H1).
  reflexivity.
Defined.

(** * Further properties of the recipes *)

(** ** Where a computation leaves the process *)

(** [m] does not change the working directory. *)
Definition stays {A} (m : M A) : Prop :=
  forall w, cwd (final (m w)) = cwd w.

Lemma stays_ret {A} (a : A) : stays (mret a).
Proof. intros w. reflexivity. Qed.

Lemma stays_raise {A} (e : exn) : stays (@raise A e).
Proof. intros w. reflexivity. Qed.

Lemma stays_bind {A B} (m : M A) (f : A -> M B) :
  stays m -> (forall a, stays (f a)) -> stays (m ≫= f).
Proof.
  intros Hm Hf w. rewrite bind_eq. specialize (Hm w).
  destruct (m w) as [a w1|e w1]; cbn [final] in *; [|exact Hm].
  now rewrite Hf.
Qed.

Lemma stays_when (c : bool) (m : M unit) : stays m -> stays (when c m).
Proof. destruct c; cbn [when]; auto using stays_ret. Qed.

Lemma stays_for_each {A} (l : list A) (body : A -> M unit) :
  (forall x, stays (body x)) -> stays (for_each l body).
Proof.
  intros Hb. induction l as [|x xs IH]; cbn [for_each].
  - apply stays_ret.
  - apply stays_bind; auto.
Qed.

Lemma stays_path_exists s : stays (Os.path_exists s).
Proof. intros w. reflexivity. Qed.

Lemma stays_makedirs s : stays (Os.makedirs s).
Proof. intros w. unfold Os.makedirs. now destruct (Fs.mkdirs _ _ _). Qed.

Lemma stays_remove s : stays (Os.remove s).
Proof.
  intros w. unfold Os.remove. now destruct (fs w !! _) as [[| |t]|].
Qed.

Lemma stays_symlink a b : stays (Os.symlink a b).
Proof.
  intros w. unfold Os.symlink. destruct (fs w !! _); [reflexivity|].
  now destruct (Fs.isdir _ _).
Qed.

Lemma stays_move a b : stays (Shutil.move a b).
Proof.
  intros w. unfold Shutil.move.
  repeat match goal with
         | |- cwd (final (match ?x with _ => _ end)) = _ => destruct x
         | |- cwd (final (if ?x then _ else _)) = _ => destruct x
         end; reflexivity.
Qed.

Lemma stays_log_debug s : stays (log_debug s).
Proof. intros w. reflexivity. Qed.

Lemma stays_run E cmd a : stays (run E cmd a).
Proof.
  intros w. unfold run. destruct (run_prim E (cwd w) cmd (fs w)) as [f [p|]].
  - now destruct (_ || _).
  - now destruct a.
Qed.

Lemma stays_download E url : stays (download E url).
Proof.
  intros w. unfold download. now destruct (download_prim E (cwd w) url (fs w)).
Qed.

Ltac stays_step :=
  lazymatch goal with
  | |- forall _, _ => intros ?
  | |- stays (if ?b then _ else _) => destruct b
  | |- stays (match ?x with _ => _ end) => destruct x
  | |- stays _ =>
      first
        [ apply stays_ret | apply stays_raise | apply stays_path_exists
        | apply stays_makedirs | apply stays_remove | apply stays_symlink
        | apply stays_move | apply stays_log_debug | apply stays_run
        | apply stays_download | apply stays_bind | apply stays_when
        | apply stays_for_each ]
  end.

(** ** A version that is not a number, a commit instead of a release *)

(** X1: [build] reads the major version first: with a version whose first field
    is not an integer it raises [ValueError] before it touches anything, and
    so does [fetch] when no commit is given. *)
Theorem LLVM_version_not_a_number (E : Env) (self : LLVM.t) (w : World) :
  PyStr.int (PyStr.first_field "." (LLVM.version self)) = None ->
  LLVM.build E self w = Raise ValueError w /\
  (LLVM.commit self = None -> LLVM.fetch E self w = Raise ValueError w).
Proof.
  intros H. split.
  - unfold LLVM.build, LLVM.major_version. now rewrite H.
  - intros Hc. unfold LLVM.fetch, LLVM.major_version. now rewrite Hc, H.
Qed.

Lemma LLVM_version_not_a_number_witness :
  let self := LLVM.mk "trunk" false false 0%nat [] None in
  LLVM.build Example.env self Example.w0 = Raise ValueError Example.w0 /\
  LLVM.fetch Example.env self Example.w0 = Raise ValueError Example.w0.
Proof.
  intros self.
  destruct (LLVM_version_not_a_number Example.env self Example.w0 eq_refl)
    as [Hb Hf].
  split; [exact Hb|exact (Hf eq_refl)].
Defined.

(** X2: With a commit, [fetch] looks at nothing but the commit: it clones the
    repository and checks the commit out in [src], where it leaves the
    process, and downloads nothing; the version is not read, so a version
    that makes [build] raise [ValueError] is fetched all the same. *)
Theorem LLVM_fetch_commit (E : Env) (self : LLVM.t) (c : string) (w : World) :
  LLVM.commit self = Some c ->
  (forall other, LLVM.commit other = Some c ->
                 LLVM.fetch E other w = LLVM.fetch E self w) /\
  (forall w', LLVM.fetch E self w = Ok tt w' ->
     cwd w' = cwd w ++ ["src"] /\
     trace w' = trace w ++
       [ERun (cwd w)
             (Argv ["git"; "clone";
                    "https://github.com/llvm/llvm-project.git"; "src"]) false;
        ERun (cwd w ++ ["src"]) (Argv ["git"; "checkout"; c]) false]).
Proof.
  intros Hc. split.
  - intros other Ho. unfold LLVM.fetch. now rewrite Hc, Ho.
  - intros w' H. unfold LLVM.fetch in H. rewrite Hc in H.
    apply bind_ok_inv in H as (r1 & w1 & H1 & H).
    apply run_ok_inv in H1 as [_ ->].
    apply bind_ok_inv in H as ([] & w2 & H2 & H).
    apply chdir_ok_inv in H2 as ->.
    apply bind_ok_inv in H as (r3 & w3 & H3 & H).
    apply run_ok_inv in H3 as [_ ->]. injection H as <-.
    cbn. rewrite <- app_assoc. auto.
Qed.

(** The tools of the example, with a [git clone] that makes the directory
    it is given. *)
Definition clone_run_prim (d : path) (cmd : command) (f : gmap path node)
  : gmap path node * option proc :=
  match cmd with
  | Argv [a; b; _; dir] =>
      if String.eqb a "git" && String.eqb b "clone"
      then (<[d ++ [dir] := Dir]> f, Some (mkProc 0 EmptyString))
      else Example.run_prim d cmd f
  | _ => Example.run_prim d cmd f
  end.

Definition clone_env : Env :=
  mkEnv "/build/packages" "/infra/packages" "/infra/packages/llvm"
        "binutils-2.38-gold" clone_run_prim Example.download_prim
        Example.apply_patch_prim.

Lemma LLVM_fetch_commit_witness :
  let self := LLVM.mk "trunk" false false 0%nat [] (Some "release_40") in
  let w := final (goto_rootdir clone_env (LLVM.ident self) Example.w0) in
  is_ok (LLVM.fetch clone_env self w) = true /\
  cwd (final (LLVM.fetch clone_env self w))
  = ["build"; "packages"; "llvm-trunk"; "src"] /\
  LLVM.build clone_env self (final (LLVM.fetch clone_env self w))
  = Raise ValueError (final (LLVM.fetch clone_env self w)).
Proof.
  intros self w.
  assert (Hok : LLVM.fetch clone_env self w
                = Ok tt (final (LLVM.fetch clone_env self w))) by by_result.
  destruct (proj2 (LLVM_fetch_commit clone_env self "release_40" w eq_refl)
              _ Hok) as [Hc _].
  split; [vm_compute; reflexivity|]. split.
  - rewrite Hc. vm_compute. reflexivity.
  - unfold LLVM.build, LLVM.major_version. reflexivity.
Defined.

(** ** The archives [LLVM.fetch] downloads *)

(** When [m] returns, the process is in [cw d] and the collaborators were
    called as [evs d] says, [d] being the directory [m] started in. *)
Definition does {A} (m : M A) (cw : path -> path) (evs : path -> list event)
  : Prop :=
  forall w a w', m w = Ok a w' ->
    cwd w' = cw (cwd w) /\ trace w' = trace w ++ evs (cwd w).

Lemma does_ext {A} (m : M A) cw cw' evs evs' :
  (forall d, cw d = cw' d) -> (forall d, evs d = evs' d) ->
  does m cw evs -> does m cw' evs'.
Proof.
  intros Hc He H w a w' Hm. rewrite <- Hc, <- He. now apply (H w a).
Qed.

Lemma does_bind {A B} (m : M A) (f : A -> M B) cw1 cw2 e1 e2 :
  does m cw1 e1 -> (forall a, does (f a) cw2 e2) ->
  does (m ≫= f) (fun d => cw2 (cw1 d)) (fun d => e1 d ++ e2 (cw1 d)).
Proof.
  intros Hm Hf w b w' H. apply bind_ok_inv in H as (a & w1 & H1 & H2).
  apply Hm in H1 as [Hc1 Ht1]. apply Hf in H2 as [Hc2 Ht2].
  rewrite Hc2, Ht2, Hc1, Ht1, <- app_assoc. auto.
Qed.

(** A computation that stays where it is and calls no collaborator. *)
Lemma does_quiet {A} (m : M A) :
  stays m -> silent m -> does m (fun d => d) (fun _ => []).
Proof.
  intros Hs Hq w a w' H. specialize (Hs w).
  destruct (silent_trace m w Hq) as [Ht _]. rewrite H in Hs, Ht.
  cbn [final] in Hs, Ht. now rewrite app_nil_r.
Qed.

Lemma does_download (E : Env) (url : string) :
  does (download E url) (fun d => d) (fun d => [EDownload d url]).
Proof.
  intros w a w'. unfold download.
  destruct (download_prim E (cwd w) url (fs w)); [|discriminate].
  intros [= _ <-]. auto.
Qed.

Lemma does_run (E : Env) (cmd : command) (allow_error : bool) :
  does (run E cmd allow_error) (fun d => d)
       (fun d => [ERun d cmd allow_error]).
Proof. intros w a w' H. apply run_ok_inv in H as [_ ->]. auto. Qed.

Lemma does_chdir (s : string) :
  does (Os.chdir s) (fun d => Path.resolve d s) (fun _ => []).
Proof.
  intros w [] w' H. apply chdir_ok_inv in H as ->. cbn.
  now rewrite app_nil_r.
Qed.

(** The archive of a repository of the release. *)
Definition tarname (self : LLVM.t) (repo : string) : string :=
  (repo +:+ "-" +:+ LLVM.version self +:+ ".src") +:+ ".tar.xz".

(** Where it is downloaded from: the project's releases on GitHub from
    version 8 on, releases.llvm.org before. *)
Definition tarball_url (self : LLVM.t) (major : Z) (repo : string) : string :=
  if 8 <=? major then
    "https://github.com/llvm/llvm-project/releases/download/llvmorg-"
    +:+ LLVM.version self +:+ "/" +:+ tarname self repo
  else
    "https://releases.llvm.org/" +:+ LLVM.version self +:+ "/"
    +:+ tarname self repo.

(** The repositories of a release: the whole project from version 9 on;
    before that llvm, the compiler (called clang from version 8 on, cfe
    before) and, when asked for, compiler-rt and lld. *)
Definition release_repos (self : LLVM.t) (major : Z) : list string :=
  if 9 <=? major then ["llvm-project"]
  else
    ["llvm"; if 8 <=? major then "clang" else "cfe"]
    ++ (if LLVM.compiler_rt self then ["compiler-rt"] else [])
    ++ (if LLVM.lld self then ["lld"] else []).

(** What [get] asks of the collaborators in directory [d]. *)
Definition get_calls (self : LLVM.t) (major : Z) (d : path) (repo : string)
  : list event :=
  [EDownload d (tarball_url self major repo);
   ERun d (Argv ["tar"; "-xf"; tarname self repo]) false].

Lemma get_does (E : Env) (self : LLVM.t) (major : Z) (repo clonedir : string) :
  PyStr.int (PyStr.first_field "." (LLVM.version self)) = Some major ->
  does (LLVM.get E self repo clonedir) (fun d => d)
       (fun d => get_calls self major d repo).
Proof.
  intros Hv w [] w' H. unfold LLVM.get in H.
  apply bind_ok_inv in H as ([] & w1 & H1 & H).
  apply does_quiet in H1 as [Hc1 Ht1];
    [|repeat stays_step|unfold silent; respects_tac].
  apply bind_ok_inv in H as (m & w2 & Hm & H).
  unfold LLVM.major_version in Hm. rewrite Hv in Hm. injection Hm as <- <-.
  apply bind_ok_inv in H as ([] & w3 & Hd & H).
  assert (Hd' : cwd w3 = cwd w1 /\
                trace w3 = trace w1
                           ++ [EDownload (cwd w1) (tarball_url self major repo)]).
  { unfold tarball_url, tarname.
    destruct (8 <=? major); apply does_download in Hd; exact Hd. }
  destruct Hd' as [Hc3 Ht3].
  apply bind_ok_inv in H as (r & w4 & Hr & H). apply does_run in Hr as [Hc4 Ht4].
  apply bind_ok_inv in H as ([] & w5 & Hmv & H).
  apply does_quiet in Hmv as [Hc5 Ht5];
    [|apply stays_move|unfold silent; respects_tac].
  apply does_quiet in H as [Hc6 Ht6];
    [|apply stays_remove|unfold silent; respects_tac].
  rewrite app_nil_r in Ht1, Ht5, Ht6.
  rewrite Hc6, Ht6, Hc5, Ht5, Hc4, Ht4, Hc3, Ht3, Hc1, Ht1, <- app_assoc.
  auto.
Qed.

Lemma does_when (c : bool) (m : M unit) evs :
  does m (fun d => d) evs ->
  does (when c m) (fun d => d) (fun d => if c then evs d else []).
Proof.
  destruct c; cbn [when]; [auto|].
  intros _ w [] w' [= <-]. now rewrite app_nil_r.
Qed.

(** X3: Without a commit, a [fetch] that returns has downloaded and unpacked
    the archives of the release, one after the other, from the place that
    goes with the major version, and leaves the process where it was. *)
Theorem LLVM_fetch_release (E : Env) (self : LLVM.t) (major : Z) (w w' : World) :
  LLVM.commit self = None ->
  PyStr.int (PyStr.first_field "." (LLVM.version self)) = Some major ->
  LLVM.fetch E self w = Ok tt w' ->
  cwd w' = cwd w /\
  trace w' = trace w
             ++ flat_map (get_calls self major (cwd w)) (release_repos self major).
Proof.
  intros Hc Hv H. unfold LLVM.fetch in H. rewrite Hc in H.
  apply bind_ok_inv in H as (m & w1 & Hm & H).
  unfold LLVM.major_version in Hm. rewrite Hv in Hm. injection Hm as <- <-.
  pose proof (fun repo dir => get_does E self major repo dir Hv) as Hget.
  unfold release_repos. destruct (9 <=? major).
  - apply Hget in H as [H1 H2]. cbn [flat_map]. now rewrite app_nil_r.
  - set (cc := if 8 <=? major then "clang" else "cfe").
    assert (Hd : does
        (LLVM.get E self "llvm" "src";;
         LLVM.get E self cc "src/tools/clang";;
         when (LLVM.compiler_rt self)
              (LLVM.get E self "compiler-rt" "src/projects/compiler-rt");;
         when (LLVM.lld self) (LLVM.get E self "lld" "src/projects/lld"))
        (fun d => d)
        (fun d => flat_map (get_calls self major d)
           (["llvm"; cc]
            ++ (if LLVM.compiler_rt self then ["compiler-rt"] else [])
            ++ (if LLVM.lld self then ["lld"] else [])))).
    { eapply does_ext;
        [| |eapply does_bind; [apply Hget|intros _];
            eapply does_bind; [apply Hget|intros _];
            eapply does_bind; [apply does_when, Hget|intros _];
            apply does_when, Hget].
      - reflexivity.
      - intros d. destruct (LLVM.compiler_rt self), (LLVM.lld self);
          reflexivity. }
    apply (Hd w tt w'). subst cc. now destruct (8 <=? major).
Qed.

Lemma LLVM_fetch_release_witness :
  let w := final (goto_rootdir Example.env (LLVM.ident Example.llvm)
                               Example.w1) in
  let w' := final (LLVM.fetch Example.env Example.llvm w) in
  cwd w' = cwd w /\
  trace w' = trace w
             ++ flat_map (get_calls Example.llvm 4 (cwd w)) ["llvm"; "cfe"].
Proof.
  intros w w'.
  assert (Hok : LLVM.fetch Example.env Example.llvm w = Ok tt w')
    by (subst w'; by_result).
  exact (LLVM_fetch_release Example.env Example.llvm 4 w w'
           eq_refl eq_refl Hok).
Defined.

(** ** The other fetches *)

Lemma remove_ok_inv s w w' :
  Os.remove s w = Ok tt w' ->
  w' = set_fs (delete (Path.resolve (cwd w) s) (fs w)) w.
Proof.
  unfold Os.remove. destruct (fs w !! _) as [[| |t]|]; congruence.
Qed.

(** Download, unpack, move, remove: the steps [LibUnwind.fetch] and
    [LLVMBinDist.fetch] are made of. *)
Lemma unpack_ok (E : Env) (url tarname dirname dst : string) (w w' : World) :
  (download E url;;
   run E (Argv ["tar"; "-xf"; tarname]) false;;
   Shutil.move dirname dst;;
   Os.remove tarname) w = Ok tt w' ->
  cwd w' = cwd w /\
  trace w' = trace w ++ [EDownload (cwd w) url;
                         ERun (cwd w) (Argv ["tar"; "-xf"; tarname]) false] /\
  fs w' !! Path.resolve (cwd w) tarname = None.
Proof.
  intros H.
  apply bind_ok_inv in H as ([] & w1 & H1 & H).
  apply does_download in H1 as [Hc1 Ht1].
  apply bind_ok_inv in H as (r & w2 & H2 & H).
  apply does_run in H2 as [Hc2 Ht2].
  apply bind_ok_inv in H as ([] & w3 & H3 & H).
  apply does_quiet in H3 as [Hc3 Ht3];
    [|apply stays_move|unfold silent; respects_tac].
  apply remove_ok_inv in H as ->. cbn [cwd trace fs set_fs].
  rewrite app_nil_r in Ht3.
  rewrite Hc3, Ht3, Hc2, Ht2, Hc1, Ht1, <- app_assoc.
  repeat split. apply lookup_delete_eq.
Qed.

(** X4: [LibUnwind.fetch] and [LLVMBinDist.fetch], when they return, have
    downloaded one archive and unpacked it in the directory they were called
    in; the process is still there, and the archive is not. *)
Theorem fetch_unpacks_one_archive (E : Env) :
  (forall (self : LibUnwind.t) (w w' : World),
     LibUnwind.fetch E self w = Ok tt w' ->
     let tar := LibUnwind.ident self +:+ ".tar.gz" in
     cwd w' = cwd w /\
     trace w' = trace w
       ++ [EDownload (cwd w)
             ("http://download.savannah.gnu.org/releases/libunwind/" +:+ tar);
           ERun (cwd w) (Argv ["tar"; "-xf"; tar]) false] /\
     fs w' !! Path.resolve (cwd w) tar = None) /\
  (forall (self : LLVMBinDist.t) (w w' : World),
     LLVMBinDist.fetch E self w = Ok tt w' ->
     let tar := ("clang+llvm-" +:+ LLVMBinDist.version self +:+ "-"
                 +:+ LLVMBinDist.target self) +:+ ".tar.xz" in
     cwd w' = cwd w /\
     trace w' = trace w
       ++ [EDownload (cwd w)
             ("http://releases.llvm.org/" +:+ LLVMBinDist.version self
              +:+ "/" +:+ tar);
           ERun (cwd w) (Argv ["tar"; "-xf"; tar]) false] /\
     fs w' !! Path.resolve (cwd w) tar = None).
Proof.
  split; intros self w w' H; cbv zeta; exact (unpack_ok _ _ _ _ _ _ _ H).
Qed.

Lemma fetch_unpacks_one_archive_witness :
  let self := Example.libunwind in
  let w := final (goto_rootdir Example.env (LibUnwind.ident self) Example.w0) in
  let w' := final (LibUnwind.fetch Example.env self w) in
  cwd w' = ["build"; "packages"; "libunwind-1.4-rc1"] /\
  fs w' !! ["build"; "packages"; "libunwind-1.4-rc1";
            "libunwind-1.4-rc1.tar.gz"] = None.
Proof.
  intros self w w'.
  assert (Hok : LibUnwind.fetch Example.env self w = Ok tt w')
    by (subst w'; by_result).
  destruct (proj1 (fetch_unpacks_one_archive Example.env) self w w' Hok)
    as (Hc & _ & Hf).
  split; [rewrite Hc; vm_compute; reflexivity|exact Hf].
Defined.

(** X5: [Gperftools.fetch] clones the repository and checks the commit out; it
    leaves the process in [src], not where it was called. *)
Theorem Gperftools_fetch_leaves_src (E : Env) (self : Gperftools.t)
    (w w' : World) :
  Gperftools.fetch E self w = Ok tt w' ->
  cwd w' = cwd w ++ ["src"] /\
  trace w' = trace w ++
    [ERun (cwd w)
          (Shell "git clone https://github.com/gperftools/gperftools.git src")
          false;
     ERun (cwd w ++ ["src"])
          (Argv ["git"; "checkout"; Gperftools.commit self]) false].
Proof.
  intros H. unfold Gperftools.fetch in H.
  apply bind_ok_inv in H as (r1 & w1 & H1 & H).
  apply run_ok_inv in H1 as [_ ->].
  apply bind_ok_inv in H as ([] & w2 & H2 & H).
  apply chdir_ok_inv in H2 as ->.
  apply bind_ok_inv in H as (r3 & w3 & H3 & H).
  apply run_ok_inv in H3 as [_ ->]. injection H as <-.
  cbn. rewrite <- app_assoc. auto.
Qed.

Lemma Gperftools_fetch_leaves_src_witness :
  let self := Example.gperftools in
  let w := final (goto_rootdir Example.env (Gperftools.ident self)
                               Example.w0) in
  cwd (final (Gperftools.fetch Example.env self w))
  = ["build"; "packages"; "gperftools-gperftools-2.7"; "src"].
Proof.
  intros self w.
  assert (Hok : Gperftools.fetch Example.env self w
                = Ok tt (final (Gperftools.fetch Example.env self w)))
    by by_result.
  destruct (Gperftools_fetch_leaves_src Example.env self w _ Hok) as [Hc _].
  rewrite Hc. vm_compute. reflexivity.
Defined.

(** ** Installing *)

(** [install] of [LibUnwind], [Gperftools] and [LLVM]: one command, run in
    [obj]. *)
Lemma install_ok (E : Env) (cmd : string) (w w' : World) :
  (Os.chdir "obj";; run E (Shell cmd) false;; mret tt) w = Ok tt w' ->
  cwd w' = cwd w ++ ["obj"] /\
  trace w' = trace w ++ [ERun (cwd w ++ ["obj"]) (Shell cmd) false].
Proof.
  intros H. apply bind_ok_inv in H as ([] & w1 & Hc & H).
  apply chdir_ok_inv in Hc as ->.
  apply bind_ok_inv in H as (r & w2 & Hr & H).
  apply run_ok_inv in Hr as [_ ->]. injection H as <-. auto.
Qed.

Lemma install_no_obj (E : Env) (cmd : string) (w : World) :
  Fs.isdir (fs w) (Path.resolve (cwd w) "obj") = false ->
  (Os.chdir "obj";; run E (Shell cmd) false;; mret tt) w = Raise OSError w.
Proof. intros H. rewrite bind_eq. unfold Os.chdir. now rewrite H. Qed.

(** X6: Installing what was not built: without a directory [obj], [install] of
    [LibUnwind], [Gperftools] and [LLVM] raises [OSError] and has run
    nothing; when it returns it has run one command, in [obj], and the
    process is left there. *)
Theorem install_runs_in_obj (E : Env) (pkg : Package) (w : World) :
  (forall p, pkg <> PLLVMBinDist p) ->
  (Fs.isdir (fs w) (Path.resolve (cwd w) "obj") = false ->
   Pkg.install E pkg w = Raise OSError w) /\
  (forall w', Pkg.install E pkg w = Ok tt w' ->
     cwd w' = cwd w ++ ["obj"] /\
     exists cmd,
       trace w' = trace w ++ [ERun (cwd w ++ ["obj"]) (Shell cmd) false]).
Proof.
  intros Hp. destruct pkg as [p|p|p|p]; cbn [Pkg.install];
    [| | |now destruct (Hp p)].
  all: split; [apply install_no_obj|].
  all: intros w' H; apply install_ok in H as [Hc Ht]; eauto.
Qed.

Lemma install_runs_in_obj_witness :
  Pkg.install Example.env (PLLVM Example.llvm) Example.llvm_fetched
  = Raise OSError Example.llvm_fetched /\
  let w := Example.built (PLLVM Example.llvm) Example.llvm_fetched in
  cwd (final (Pkg.install Example.env (PLLVM Example.llvm) w))
  = cwd w ++ ["obj"].
Proof.
  split.
  - apply (install_runs_in_obj Example.env (PLLVM Example.llvm));
      [discriminate|vm_compute; reflexivity].
  - intros w.
    apply (install_runs_in_obj Example.env (PLLVM Example.llvm));
      [discriminate|].
    subst w. by_result.
Defined.

(** ** What [build] of [LibUnwind] and [Gperftools] runs, and where *)

(** [m] leaves the job count of the context alone. *)
Definition steady {A} (m : M A) : Prop :=
  forall w, jobs (ctx (final (m w))) = jobs (ctx w).

Lemma steady_ret {A} (a : A) : steady (mret a).
Proof. intros w. reflexivity. Qed.

Lemma steady_bind {A B} (m : M A) (f : A -> M B) :
  steady m -> (forall a, steady (f a)) -> steady (m ≫= f).
Proof.
  intros Hm Hf w. rewrite bind_eq. specialize (Hm w).
  destruct (m w) as [a w1|e w1]; cbn [final] in *; [|exact Hm].
  now rewrite Hf.
Qed.

Lemma steady_when (c : bool) (m : M unit) : steady m -> steady (when c m).
Proof. destruct c; cbn [when]; auto using steady_ret. Qed.

Lemma steady_for_each {A} (l : list A) (body : A -> M unit) :
  (forall x, steady (body x)) -> steady (for_each l body).
Proof.
  intros Hb. induction l as [|x xs IH]; cbn [for_each].
  - apply steady_ret.
  - apply steady_bind; auto.
Qed.

Lemma steady_chdir s : steady (Os.chdir s).
Proof. intros w. unfold Os.chdir. now destruct (Fs.isdir _ _). Qed.

Lemma steady_makedirs s : steady (Os.makedirs s).
Proof. intros w. unfold Os.makedirs. now destruct (Fs.mkdirs _ _ _). Qed.

Lemma steady_log_warning s : steady (log_warning s).
Proof. intros w. reflexivity. Qed.

Lemma steady_run E cmd a : steady (run E cmd a).
Proof.
  intros w. unfold run. destruct (run_prim E (cwd w) cmd (fs w)) as [f [p|]].
  - now destruct (_ || _).
  - now destruct a.
Qed.

Lemma steady_apply_patch E p n : steady (apply_patch E p n).
Proof.
  intros w. unfold apply_patch.
  now destruct (apply_patch_prim E (cwd w) p n (fs w)) as [[f b]|].
Qed.

Ltac steady_tac :=
  repeat lazymatch goal with
    | |- forall _, _ => intros ?
    | |- steady (if ?b then _ else _) => destruct b
    | |- steady _ =>
        first
          [ apply steady_ret | apply steady_chdir | apply steady_makedirs
          | apply steady_log_warning | apply steady_run
          | apply steady_apply_patch | apply steady_bind | apply steady_when
          | apply steady_for_each ]
    end.

(** The calls of [m] come after those made before. *)
Definition grows {A} (m : M A) : Prop :=
  forall w, exists evs, trace (final (m w)) = trace w ++ evs.

Lemma respects_grows {A} (m : M A) :
  respects any_fs (fun _ => True) m -> grows m.
Proof. intros H w. destruct (H w) as (_ & _ & evs & Ht & _). eauto. Qed.

Ltac grows_tac := apply respects_grows; respects_tac.

Lemma stays_chdir_abs (s : string) (w w' : World) :
  Path.is_abs s = true -> Os.chdir s w = Ok tt w' ->
  cwd w' = Path.resolve [] s.
Proof.
  intros Ha H. apply chdir_ok_inv in H as ->. cbn [cwd set_cwd].
  now apply resolve_abs.
Qed.

(** The end of both [build]s: [obj] is made and entered, [configure] is
    run unless there is a [Makefile], then [make] with the job count of the
    context. *)
Lemma make_tail (E : Env) (conf : M unit) (w w' : World) :
  stays conf -> steady conf -> grows conf ->
  (Os.makedirs "obj";;
   Os.chdir "obj";;
   have_makefile ← Os.path_exists "Makefile";
   when (negb have_makefile) conf;;
   jobs ← get_jobs;
   run E (Shell ("make -j" +:+ pretty jobs)) false;;
   mret tt) w = Ok tt w' ->
  cwd w' = cwd w ++ ["obj"] /\
  exists pre,
    trace w' = trace w ++ pre
      ++ [ERun (cwd w ++ ["obj"])
               (Shell ("make -j" +:+ pretty (jobs (ctx w)))) false] /\
    (Fs.exists_ (fs w) (Path.resolve (cwd w) "obj/Makefile") = true ->
     pre = []).
Proof.
  intros Hs Hj Hg H.
  apply bind_ok_inv in H as ([] & w1 & Hm & H).
  apply makedirs_ok_inv in Hm as (f & Hm & ->).
  apply bind_ok_inv in H as ([] & w2 & Hc & H).
  apply chdir_ok_inv in Hc as ->.
  apply bind_ok_inv in H as (b & w3 & He & H).
  unfold Os.path_exists in He. injection He as <- <-.
  cbn [cwd fs set_cwd set_fs] in H.
  change (Path.resolve (Path.resolve (cwd w) "obj") "Makefile")
    with (Path.resolve (cwd w) "obj/Makefile") in H.
  change (Path.resolve (cwd w) "obj") with (cwd w ++ ["obj"]) in H.
  set (w2 := set_cwd (cwd w ++ ["obj"]) (set_fs f w)) in H.
  apply bind_ok_inv in H as ([] & w3 & Hw & H).
  apply bind_ok_inv in H as (j & w4 & Hjobs & H). injection Hjobs as <- <-.
  apply bind_ok_inv in H as (r & w5 & Hr & H).
  apply run_ok_inv in Hr as [_ ->]. injection H as <-.
  cbn [cwd trace ctx add_event set_fs].
  assert (Hw3 : cwd w3 = cwd w ++ ["obj"] /\ jobs (ctx w3) = jobs (ctx w) /\
                exists pre, trace w3 = trace w ++ pre /\
                  (Fs.exists_ f (Path.resolve (cwd w) "obj/Makefile") = true ->
                   pre = [])).
  { destruct (Fs.exists_ f _); cbn [negb when] in Hw.
    - injection Hw as <-. repeat split. exists [].
      now rewrite app_nil_r.
    - specialize (Hs w2). specialize (Hj w2). destruct (Hg w2) as [pre Hp].
      rewrite Hw in Hs, Hj, Hp. cbn [final] in Hs, Hj, Hp.
      repeat split; [exact Hs|exact Hj|].
      exists pre. split; [exact Hp|discriminate]. }
  destruct Hw3 as (-> & -> & pre & -> & Hpre). split; [reflexivity|].
  exists pre. rewrite <- app_assoc. split; [reflexivity|].
  intros Hmk. apply Hpre. apply (mkdirs_keeps _ _ _ Hm), Hmk.
Qed.

(** The packages of gperftools.py. *)
Definition is_gnu (pkg : Package) : bool :=
  match pkg with
  | PLibUnwind _ | PGperftools _ => true
  | _ => false
  end.

(** What [Gperftools.build] wants to find in [src], or it runs
    [autoreconf]. *)
Definition autoconf_done (E : Env) (pkg : Package) (f : gmap path node)
  : bool :=
  match pkg with
  | PGperftools _ =>
      Fs.exists_ f (Path.resolve (root_dir E pkg) "src/configure")
      && Fs.exists_ f (Path.resolve (root_dir E pkg) "src/INSTALL")
  | _ => true
  end.

Lemma pkg_path_abs (E : Env) (ident : string) (args : list string) :
  Path.is_abs (packages_dir E) = true ->
  Path.is_abs (pkg_path E ident args) = true.
Proof.
  intros Habs. unfold pkg_path. cbn [fold_left].
  generalize (Os.join (packages_dir E) ident) (join_abs _ ident Habs).
  induction args as [|a args IH]; intros s Hsa; cbn [fold_left];
    [exact Hsa|]. apply IH, join_abs, Hsa.
Qed.

Lemma apply_patches_keep (E : Env) :
  tools_keep E ->
  (forall p, respects keeps (fun _ => True) (LibUnwind._apply_patches E p)) /\
  (forall p, respects keeps (fun _ => True) (Gperftools._apply_patches E p)).
Proof.
  intros Htools. split; intros p;
    unfold LibUnwind._apply_patches, Gperftools._apply_patches;
    repeat respects_step;
    try (intros; first [exact I | eapply (proj2 Htools); eassumption]).
Qed.

(** Where [_apply_patches] leaves the world when it returns. *)
Lemma gnu_apply_patches_ok (E : Env) (pkg : Package) (m : M unit)
    (w w1 : World) :
  Path.is_abs (packages_dir E) = true ->
  match pkg with
  | PLibUnwind p => m = LibUnwind._apply_patches E p
  | PGperftools p => m = Gperftools._apply_patches E p
  | _ => False
  end ->
  m w = Ok tt w1 ->
  cwd w1 = root_dir E pkg /\
  jobs (ctx w1) = jobs (ctx w) /\
  (tools_keep E -> keeps (fs w) (fs w1)) /\
  exists pe, trace w1 = trace w ++ pe /\
             Forall (fun e => is_patch e = true) pe.
Proof.
  intros Habs Hm H.
  assert (Hj : steady m).
  { destruct pkg as [p|p|p|p]; try contradiction; subst m;
      unfold LibUnwind._apply_patches, Gperftools._apply_patches; steady_tac. }
  assert (Hk : tools_keep E -> respects keeps (fun _ => True) m).
  { intros Htools. destruct (apply_patches_keep E Htools) as [H1 H2].
    destruct pkg as [p|p|p|p]; try contradiction; subst m; auto. }
  assert (Ha : exists files, applies_at files m w).
  { destruct pkg as [p|p|p|p]; try contradiction; subst m; eexists;
      [apply LibUnwind_apply_patches|apply Gperftools_apply_patches]. }
  assert (Hc : cwd w1 = root_dir E pkg).
  { destruct pkg as [p|p|p|p]; try contradiction; subst m;
      unfold LibUnwind._apply_patches, LibUnwind.path,
        Gperftools._apply_patches, Gperftools.path in H;
      apply bind_ok_inv in H as ([] & w2 & _ & H);
      apply bind_ok_inv in H as ([] & w3 & _ & H);
      apply (stays_chdir_abs _ _ _ (pkg_path_abs _ _ _ Habs)) in H; exact H. }
  specialize (Hj w). destruct Ha as (files & pe & Ht & Hpe & _).
  rewrite H in Hj, Ht. cbn [final] in Hj, Ht.
  repeat split; [exact Hc|exact Hj| |eauto].
  intros Htools. destruct (Hk Htools w) as (_ & Hf & _).
  now rewrite H in Hf.
Qed.

(** The calls of [build] of [LibUnwind] and [Gperftools]: the patches,
    then what prepares the tree, then [make] in [obj] of the directory of
    the package; nothing prepares a tree that has its [Makefile] (and, for
    [Gperftools], its [configure] and [INSTALL]). *)
Lemma gnu_build_shape (E : Env) (pkg : Package) (w w' : World) :
  Path.is_abs (packages_dir E) = true ->
  is_gnu pkg = true ->
  Pkg.build E pkg w = Ok tt w' ->
  cwd w' = root_dir E pkg ++ ["obj"] /\
  exists pe pre,
    trace w' = trace w ++ pe ++ pre
      ++ [ERun (root_dir E pkg ++ ["obj"])
               (Shell ("make -j" +:+ pretty (jobs (ctx w)))) false] /\
    Forall (fun e => is_patch e = true) pe /\
    (tools_keep E ->
     Fs.exists_ (fs w) (Path.resolve (root_dir E pkg) "obj/Makefile") = true ->
     autoconf_done E pkg (fs w) = true ->
     pre = []).
Proof.
  intros Habs Hpkg H.
  destruct pkg as [p|p|p|p]; try discriminate Hpkg; cbn [Pkg.build] in H.
  - unfold LibUnwind.build in H.
    apply bind_ok_inv in H as ([] & w1 & Hp & H).
    apply (gnu_apply_patches_ok E (PLibUnwind p) _ _ _ Habs eq_refl) in Hp
      as (Hc1 & Hj1 & Hk1 & pe & Ht1 & Hpe).
    apply make_tail in H as (Hc & pre & Ht & Hpre);
      [|repeat stays_step|steady_tac|grows_tac].
    rewrite Hc1 in Hc, Ht, Hpre. rewrite Hj1, Ht1 in Ht. split; [exact Hc|].
    exists pe, pre. rewrite Ht, <- !app_assoc. repeat split; [exact Hpe|].
    intros Htools Hmk _. apply Hpre, (Hk1 Htools), Hmk.
  - unfold Gperftools.build in H.
    apply bind_ok_inv in H as ([] & w1 & Hp & H).
    apply (gnu_apply_patches_ok E (PGperftools p) _ _ _ Habs eq_refl) in Hp
      as (Hc1 & Hj1 & Hk1 & pe & Ht1 & Hpe).
    unfold Gperftools.compile in H.
    apply bind_ok_inv in H as (b1 & w2 & He1 & H). injection He1 as Hb1 <-.
    apply bind_ok_inv in H as (b2 & w3 & He2 & H). injection He2 as Hb2 <-.
    rewrite Hc1 in Hb1, Hb2.
    apply bind_ok_inv in H as ([] & w4 & Hr & H).
    assert (Hw4 : cwd w4 = root_dir E (PGperftools p) /\
                  jobs (ctx w4) = jobs (ctx w1) /\
                  exists evs, trace w4 = trace w1 ++ evs /\
                    (b1 && b2 = true -> evs = [] /\ fs w4 = fs w1)).
    { set (m := when (negb b1 || negb b2) _) in Hr.
      assert (Hj : steady m)
        by (subst m; unfold goto_rootdir; steady_tac).
      assert (Hg : grows m) by (subst m; grows_tac).
      specialize (Hj w1). destruct (Hg w1) as [evs Hevs].
      rewrite Hr in Hj, Hevs. cbn [final] in Hj, Hevs. subst m.
      destruct b1, b2; cbn [negb orb when] in Hr.
      1: { injection Hr as <-. repeat split; [exact Hc1|].
           exists []. now rewrite app_nil_r. }
      all: split; [|split; [exact Hj|exists evs; split;
                                       [exact Hevs|discriminate]]].
      all: apply bind_ok_inv in Hr as ([] & w5 & _ & Hr);
           apply bind_ok_inv in Hr as (r & w6 & _ & Hr);
           unfold goto_rootdir in Hr;
           apply bind_ok_inv in Hr as ([] & w7 & _ & Hr);
           apply (stays_chdir_abs _ _ _ (pkg_path_abs _ _ _ Habs)) in Hr;
           exact Hr. }
    destruct Hw4 as (Hc4 & Hj4 & evs & Ht4 & Hskip).
    apply make_tail in H as (Hc & pre & Ht & Hpre);
      [|repeat stays_step|steady_tac|grows_tac].
    rewrite Hc4 in Hc, Ht, Hpre. rewrite Hj4, Hj1, Ht4, Ht1 in Ht.
    split; [exact Hc|].
    exists pe, (evs ++ pre). rewrite Ht, <- !app_assoc.
    repeat split; [exact Hpe|].
    intros Htools Hmk Hac. cbn [autoconf_done] in Hac.
    apply andb_prop in Hac as [Ha1 Ha2].
    apply (Hk1 Htools) in Ha1, Ha2, Hmk.
    rewrite Ha1 in Hb1. rewrite Ha2 in Hb2. subst b1 b2.
    destruct (Hskip eq_refl) as [-> Hf]. rewrite Hf in Hpre.
    now rewrite (Hpre Hmk).
Qed.

(** X7: [LibUnwind.build] and [Gperftools.build] go to the directory of the
    package themselves: wherever they are called, a build that returns has
    run [make] in [obj] of that directory, with the job count of the
    context, as its last command, and leaves the process there. *)
Theorem build_ends_with_make (E : Env) (pkg : Package) (w w' : World) :
  Path.is_abs (packages_dir E) = true ->
  is_gnu pkg = true ->
  Pkg.build E pkg w = Ok tt w' ->
  cwd w' = root_dir E pkg ++ ["obj"] /\
  exists before,
    trace w' = trace w ++ before
      ++ [ERun (root_dir E pkg ++ ["obj"])
               (Shell ("make -j" +:+ pretty (jobs (ctx w)))) false].
Proof.
  intros Habs Hpkg H.
  apply gnu_build_shape in H as (Hc & pe & pre & Ht & _); try assumption.
  split; [exact Hc|]. exists (pe ++ pre). now rewrite <- app_assoc.
Qed.

Lemma build_ends_with_make_witness :
  let pkg := PGperftools Example.gperftools in
  let w := Example.w0 in
  cwd (final (Pkg.build Example.env pkg (Example.fetched pkg w)))
  = ["build"; "packages"; "gperftools-gperftools-2.7"; "obj"].
Proof.
  intros pkg w.
  assert (Hok : Pkg.build Example.env pkg (Example.fetched pkg w)
                = Ok tt (final (Pkg.build Example.env pkg
                                  (Example.fetched pkg w))))
    by by_result.
  destruct (build_ends_with_make Example.env pkg _ _ eq_refl eq_refl Hok)
    as [Hc _].
  rewrite Hc. vm_compute. reflexivity.
Defined.

(** X8: A tree that is configured is not configured again: when [obj/Makefile]
    is there (and, for [Gperftools], [src/configure] and [src/INSTALL]) and
    the tools delete nothing, a build that returns has applied the patches
    and then run [make], nothing else; the arguments of [configure] are
    those of the build that made the [Makefile]. *)
Theorem configured_tree_runs_only_make (E : Env) (pkg : Package)
    (w w' : World) :
  tools_keep E ->
  Path.is_abs (packages_dir E) = true ->
  is_gnu pkg = true ->
  Fs.exists_ (fs w) (Path.resolve (root_dir E pkg) "obj/Makefile") = true ->
  autoconf_done E pkg (fs w) = true ->
  Pkg.build E pkg w = Ok tt w' ->
  exists pe,
    trace w' = trace w ++ pe
      ++ [ERun (root_dir E pkg ++ ["obj"])
               (Shell ("make -j" +:+ pretty (jobs (ctx w)))) false] /\
    Forall (fun e => is_patch e = true) pe.
Proof.
  intros Htools Habs Hpkg Hmk Hac H.
  apply gnu_build_shape in H as (_ & pe & pre & Ht & Hpe & Hpre);
    try assumption.
  rewrite (Hpre Htools Hmk Hac) in Ht. exists pe. split; [exact Ht|exact Hpe].
Qed.

Lemma configured_tree_runs_only_make_witness :
  let pkg := PLibUnwind Example.libunwind in
  let root := root_dir Example.env pkg in
  let w1 := Example.fetched pkg Example.w0 in
  let w := set_fs (<[root ++ ["obj"; "Makefile"] := File]>
                     (<[root ++ ["obj"] := Dir]> (fs w1))) w1 in
  exists pe,
    trace (final (Pkg.build Example.env pkg w))
    = trace w ++ pe
      ++ [ERun (root ++ ["obj"])
               (Shell ("make -j" +:+ pretty (jobs (ctx w)))) false] /\
    Forall (fun e => is_patch e = true) pe.
Proof.
  intros pkg root w1 w.
  assert (Hok : Pkg.build Example.env pkg w
                = Ok tt (final (Pkg.build Example.env pkg w))) by by_result.
  assert (Hmk : Fs.exists_ (fs w) (Path.resolve root "obj/Makefile") = true)
    by (vm_compute; reflexivity).
  exact (configured_tree_runs_only_make Example.env pkg w _
           example_tools_keep eq_refl eq_refl Hmk eq_refl Hok).
Defined.

(** ** A patch that fails *)










(** ** The flags of the configure steps *)

(** X10: [LLVM.add_plugin_flags] appends its flags to the link flags, in their
    order, each behind [-Wl,-plugin-opt=] (or [-Wl,-mllvm=] for a linker
    that is not gold); it touches nothing else of the context, least of
    all the compile flags. *)
Theorem add_plugin_flags_ldflags (flags : list string) (gold_passes : bool)
    (w : World) :
  let opt := if gold_passes then "-Wl,-plugin-opt=" else "-Wl,-mllvm=" in
  exists w',
    LLVM.add_plugin_flags flags gold_passes w = Ok tt w' /\
    ldflags (ctx w') = ldflags (ctx w) ++ map (String.append opt) flags /\
    cflags (ctx w') = cflags (ctx w) /\
    cxxflags (ctx w') = cxxflags (ctx w) /\
    (cc (ctx w'), cxx (ctx w'), ar (ctx w'), nm (ctx w'), ranlib (ctx w'))
    = (cc (ctx w), cxx (ctx w), ar (ctx w), nm (ctx w), ranlib (ctx w)) /\
    fs w' = fs w /\ cwd w' = cwd w /\ trace w' = trace w.
Proof.
  intros opt. unfold LLVM.add_plugin_flags. revert w.
  induction flags as [|x flags IH]; intros w; cbn [for_each map].
  - exists w. rewrite app_nil_r. repeat split.
  - rewrite bind_eq.
    set (w1 := set_ctx
                 (mkContext (cc (ctx w)) (cxx (ctx w)) (ar (ctx w))
                            (nm (ctx w)) (ranlib (ctx w)) (cflags (ctx w))
                            (cxxflags (ctx w)) (ldflags (ctx w) ++ [opt +:+ x])
                            (jobs (ctx w)) (log (ctx w))) w).
    assert (H1 : (if gold_passes
                  then extend_ldflags ["-Wl,-plugin-opt=" +:+ x]
                  else extend_ldflags ["-Wl,-mllvm=" +:+ x]) w = Ok tt w1)
      by (subst opt w1; now destruct gold_passes).
    rewrite H1. destruct (IH w1) as (w' & Hr & Hl & Hc & Hx & Hp & Hf & Hd & Ht).
    exists w'. split; [exact Hr|]. rewrite Hl, Hc, Hx, Hp, Hf, Hd, Ht.
    subst w1. cbn. rewrite <- app_assoc. repeat split.
Qed.

(** X11: The flags of [Gperftools.configure]: those of its libunwind first, then
    its own; the compile flags go to [cflags] and [cxxflags] alike.  A second
    call appends them all again: the step is safe to repeat only as far as
    the tools do not mind a flag given twice. *)
Theorem Gperftools_configure_twice (E : Env) (self : Gperftools.t) (w : World) :
  let lf :=
    ["-L" +:+ LibUnwind.path E (Gperftools.libunwind self) ["install/lib"];
     "-lunwind";
     "-L" +:+ Gperftools.path E self ["install/lib"];
     "-ltcmalloc"; "-lpthread"] in
  let cf :=
    ["-fno-builtin-malloc"; "-fno-builtin-calloc"; "-fno-builtin-realloc";
     "-fno-builtin-free"; "-I";
     Gperftools.path E self ["install/include/gperftools"]] in
  exists w1 w2,
    Gperftools.configure E self w = Ok tt w1 /\
    Gperftools.configure E self w1 = Ok tt w2 /\
    ldflags (ctx w1) = ldflags (ctx w) ++ lf /\
    cflags (ctx w1) = cflags (ctx w) ++ cf /\
    cxxflags (ctx w1) = cxxflags (ctx w) ++ cf /\
    ldflags (ctx w2) = ldflags (ctx w) ++ lf ++ lf /\
    cflags (ctx w2) = cflags (ctx w) ++ cf ++ cf /\
    cxxflags (ctx w2) = cxxflags (ctx w) ++ cf ++ cf.
Proof.
  intros lf cf.
  assert (H : forall w0, exists w1,
             Gperftools.configure E self w0 = Ok tt w1 /\
             ldflags (ctx w1) = ldflags (ctx w0) ++ lf /\
             cflags (ctx w1) = cflags (ctx w0) ++ cf /\
             cxxflags (ctx w1) = cxxflags (ctx w0) ++ cf).
  { intros w0. unfold Gperftools.configure, LibUnwind.configure.
    rewrite bind_eq. unfold extend_ldflags at 1, modify_ctx at 1.
    cbv zeta. rewrite bind_eq. unfold extend_cflags, modify_ctx at 1.
    rewrite bind_eq. unfold extend_cxxflags, modify_ctx at 1.
    eexists. split; [reflexivity|].
    cbn [ctx set_ctx ldflags cflags cxxflags]. subst lf cf.
    rewrite <- !app_assoc. repeat split. }
  destruct (H w) as (w1 & H1 & Hl1 & Hc1 & Hx1).
  destruct (H w1) as (w2 & H2 & Hl2 & Hc2 & Hx2).
  exists w1, w2. rewrite Hl2, Hc2, Hx2, Hl1, Hc1, Hx1, <- !app_assoc.
  repeat split; assumption.
Qed.

(** ** The default patch list, later *)

(** X12: Once [LLVM("4.0.0", True)] has been constructed with the default patch
    list, every [LLVM] constructed with the default list afterwards, of any
    version, has the patch [compiler-rt-typefix] in its list; its
    [is_installed] therefore never asks [llvm-config]: a preinstalled LLVM
    of the right version is not accepted any more. *)
Theorem leftover_default_patch (E : Env) (w : World) (version : string)
    (compiler_rt : bool) (commit : option string) (lld : bool)
    (build_flags : list string) :
  heap w !! LLVM.default_patches = Some [] ->
  exists a b w2,
    (a ← LLVM.__init__ "4.0.0" true None false None [];
     b ← LLVM.__init__ version compiler_rt commit lld None build_flags;
     mret (a, b)) w = Ok (a, b) w2 /\
    LLVM.version b = version /\
    (exists rest,
        heap w2 !! LLVM.patches b = Some (PStr "compiler-rt-typefix" :: rest)) /\
    forall w3, heap w3 = heap w2 ->
               LLVM.is_installed E b w3 = Ok (install_artifact w3) w3.
Proof.
  intros H0. rewrite bind_eq, init_typefix. cbn [default].
  set (w1 := mkWorld _ _ _ _ _).
  assert (H1 : heap w1 !! LLVM.default_patches
               = Some [PStr "compiler-rt-typefix"]).
  { subst w1. cbn [heap]. now rewrite lookup_alter_same, H0. }
  rewrite bind_eq. unfold LLVM.__init__. cbn [default]. rewrite bind_eq.
  set (b := LLVM.mk version compiler_rt lld LLVM.default_patches
                    build_flags commit).
  assert (Hinst : forall w2 rest,
             heap w2 !! LLVM.default_patches
             = Some (PStr "compiler-rt-typefix" :: rest) ->
             forall w3, heap w3 = heap w2 ->
               LLVM.is_installed E b w3 = Ok (install_artifact w3) w3).
  { intros w2 rest H2 w3 H3. unfold LLVM.is_installed.
    rewrite read_list_bind, H3. subst b. cbn [LLVM.patches]. rewrite H2.
    cbn [default]. rewrite bool_decide_eq_false_2 by discriminate.
    reflexivity. }
  destruct (compiler_rt && String.eqb version "4.0.0"); cbn [when].
  - eexists _, b, _. split; [reflexivity|]. split; [reflexivity|].
    assert (H2 : heap (final (LLVM.list_append LLVM.default_patches
                                (PStr "compiler-rt-typefix") w1))
                 !! LLVM.default_patches
                 = Some [PStr "compiler-rt-typefix";
                         PStr "compiler-rt-typefix"]).
    { cbn [LLVM.list_append final heap]. now rewrite lookup_alter_same, H1. }
    split; [eexists; exact H2|]. eapply Hinst, H2.
  - eexists _, b, _. split; [reflexivity|]. split; [reflexivity|].
    split; [eexists; exact H1|]. eapply Hinst, H1.
Qed.

Lemma leftover_default_patch_witness :
  exists a b w2,
    (a ← LLVM.__init__ "4.0.0" true None false None [];
     b ← LLVM.__init__ "7.0.0" false None false None [];
     mret (a, b)) Example.w0 = Ok (a, b) w2 /\
    LLVM.version b = "7.0.0" /\
    heap w2 !! LLVM.patches b = Some [PStr "compiler-rt-typefix"].
Proof.
  destruct (leftover_default_patch Example.env Example.w0 "7.0.0" false None
              false [] eq_refl)
    as (a & b & w2 & Hrun & Hv & _ & _).
  exists a, b, w2. split; [exact Hrun|]. split; [exact Hv|].
  rewrite bind_eq, init_typefix in Hrun. injection Hrun as _ <- <-.
  reflexivity.
Defined.

(** ** [LLVMBinDist.install] takes [src] away *)

Lemma rename_source_gone (a b : path) (f : gmap path node) :
  ~ b `prefix_of` a -> Fs.rename a b f !! a = None.
Proof.
  intros Hb. unfold Fs.rename.
  apply (map_fold_weak_ind (fun r _ => r !! a = None)).
  - apply lookup_empty.
  - intros i x m r _ IH. unfold Path.prefix_ofb. case_bool_decide as Hp.
    + rewrite lookup_insert_ne; [exact IH|]. intros Heq. apply Hb.
      exists (drop (length a) i). now rewrite Heq.
    + rewrite lookup_insert_ne; [exact IH|]. intros ->. now apply Hp.
Qed.

(** A move that returns and was not a move onto itself leaves no entry
    under the old name. *)
Lemma move_ok_gone (src dst : string) (w w1 : World) :
  ~ Path.resolve (cwd w) dst `prefix_of` Path.resolve (cwd w) src ->
  Shutil.move src dst w = Ok tt w1 ->
  cwd w1 = cwd w /\ trace w1 = trace w /\
  fs w1 !! Path.resolve (cwd w) src = None.
Proof.
  intros Hn. unfold Shutil.move.
  set (s := Path.resolve (cwd w) src) in *.
  set (d := Path.resolve (cwd w) dst) in *.
  destruct (fs w !! s) as [n|]; [|discriminate].
  case_bool_decide as Hsd; [now destruct Hn; rewrite Hsd|].
  set (real_dst := if Fs.isdir (fs w) d then _ else _).
  assert (Hr : ~ real_dst `prefix_of` s).
  { subst real_dst. destruct (Fs.isdir (fs w) d); [|exact Hn].
    intros Hp. apply Hn. eapply prefix_app_l, Hp. }
  destruct (_ && _); [discriminate|].
  destruct (negb _); [discriminate|].
  destruct (Path.prefix_ofb _ _); [discriminate|].
  destruct (fs w !! real_dst) as [[| |t]|], n; try discriminate;
    intros [= <-]; cbn [cwd trace fs set_fs]; repeat split;
    now apply rename_source_gone.
Qed.

Lemma exists_none (f : gmap path node) (p : path) :
  f !! p = None -> Fs.exists_ f p = false.
Proof.
  intros H. unfold Fs.exists_, Fs.stat.
  destruct MAXSYMLINKS; cbn [Fs.follow]; now rewrite H.
Qed.

Lemma symlink_ok_inv (a b : string) (w w' : World) :
  Os.symlink a b w = Ok tt w' ->
  w' = set_fs (<[Path.resolve (cwd w) b := Link a]> (fs w)) w.
Proof.
  unfold Os.symlink. destruct (fs w !! _); [discriminate|].
  destruct (Fs.isdir _ _); congruence.
Qed.

Lemma contains_app (c : ascii) (a b : string) :
  PyStr.contains c (a +:+ b) = PyStr.contains c a || PyStr.contains c b.
Proof.
  induction a as [|x a IH]; [reflexivity|].
  change (String x a +:+ b) with (String x (a +:+ b)). cbn [PyStr.contains].
  now destruct (Ascii.eqb c x).
Qed.

(** A name without a separator names the directory itself, its parent or an
    entry of it. *)
Lemma resolve_plain (d : path) (s : string) :
  PyStr.contains "/" s = false ->
  Path.resolve d s = d \/ Path.resolve d s = removelast d \/
  Path.resolve d s = d ++ [s].
Proof.
  intros H. unfold Path.resolve.
  assert (Ha : Path.is_abs s = false).
  { destruct s as [|c s]; [reflexivity|]. cbn [PyStr.contains] in H.
    unfold Path.is_abs. destruct c as [[] [] [] [] [] [] [] []];
      try reflexivity. discriminate H. }
  assert (Hs : PyStr.split "/" s = [s]).
  { rewrite <- (append_empty_r s) at 1. rewrite (split_no_sep s "" H).
    cbn [PyStr.split hd tl]. now rewrite append_empty_r. }
  rewrite Ha, Hs. cbn [fold_left]. unfold Path.step.
  destruct (String.eqb s ""); [auto|].
  destruct (String.eqb s "."); [auto|].
  destruct (String.eqb s ".."); auto.
Qed.

Lemma for_each_inv {A} (P : World -> Prop) (l : list A) (body : A -> M unit) :
  (forall x w w', In x l -> P w -> body x w = Ok tt w' -> P w') ->
  forall w w', P w -> for_each l body w = Ok tt w' -> P w'.
Proof.
  induction l as [|x xs IH]; intros Hb w w' Hw; cbn [for_each].
  - now intros [= <-].
  - intros H. apply bind_ok_inv in H as ([] & w1 & H1 & H).
    eapply IH; [|eapply Hb; [left; reflexivity|exact Hw|exact H1]|exact H].
    intros y v v' Hy. apply Hb. now right.
Qed.

(** X13: [LLVMBinDist.install] runs nothing and downloads nothing; it moves [src]
    to [install] and leaves the process in [install/bin].  When it returns
    there is no [src] in the directory it was called in (the links it makes
    have names without a separator and lie in [install/bin]), so
    [is_fetched], asked there, answers false from then on. *)
Theorem bindist_install_consumes_src (self : LLVMBinDist.t) (w w' : World) :
  PyStr.contains "/" (LLVMBinDist.bin_suffix self) = false ->
  LLVMBinDist.install self w = Ok tt w' ->
  cwd w' = cwd w ++ ["install"; "bin"] /\
  trace w' = trace w /\
  Fs.exists_ (fs w') (Path.resolve (cwd w) "src") = false.
Proof.
  intros Hsuf H. unfold LLVMBinDist.install in H.
  apply bind_ok_inv in H as ([] & w1 & Hm & H).
  apply move_ok_gone in Hm as (Hc1 & Ht1 & Hf1).
  2: { change (Path.resolve (cwd w) "install") with (cwd w ++ ["install"]).
       change (Path.resolve (cwd w) "src") with (cwd w ++ ["src"]).
       intros [k Hk]. rewrite <- app_assoc in Hk.
       apply app_inv_head in Hk. discriminate Hk. }
  apply bind_ok_inv in H as ([] & w2 & Hc & H).
  apply chdir_ok_inv in Hc as ->.
  change (Path.resolve (cwd w) "src") with (cwd w ++ ["src"]) in *.
  set (P := fun v : World =>
              cwd v = cwd w ++ ["install"; "bin"] /\ trace v = trace w /\
              fs v !! (cwd w ++ ["src"]) = None).
  assert (HP : P w').
  { assert (H2 : P (set_cwd (Path.resolve (cwd w1) "install/bin") w1)).
    { unfold P. cbn [cwd trace fs set_cwd]. rewrite Hc1.
      change (Path.resolve (cwd w) "install/bin")
        with ((cwd w ++ ["install"]) ++ ["bin"]).
      rewrite <- app_assoc. auto. }
    destruct (negb _); cbn [when] in H; [|now injection H as <-].
    revert H. apply for_each_inv; [|exact H2].
    intros x v v' Hx (Hcv & Htv & Hfv) Hb.
    apply bind_ok_inv in Hb as (b1 & v1 & He1 & Hb). injection He1 as _ <-.
    apply bind_ok_inv in Hb as (b2 & v2 & He2 & Hb). injection He2 as _ <-.
    destruct (b1 && negb b2); cbn [when] in Hb; [|now injection Hb as <-].
    apply bind_ok_inv in Hb as ([] & v3 & Hl & Hb). injection Hl as <-.
    apply symlink_ok_inv in Hb as ->. unfold P.
    cbn [cwd trace fs ctx set_fs set_ctx]. repeat split; try assumption.
    rewrite lookup_insert_ne; [exact Hfv|]. rewrite Hcv.
    assert (Hno : PyStr.contains "/" (x +:+ LLVMBinDist.bin_suffix self)
                  = false).
    { rewrite contains_app, Hsuf, orb_false_r.
      cbn [In] in Hx. destruct Hx as [<-|[<-|[<-|[<-|[]]]]]; reflexivity. }
    destruct (resolve_plain (cwd w ++ ["install"; "bin"]) _ Hno)
      as [->|[->| ->]].
    - intros Heq. apply app_inv_head in Heq. discriminate Heq.
    - change ["install"; "bin"] with (["install"] ++ ["bin"]).
      rewrite app_assoc, removelast_last.
      intros Heq. apply app_inv_head in Heq. discriminate Heq.
    - rewrite <- app_assoc. intros Heq. apply app_inv_head in Heq.
      discriminate Heq. }
  destruct HP as (Hc & Ht & Hf). repeat split; [exact Hc|exact Ht|].
  apply exists_none, Hf.
Qed.

Lemma bindist_install_consumes_src_witness :
  let pkg := PLLVMBinDist Example.llvm_bin in
  let w := Example.fetched pkg Example.w0 in
  Fs.exists_ (fs w) (Path.resolve (cwd w) "src") = true /\
  Fs.exists_ (fs (final (LLVMBinDist.install Example.llvm_bin w)))
             (Path.resolve (cwd w) "src") = false.
Proof.
  intros pkg w. split; [vm_compute; reflexivity|].
  assert (Hok : LLVMBinDist.install Example.llvm_bin w
                = Ok tt (final (LLVMBinDist.install Example.llvm_bin w)))
    by by_result.
  exact (proj2 (proj2 (bindist_install_consumes_src Example.llvm_bin w _
                         eq_refl Hok))).
Defined.

(** ** The commands of [LLVM.build] *)

Lemma steady_getcwd : steady Os.getcwd.
Proof. intros w. reflexivity. Qed.

Lemma steady_read_list r : steady (LLVM.read_list r).
Proof. intros w. reflexivity. Qed.

Lemma steady_apply_patches (E : Env) (self : LLVM.t) :
  steady (LLVM.apply_patches E self).
Proof.
  unfold LLVM.apply_patches, LLVM.apply_one.
  repeat lazymatch goal with
    | |- forall _, _ => intros ?
    | |- steady (match ?x with _ => _ end) => destruct x
    | |- steady _ =>
        first
          [ apply steady_ret | apply steady_getcwd | apply steady_read_list
          | apply steady_chdir | apply steady_apply_patch
          | apply steady_bind | apply steady_when | apply steady_for_each ]
    end.
Qed.

(** The source tree [cmake] is pointed at: the project layout ([llvm] below
    [src]) when a commit is given that is not the empty string, or from
    version 9 on; the layout of the separate archives otherwise. *)
Definition cmake_source (self : LLVM.t) (major : Z) : string :=
  if truthy (LLVM.commit self) || (9 <=? major) then "../src/llvm"
  else "../src".

Lemma compile_commands (E : Env) (self : LLVM.t) (major : Z) (w w' : World) :
  LLVM.compile E self major w = Ok tt w' ->
  exists opts,
    trace w' = trace w
      ++ [ERun (cwd w ++ ["obj"])
               (Argv (["cmake"; "-G"; "Ninja"] ++ opts
                      ++ LLVM.build_flags self ++ [cmake_source self major]))
               false;
          ERun (cwd w ++ ["obj"])
               (Shell ("cmake --build . -- -j " +:+ pretty (jobs (ctx w))))
               false].
Proof.
  intros H. unfold LLVM.compile in H.
  apply bind_ok_inv in H as ([] & w1 & Hm & H).
  apply makedirs_ok_inv in Hm as (f & _ & ->).
  apply bind_ok_inv in H as ([] & w2 & Hc & H).
  apply chdir_ok_inv in Hc as ->.
  apply bind_ok_inv in H as (r & w3 & Hr & H).
  assert (Hw3 : exists opts,
             w3 = add_event
                    (ERun (cwd w ++ ["obj"])
                       (Argv (["cmake"; "-G"; "Ninja"] ++ opts
                              ++ LLVM.build_flags self
                              ++ [cmake_source self major])) false)
                    (set_fs (run_prim E (cwd w ++ ["obj"])
                               (Argv (["cmake"; "-G"; "Ninja"] ++ opts
                                      ++ LLVM.build_flags self
                                      ++ [cmake_source self major])) f).1
                            (set_cwd (cwd w ++ ["obj"]) (set_fs f w)))).
  { unfold cmake_source. destruct (truthy _ || _);
      apply run_ok_inv in Hr as [_ ->].
    - now eexists [_; _; _; _; _; _; _; _; _].
    - now eexists [_; _; _; _; _; _; _]. }
  destruct Hw3 as (opts & ->).
  apply bind_ok_inv in H as (j & w4 & Hj & H). injection Hj as <- <-.
  apply bind_ok_inv in H as (r' & w5 & Hr' & H).
  apply run_ok_inv in Hr' as [_ ->]. injection H as <-.
  exists opts. cbn [trace cwd ctx add_event set_fs set_cwd].
  now rewrite <- app_assoc.
Qed.

(** X14: Where [src] is a directory entered by its own name, not a link, a
    [LLVM.build] that returns has run two commands after the patches, both
    in [obj] of the directory it was called in: [cmake], which gets the
    build flags of the instance after the options of the recipe and before
    the source tree, so that they win over the options; and the build
    itself, with the job count the context had when [build] was called.
    The source tree is chosen by [commit] being true, not by its being
    given: with the empty string as commit, [fetch] clones the project and
    [build] expects the separate archives. *)
Theorem LLVM_build_commands (E : Env) (self : LLVM.t) (major : Z)
    (w w' : World) :
  Path.wf (cwd w) ->
  fs w !! (cwd w ++ ["src"]) = Some Dir ->
  PyStr.int (PyStr.first_field "." (LLVM.version self)) = Some major ->
  LLVM.build E self w = Ok tt w' ->
  exists patches opts,
    Forall (fun e => is_patch e = true) patches /\
    trace w' = trace w ++ patches
      ++ [ERun (cwd w ++ ["obj"])
               (Argv (["cmake"; "-G"; "Ninja"] ++ opts
                      ++ LLVM.build_flags self ++ [cmake_source self major]))
               false;
          ERun (cwd w ++ ["obj"])
               (Shell ("cmake --build . -- -j " +:+ pretty (jobs (ctx w))))
               false].
Proof.
  intros Hwf _ Hv H. unfold LLVM.build, LLVM.major_version in H.
  rewrite Hv in H.
  rewrite bind_eq in H. cbn [mret M_ret] in H.
  apply bind_ok_inv in H as ([] & w1 & Hp & H).
  pose proof (steady_apply_patches E self w) as Hj. rewrite Hp in Hj.
  cbn [final] in Hj.
  apply (apply_patches_ok _ _ _ _ Hwf) in Hp as (Hc & _ & Ht).
  apply compile_commands in H as (opts & Ht').
  rewrite Hc, Hj, Ht in Ht'. eexists _, opts. split; [|rewrite Ht'].
  2: now rewrite <- app_assoc.
  apply List.Forall_forall. intros e He.
  apply List.in_map_iff in He as (r & <- & _). reflexivity.
Qed.

Lemma LLVM_build_commands_witness :
  let w := Example.llvm_fetched in
  exists patches opts,
    Forall (fun e => is_patch e = true) patches /\
    trace Example.llvm_built = trace w ++ patches
      ++ [ERun (cwd w ++ ["obj"])
               (Argv (["cmake"; "-G"; "Ninja"] ++ opts ++ [] ++ ["../src"]))
               false;
          ERun (cwd w ++ ["obj"]) (Shell "cmake --build . -- -j 8") false].
Proof.
  intros w.
  assert (Hok : LLVM.build Example.env Example.llvm w
                = Ok tt Example.llvm_built)
    by (subst w; unfold Example.llvm_built; by_result).
  assert (Hwf : Path.wf (cwd w)) by (apply wf_forallb; vm_compute; reflexivity).
  assert (Hsrc : fs w !! (cwd w ++ ["src"]) = Some Dir)
    by (vm_compute; reflexivity).
  exact (LLVM_build_commands Example.env Example.llvm 4 w _ Hwf Hsrc eq_refl
           Hok).
Defined.

(** ** The stages and the context *)

(** From [c] to [c'] nothing but log entries were added. *)
Definition logs_only (c c' : Context) : Prop :=
  same_programs_and_flags c c' /\ jobs c' = jobs c /\
  log c `prefix_of` log c'.

Lemma logs_only_refl c : logs_only c c.
Proof. split; [repeat split|split; reflexivity]. Qed.

Lemma logs_only_trans c1 c2 c3 :
  logs_only c1 c2 -> logs_only c2 c3 -> logs_only c1 c3.
Proof.
  unfold logs_only, same_programs_and_flags.
  intros ((H1 & H2 & H3 & H4 & H5 & H6 & H7 & H8) & Hj & Hl)
         ((K1 & K2 & K3 & K4 & K5 & K6 & K7 & K8) & Kj & Kl).
  split; [repeat split; congruence|].
  split; [congruence|now transitivity (log c2)].
Qed.

(** [m] adds log entries at most: the program names, the flag lists, the
    job count and the patch lists are as before. *)
Definition only_logs {A} (m : M A) : Prop :=
  forall w, logs_only (ctx w) (ctx (final (m w))) /\
            heap (final (m w)) = heap w.

Lemma only_logs_bind {A B} (m : M A) (f : A -> M B) :
  only_logs m -> (forall a, only_logs (f a)) -> only_logs (m ≫= f).
Proof.
  intros Hm Hf w. rewrite bind_eq. destruct (Hm w) as [Hc Hh].
  destruct (m w) as [a w1|e w1]; cbn [final] in *; [|auto].
  destruct (Hf a w1) as [Hc' Hh']. split; [|congruence].
  eapply logs_only_trans; eassumption.
Qed.

Lemma only_logs_same {A} (m : M A) :
  (forall w, ctx (final (m w)) = ctx w /\ heap (final (m w)) = heap w) ->
  only_logs m.
Proof.
  intros H w. destruct (H w) as [-> ->]. split; [apply logs_only_refl|auto].
Qed.

Lemma only_logs_ret {A} (a : A) : only_logs (mret a).
Proof. now apply only_logs_same. Qed.

Lemma only_logs_raise {A} (e : exn) : only_logs (@raise A e).
Proof. now apply only_logs_same. Qed.

Lemma only_logs_when (c : bool) (m : M unit) :
  only_logs m -> only_logs (when c m).
Proof. destruct c; cbn [when]; auto using only_logs_ret. Qed.

Lemma only_logs_for_each {A} (l : list A) (body : A -> M unit) :
  (forall x, only_logs (body x)) -> only_logs (for_each l body).
Proof.
  intros Hb. induction l as [|x xs IH]; cbn [for_each].
  - apply only_logs_ret.
  - apply only_logs_bind; auto.
Qed.

Lemma only_logs_log (l : level) (s : string) :
  only_logs (fun w => Ok tt (set_ctx (add_log l s (ctx w)) w)).
Proof.
  intros w. cbn. split; [|reflexivity].
  split; [repeat split|split; [reflexivity|now apply prefix_app_r]].
Qed.

Ltac unchanged_tac :=
  apply only_logs_same; intros w;
  repeat match goal with
         | |- context [match ?x with _ => _ end] => destruct x
         end; split; reflexivity.

Lemma only_logs_getcwd : only_logs Os.getcwd.
Proof. unchanged_tac. Qed.

Lemma only_logs_get_jobs : only_logs get_jobs.
Proof. unchanged_tac. Qed.

Lemma only_logs_read_list r : only_logs (LLVM.read_list r).
Proof. unchanged_tac. Qed.

Lemma only_logs_path_exists s : only_logs (Os.path_exists s).
Proof. unchanged_tac. Qed.

Lemma only_logs_chdir s : only_logs (Os.chdir s).
Proof. unfold Os.chdir. unchanged_tac. Qed.

Lemma only_logs_makedirs s : only_logs (Os.makedirs s).
Proof. unfold Os.makedirs. unchanged_tac. Qed.

Lemma only_logs_remove s : only_logs (Os.remove s).
Proof. unfold Os.remove. unchanged_tac. Qed.

Lemma only_logs_symlink a b : only_logs (Os.symlink a b).
Proof. unfold Os.symlink. unchanged_tac. Qed.

Lemma only_logs_move a b : only_logs (Shutil.move a b).
Proof. unfold Shutil.move. unchanged_tac. Qed.

Lemma only_logs_run E cmd a : only_logs (run E cmd a).
Proof. unfold run. unchanged_tac. Qed.

Lemma only_logs_download E url : only_logs (download E url).
Proof. unfold download. unchanged_tac. Qed.

Lemma only_logs_apply_patch E p n : only_logs (apply_patch E p n).
Proof. unfold apply_patch. unchanged_tac. Qed.

Ltac only_logs_tac :=
  repeat lazymatch goal with
    | |- forall _, _ => intros ?
    | |- only_logs (match ?x with _ => _ end) => destruct x
    | |- only_logs _ =>
        first
          [ apply only_logs_ret | apply only_logs_raise
          | apply only_logs_getcwd | apply only_logs_get_jobs
          | apply only_logs_read_list | apply only_logs_path_exists
          | apply only_logs_chdir | apply only_logs_makedirs
          | apply only_logs_remove | apply only_logs_move
          | apply only_logs_symlink
          | apply only_logs_run | apply only_logs_download
          | apply only_logs_apply_patch | apply only_logs_log
          | apply only_logs_bind | apply only_logs_when
          | apply only_logs_for_each ]
    end.

(** X15: The context is written to by the configure steps only: [fetch],
    [build] and [install] of every package, whether they return or raise,
    leave the program names, the flag lists, the job count and every patch
    list as they are; all they do to the context is add log entries. *)
Theorem stages_only_log (E : Env) (pkg : Package) :
  only_logs (Pkg.fetch E pkg) /\
  only_logs (Pkg.build E pkg) /\
  only_logs (Pkg.install E pkg).
Proof.
  split; [|split];
    destruct pkg as [p|p|p|p]; cbn [Pkg.fetch Pkg.build Pkg.install];
    unfold LibUnwind.fetch, Gperftools.fetch, LLVM.fetch, LLVMBinDist.fetch,
      LLVM.get,
      LibUnwind.build, LibUnwind._apply_patches, LibUnwind.compile,
      Gperftools.build, Gperftools._apply_patches, Gperftools.compile,
      LLVM.build, LLVM.apply_patches, LLVM.apply_one, LLVM.compile,
      LLVMBinDist.build, goto_rootdir,
      LibUnwind.install, Gperftools.install, LLVM.install,
      LLVMBinDist.install,
      LLVM.major_version, log_warning, log_debug;
    only_logs_tac.
Qed.

(** ** What [LLVM.is_installed] writes to the log *)

(** X16: When no patch is declared and [llvm-config] ran, exited with
    status zero and printed a version that is not the required one,
    [LLVM.is_installed] writes an entry at debug level that names both
    versions; it is the last entry of the log when the probe returns, after
    whatever was logged before. *)
Theorem is_installed_log (E : Env) (self : LLVM.t) (w : World) (p : proc) :
  default [] (heap w !! LLVM.patches self) = [] ->
  (run_prim E (cwd w) version_query (fs w)).2 = Some p ->
  returncode p = 0 ->
  PyStr.strip (stdout p) <> LLVM.version self ->
  exists before,
    log (ctx w) `prefix_of` before /\
    log (ctx (final (LLVM.is_installed E self w)))
    = before
      ++ [(Debug, "installed llvm-config version " +:+ PyStr.strip (stdout p)
                  +:+ " is different from required " +:+ LLVM.version self)].
Proof.
  intros Hps Hp Hrc Hv. exists (log (ctx w)). split; [reflexivity|].
  unfold LLVM.is_installed. rewrite read_list_bind, Hps.
  rewrite bool_decide_eq_true_2 by reflexivity.
  rewrite bind_eq. unfold LLVM.preinstalled. fold version_query.
  rewrite bind_eq, run_allow_error, Hp, Hrc.
  apply String.eqb_neq in Hv. cbn [Z.eqb]. rewrite Hv. reflexivity.
Qed.

Lemma is_installed_log_witness :
  let self := LLVM.mk "5.0.0" false false 0%nat [] None in
  exists before,
    log (ctx Example.w0) `prefix_of` before /\
    log (ctx (final (LLVM.is_installed Example.env self Example.w0)))
    = before
      ++ [(Debug,
           "installed llvm-config version 4.0.0 is different from required 5.0.0")].
Proof.
  intros self.
  exact (is_installed_log Example.env self Example.w0
           (mkProc 0 ("4.0.0" +:+ String "010" EmptyString))
           eq_refl eq_refl eq_refl ltac:(discriminate)).
Defined.
